(** * autoAce: event store, source validator and workload orchestrator

  A shallow embedding of [appy.py] and [check_sources.py].

  Conventions of the model.
  - A Python [str] is a [string]; each character stands for one code
    point in the range 0..255.
  - A Python [int] is a [Z].
  - A source entry, the dict [{'source': url, 'valid': flag}], is the
    record [Fuente].
  - Code that can raise returns a [Resultado]; [try ... except Exception]
    is the combinator [capturar].
  - The store file is seen through Python's [csv] module as a list of
    rows of ten columns; the JSON text in the [sources] column is
    modelled character by character.
  - External programs (docker, ffprobe, the monitor endpoint, the file
    system) are oracles: their outcomes are arguments of the model. *)

From Stdlib Require Import String Ascii List ZArith Lia Bool Arith.
From Stdlib Require Import DecimalString.
Import ListNotations.
Local Open Scope string_scope.
Local Open Scope list_scope.

(* ===================================================================== *)
(** * Part I: the program                                                 *)
(* ===================================================================== *)

(** ** Text *)

Module Texto.

Definition codigo (c : ascii) : nat := nat_of_ascii c.

(** Characters removed by [str.strip()]: those for which Python's
    [isspace] holds, among the code points 0..255. *)
Definition es_espacio (c : ascii) : bool :=
  let n := codigo c in
  (((9 <=? n) && (n <=? 13)) || ((28 <=? n) && (n <=? 32))
   || (n =? 133) || (n =? 160))%nat.

Fixpoint lstrip (s : string) : string :=
  match s with
  | EmptyString => EmptyString
  | String c r => if es_espacio c then lstrip r else s
  end.

Fixpoint rstrip (s : string) : string :=
  match s with
  | EmptyString => EmptyString
  | String c r =>
      match rstrip r with
      | EmptyString => if es_espacio c then EmptyString
                       else String c EmptyString
      | r' => String c r'
      end
  end.

(** [s.strip()] *)
Definition strip (s : string) : string := rstrip (lstrip s).

(** Truth value of a [str]: the empty string is falsy. *)
Definition vacio (s : string) : bool :=
  match s with EmptyString => true | _ => false end.

Fixpoint todos (p : ascii -> bool) (s : string) : bool :=
  match s with
  | EmptyString => true
  | String c r => p c && todos p r
  end.

(** [sep.join(parts)] *)
Fixpoint join (sep : string) (parts : list string) : string :=
  match parts with
  | [] => ""
  | [p] => p
  | p :: rest => p ++ sep ++ join sep rest
  end.

(** [str(n)] for an [int]. *)
Definition str_int (n : Z) : string := NilZero.string_of_int (Z.to_int n).

End Texto.
Import Texto.

(** ** Exceptions *)

Inductive ClaseExcepcion : Type :=
| ValueError | RuntimeError | CalledProcessError | OSError
| RequestException | AttributeError | CsvError | OtraExcepcion.

(** An exception of class [Exception]; [mensaje] is what [str(e)] gives. *)
Record Excepcion : Type := Lanzada {
  clase : ClaseExcepcion;
  mensaje : string
}.

Inductive Resultado (A : Type) : Type :=
| Ok (a : A)
| Error (e : Excepcion).
Arguments Ok {A} a.
Arguments Error {A} e.

Definition ligar {A B} (m : Resultado A) (k : A -> Resultado B)
  : Resultado B :=
  match m with
  | Ok a => k a
  | Error e => Error e
  end.

(** [try: m  except Exception as e: h e] *)
Definition capturar {A} (m : Resultado A) (h : Excepcion -> Resultado A)
  : Resultado A :=
  match m with
  | Ok a => Ok a
  | Error e => h e
  end.

Declare Scope res_scope.
Delimit Scope res_scope with res.
Notation "x <- m ;; k" := (ligar m (fun x => k))
  (at level 61, m at next level, right associativity) : res_scope.
Notation "m ;;; k" := (ligar m (fun _ => k))
  (at level 61, right associativity) : res_scope.

(** ** Source entries and the source validator ([check_sources.py]) *)

Record Fuente : Type := MkFuente {
  source : string;
  valid : bool
}.

(** [fuente["valid"] = b] *)
Definition set_valid (b : bool) (fuente : Fuente) : Fuente :=
  {| source := source fuente; valid := b |}.

Section Validador.

(** [is_valid_source]: runs ffprobe on the URL; [True] iff it exits
    with status zero, [False] on any failure to run it. *)
Variable is_valid_source : string -> bool.

(** The loop [for fuente in sources] of [check_sources], from the state
    [valid_found]. *)
Fixpoint marcar_fuentes (valid_found : bool) (sources : list Fuente)
  : list Fuente :=
  match sources with
  | [] => []
  | fuente :: resto =>
      if valid_found then
        set_valid false fuente :: marcar_fuentes valid_found resto
      else
        let source_url := strip (source fuente) in
        if vacio source_url then
          set_valid false fuente :: marcar_fuentes valid_found resto
        else if is_valid_source source_url then
          set_valid true fuente :: marcar_fuentes true resto
        else
          set_valid false fuente :: marcar_fuentes valid_found resto
  end.

(** The body of [for evento in eventos] seen from the sources of one
    event: an event without sources is skipped. *)
Definition revisar_fuentes (sources : list Fuente) : list Fuente :=
  match sources with
  | [] => sources
  | _ => marcar_fuentes false sources
  end.

(** Outcome of the probe step for one entry taken on its own: the URL
    is stripped, probed when it is not empty. *)
Definition sonda (fuente : Fuente) : bool :=
  let source_url := strip (source fuente) in
  if vacio source_url then false else is_valid_source source_url.

End Validador.

(** ** JSON text of a sources list ([json.dumps], [json.loads]) *)

Module Json.

Definition comilla : ascii := "034"%char.
Definition barra : ascii := "092"%char.

Definition hex_digito (n : nat) : ascii :=
  if (n <? 10)%nat then ascii_of_nat (48 + n) else ascii_of_nat (87 + n).

(** [c] written as the escape [\u00xx]. *)
Definition escape_u (c : ascii) : string :=
  let n := codigo c in
  String barra (String "u" (String "0" (String "0"
    (String (hex_digito (n / 16)) (String (hex_digito (n mod 16)) ""))))).

(** One character of a string literal as [json.dumps] writes it
    ([ensure_ascii=True]): short escapes for quote, backslash and five
    control characters, the character itself from space to tilde, and
    a [\u] escape for everything else. *)
Definition escapar_car (c : ascii) : string :=
  let n := codigo c in
  if (n =? 34)%nat then String barra (String comilla "")
  else if (n =? 92)%nat then String barra (String barra "")
  else if (n =? 10)%nat then String barra "n"
  else if (n =? 13)%nat then String barra "r"
  else if (n =? 9)%nat then String barra "t"
  else if (n =? 8)%nat then String barra "b"
  else if (n =? 12)%nat then String barra "f"
  else if ((32 <=? n) && (n <=? 126))%nat then String c ""
  else escape_u c.

Fixpoint escapar (s : string) : string :=
  match s with
  | EmptyString => EmptyString
  | String c r => escapar_car c ++ escapar r
  end.

Definition literal (s : string) : string :=
  String comilla (escapar s ++ String comilla "").

(** [json.dumps] of one entry: [{"source": "...", "valid": false}]. *)
Definition dumps_fuente (f : Fuente) : string :=
  "{" ++ literal "source" ++ ": " ++ literal (source f) ++ ", "
      ++ literal "valid" ++ ": " ++ (if valid f then "true" else "false")
      ++ "}".

Fixpoint dumps_resto (l : list Fuente) : string :=
  match l with
  | [] => "]"
  | f :: r => ", " ++ dumps_fuente f ++ dumps_resto r
  end.

(** [json.dumps(sources)] *)
Definition json_dumps (l : list Fuente) : string :=
  match l with
  | [] => "[]"
  | f :: r => "[" ++ dumps_fuente f ++ dumps_resto r
  end.

(** Decoding. The decoder reads the JSON texts this program writes in
    the [sources] column, arrays of objects with the members [source]
    (a string) and [valid] (a boolean) in that order, with JSON's
    optional blanks between tokens and all of its string escapes; any
    other text is reported as not decodable ([None]), which the callers
    treat as [json.JSONDecodeError]. Escapes above code point 255 are
    outside the model's alphabet and are reported the same way. *)

Definition es_blanco (c : ascii) : bool :=
  let n := codigo c in
  ((n =? 32) || (n =? 9) || (n =? 10) || (n =? 13))%nat.

Fixpoint saltar_blancos (s : string) : string :=
  match s with
  | EmptyString => EmptyString
  | String c r => if es_blanco c then saltar_blancos r else s
  end.

Definition valor_hex (c : ascii) : option nat :=
  let n := codigo c in
  if ((48 <=? n) && (n <=? 57))%nat then Some (n - 48)
  else if ((97 <=? n) && (n <=? 102))%nat then Some (n - 87)
  else if ((65 <=? n) && (n <=? 70))%nat then Some (n - 55)
  else None.

Definition hex4 (a b c d : ascii) : option nat :=
  match valor_hex a, valor_hex b, valor_hex c, valor_hex d with
  | Some x, Some y, Some z, Some w => Some (((x * 16 + y) * 16 + z) * 16 + w)
  | _, _, _, _ => None
  end.

Definition escape_simple (e : ascii) : option ascii :=
  let n := codigo e in
  if (n =? 34)%nat then Some comilla
  else if (n =? 92)%nat then Some barra
  else if (n =? 47)%nat then Some "/"%char
  else if (n =? 98)%nat then Some (ascii_of_nat 8)
  else if (n =? 102)%nat then Some (ascii_of_nat 12)
  else if (n =? 110)%nat then Some (ascii_of_nat 10)
  else if (n =? 114)%nat then Some (ascii_of_nat 13)
  else if (n =? 116)%nat then Some (ascii_of_nat 9)
  else None.

Definition anteponer (c : ascii) (r : option (string * string))
  : option (string * string) :=
  match r with
  | Some (t, resto) => Some (String c t, resto)
  | None => None
  end.

(** The characters of a string literal after its opening quote, up to
    the closing quote; the text after it is returned too. *)
Fixpoint leer_cadena (s : string) : option (string * string) :=
  match s with
  | EmptyString => None
  | String c r =>
      if Ascii.eqb c comilla then Some (EmptyString, r)
      else if Ascii.eqb c barra then
        match r with
        | EmptyString => None
        | String e r1 =>
            match escape_simple e with
            | Some d => anteponer d (leer_cadena r1)
            | None =>
                if Ascii.eqb e "u" then
                  match r1 with
                  | String h1 (String h2 (String h3 (String h4 r2))) =>
                      match hex4 h1 h2 h3 h4 with
                      | Some n =>
                          if (n <? 256)%nat
                          then anteponer (ascii_of_nat n) (leer_cadena r2)
                          else None
                      | None => None
                      end
                  | _ => None
                  end
                else None
            end
        end
      else if (codigo c <? 32)%nat then None
      else anteponer c (leer_cadena r)
  end.

Definition esperar (c : ascii) (s : string) : option string :=
  match saltar_blancos s with
  | String d r => if Ascii.eqb d c then Some r else None
  | EmptyString => None
  end.

Definition leer_literal (s : string) : option (string * string) :=
  match saltar_blancos s with
  | String d r => if Ascii.eqb d comilla then leer_cadena r else None
  | EmptyString => None
  end.

Definition leer_bool (s : string) : option (bool * string) :=
  match saltar_blancos s with
  | String "t" (String "r" (String "u" (String "e" r))) => Some (true, r)
  | String "f" (String "a" (String "l" (String "s" (String "e" r)))) =>
      Some (false, r)
  | _ => None
  end.

Definition leer_miembro (clave : string) (s : string) : option string :=
  match leer_literal s with
  | Some (k, r) => if String.eqb k clave then esperar ":" r else None
  | None => None
  end.

Definition leer_fuente (s : string) : option (Fuente * string) :=
  match esperar "{" s with
  | None => None
  | Some s1 =>
  match leer_miembro "source" s1 with
  | None => None
  | Some s2 =>
  match leer_literal s2 with
  | None => None
  | Some (url, s3) =>
  match esperar "," s3 with
  | None => None
  | Some s4 =>
  match leer_miembro "valid" s4 with
  | None => None
  | Some s5 =>
  match leer_bool s5 with
  | None => None
  | Some (b, s6) =>
  match esperar "}" s6 with
  | None => None
  | Some s7 => Some ({| source := url; valid := b |}, s7)
  end end end end end end end.

(** Entries separated by commas up to the closing bracket; [n] bounds
    the number of entries read. *)
Fixpoint leer_elementos (n : nat) (s : string)
  : option (list Fuente * string) :=
  match n with
  | O => None
  | S n' =>
      match leer_fuente s with
      | None => None
      | Some (f, r) =>
          match saltar_blancos r with
          | String d r' =>
              if Ascii.eqb d "," then
                match leer_elementos n' r' with
                | Some (l, r'') => Some (f :: l, r'')
                | None => None
                end
              else if Ascii.eqb d "]" then Some ([f], r')
              else None
          | EmptyString => None
          end
      end
  end.

Definition fin_de_texto {A} (r : option (A * string)) : option A :=
  match r with
  | Some (a, resto) => if vacio (saltar_blancos resto) then Some a else None
  | None => None
  end.

(** [json.loads(text)]; [None] stands for [json.JSONDecodeError]. An
    entry takes at least one character, so the length of the text bounds
    the number of entries. *)
Definition json_loads (text : string) : option (list Fuente) :=
  match esperar "[" text with
  | None => None
  | Some s1 =>
      match saltar_blancos s1 with
      | String d r =>
          if Ascii.eqb d "]" then fin_de_texto (Some ([], r))
          else fin_de_texto (leer_elementos (S (String.length s1)) s1)
      | EmptyString => None
      end
  end.

End Json.
Import Json.

(** ** Event configuration and its validation ([EventoConfig]) *)

Record EventoConfig : Type := MkConfig {
  nombre : string;
  titulo : string;
  puerto : Z;
  tracker : string;
  sources : list Fuente;
  host : string;
  bitrate : Z;
  token : string;
  content_id : string;
  docker_active : string
}.

Module Patron.

Definition entre (a b : nat) (c : ascii) : bool :=
  ((a <=? codigo c) && (codigo c <=? b))%nat.

(** [[a-zA-Z0-9]] *)
Definition es_alnum (c : ascii) : bool :=
  entre 97 122 c || entre 65 90 c || entre 48 57 c.

(** [[a-zA-Z0-9-]] *)
Definition es_alnum_guion (c : ascii) : bool :=
  es_alnum c || (codigo c =? 45)%nat.

(** [[a-zA-Z0-9_-]] *)
Definition es_car_nombre (c : ascii) : bool :=
  es_alnum_guion c || (codigo c =? 95)%nat.

(** The text a pattern ending in [$] has to match in full: [$] matches
    at the end of the string and also just before a newline that ends
    it. *)
Fixpoint sin_salto_final (s : string) : string :=
  match s with
  | EmptyString => EmptyString
  | String c EmptyString =>
      if (codigo c =? 10)%nat then EmptyString else s
  | String c r => String c (sin_salto_final r)
  end.

(** [re.match(r'^[a-zA-Z0-9_-]+$', s)] *)
Definition coincide_nombre (s : string) : bool :=
  let cuerpo := sin_salto_final s in
  negb (vacio cuerpo) && todos es_car_nombre cuerpo.

(** The pieces of [s] between the separators [sep]. *)
Fixpoint partir (sep : ascii) (s : string) : list string :=
  match s with
  | EmptyString => [EmptyString]
  | String c r =>
      if Ascii.eqb c sep then EmptyString :: partir sep r
      else match partir sep r with
           | p :: ps => String c p :: ps
           | [] => [String c EmptyString]
           end
  end.

Fixpoint ultimo (s : string) : option ascii :=
  match s with
  | EmptyString => None
  | String c EmptyString => Some c
  | String _ r => ultimo r
  end.

(** [[a-zA-Z0-9]([a-zA-Z0-9-]{0,61}[a-zA-Z0-9])?] *)
Definition coincide_etiqueta (l : string) : bool :=
  match l, ultimo l with
  | String c _, Some d =>
      es_alnum c && es_alnum d && todos es_alnum_guion l
      && (String.length l <=? 63)%nat
  | _, _ => false
  end.

(** [re.match] of the domain pattern: labels separated by dots. *)
Definition coincide_dominio (s : string) : bool :=
  forallb coincide_etiqueta (partir "." (sin_salto_final s)).

End Patron.

Definition msg_nombre : string :=
  "Nombre inválido: use solo letras, números, guiones y guiones bajos".
Definition msg_puerto : string :=
  "Puerto inválido: debe estar entre 1024 y 65535".
Definition msg_host : string :=
  "Host inválido: debe ser una IP válida o un nombre de dominio".
Definition msg_bitrate : string := "Bitrate inválido".
Definition msg_titulo : string := "El título no puede estar vacío".
Definition msg_fuentes : string := "Debe ingresar al menos una fuente".

(** [errores.append(msg)] under [if cond]. *)
Definition si (cond : bool) (msg : string) : list string :=
  if cond then [msg] else [].

Section Validacion.

(** [ipaddress.ip_address(ip)] of Python's library: [true] when it
    accepts the text, [false] when it raises [ValueError]. *)
Variable ip_address : string -> bool.

Definition _es_ip_valida (ip : string) : bool := ip_address ip.

Definition _es_dominio_valido (dominio : string) : bool :=
  Patron.coincide_dominio dominio.

Definition regla_nombre (self : EventoConfig) : bool :=
  vacio (nombre self) || negb (Patron.coincide_nombre (nombre self)).

Definition regla_puerto (self : EventoConfig) : bool :=
  negb ((1024 <=? puerto self)%Z && (puerto self <=? 65535)%Z).

Definition regla_host (self : EventoConfig) : bool :=
  negb (_es_ip_valida (host self)) && negb (_es_dominio_valido (host self)).

Definition regla_bitrate (self : EventoConfig) : bool :=
  negb ((0 <=? bitrate self)%Z && (bitrate self <=? 10000000)%Z).

Definition regla_titulo (self : EventoConfig) : bool :=
  vacio (strip (titulo self)).

Definition regla_fuentes (self : EventoConfig) : bool :=
  match sources self with
  | [] => true
  | l => forallb (fun s => vacio (strip (source s))) l
  end.

(** [EventoConfig.validar]: the six [if] statements in order, each
    appending its message. *)
Definition validar (self : EventoConfig) : list string :=
  si (regla_nombre self) msg_nombre
  ++ si (regla_puerto self) msg_puerto
  ++ si (regla_host self) msg_host
  ++ si (regla_bitrate self) msg_bitrate
  ++ si (regla_titulo self) msg_titulo
  ++ si (regla_fuentes self) msg_fuentes.

End Validacion.

(** ** The event store ([EventoManager], file [eventos.csv])

    The file is read and written through Python's [csv] module, which is
    modelled at the level of rows: the content of the file is the list
    of its data rows, each with the ten columns of the header
    [cabeceras]. Reading and writing the file itself are taken to
    succeed. *)

Record Registro (S : Type) : Type := MkRegistro {
  k_name : string;
  k_title : string;
  k_port : string;
  k_service_access_token : string;
  k_tracker : string;
  k_sources : S;
  k_host : string;
  k_bitrate : string;
  k_content_id : string;
  k_docker_active : string
}.
Arguments MkRegistro {S}.
Arguments k_name {S}.
Arguments k_title {S}.
Arguments k_port {S}.
Arguments k_service_access_token {S}.
Arguments k_tracker {S}.
Arguments k_sources {S}.
Arguments k_host {S}.
Arguments k_bitrate {S}.
Arguments k_content_id {S}.
Arguments k_docker_active {S}.

(** A row of the file: the [sources] column holds JSON text. *)
Definition Fila : Type := Registro string.

Definition Archivo : Type := list Fila.

(** A row dict as [listar_eventos] returns it: the key ["sources"]
    holds the decoded list. *)
Definition Evento : Type := Registro (list Fuente).

(** What the key ["sources"] of a row dict holds when the rows are
    written back: the list that was read, or text when
    [actualizar_evento] has stored [json.dumps(...)] in it. *)
Inductive ValorSources : Type :=
| Lista (l : list Fuente)
| Texto (s : string).

Definition con_sources {S T} (r : Registro S) (v : T) : Registro T :=
  MkRegistro (k_name r) (k_title r) (k_port r) (k_service_access_token r)
    (k_tracker r) v (k_host r) (k_bitrate r) (k_content_id r)
    (k_docker_active r).

(** The [sources] column decoded as [listar_eventos] and
    [check_sources] do: empty text and text that does not decode give
    the empty list. *)
Definition decodificar_sources (texto : string) : list Fuente :=
  if vacio texto then []
  else match json_loads texto with
       | Some l => l
       | None => []
       end.

(** [listar_eventos] on the rows the csv reader gives: each with its
    [sources] decoded. What the reader itself does with a field over its
    limit is in [leer_csv] and [listar_eventos_csv] below. *)
Definition listar_eventos (archivo : Archivo) : list Evento :=
  map (fun row => con_sources row (decodificar_sources (k_sources row)))
      archivo.

Definition fila_de_config (config : EventoConfig) : Fila :=
  MkRegistro (nombre config) (titulo config) (str_int (puerto config))
    (token config) (tracker config) (json_dumps (sources config))
    (host config) (str_int (bitrate config)) (content_id config)
    (docker_active config).

(** [agregar_evento]: one row appended to the file. *)
Definition agregar_evento (archivo : Archivo) (config : EventoConfig)
  : Archivo :=
  archivo ++ [fila_de_config config].

(** The rows read by [listar_eventos], as the update functions hold
    them before changing one. *)
Definition eventos_leidos (archivo : Archivo) : list (Registro ValorSources) :=
  map (fun evento => con_sources evento (Lista (k_sources evento)))
      (listar_eventos archivo).

(** [_escribir_eventos]: a [sources] value that is a list is encoded,
    text is written as it is. *)
Definition _escribir_eventos (eventos : list (Registro ValorSources))
  : Archivo :=
  map (fun evento =>
         con_sources evento
           (match k_sources evento with
            | Lista l => json_dumps l
            | Texto s => s
            end))
      eventos.

(** [for evento in eventos: if evento["name"] == n: f(evento); break]:
    the first row named [n] is changed by [f]; the flag tells whether
    there was one. *)
Fixpoint modificar_primero {S} (n : string) (f : Registro S -> Registro S)
  (eventos : list (Registro S)) : list (Registro S) * bool :=
  match eventos with
  | [] => ([], false)
  | evento :: resto =>
      if String.eqb (k_name evento) n then (f evento :: resto, true)
      else let '(resto', updated) := modificar_primero n f resto in
           (evento :: resto', updated)
  end.

Definition evento_de_config (config : EventoConfig)
  (evento : Registro ValorSources) : Registro ValorSources :=
  MkRegistro (k_name evento) (titulo config) (str_int (puerto config))
    (token config) (tracker config) (Texto (json_dumps (sources config)))
    (host config) (str_int (bitrate config)) (content_id config)
    (docker_active config).

Definition actualizar_evento (archivo : Archivo) (config : EventoConfig)
  : Resultado Archivo :=
  let eventos := eventos_leidos archivo in
  let '(eventos', updated) :=
    modificar_primero (nombre config) (evento_de_config config) eventos in
  if updated then Ok (_escribir_eventos eventos')
  else Error (Lanzada ValueError "Evento no encontrado para actualizar").

Definition eliminar_evento (archivo : Archivo) (n : string) : Archivo :=
  _escribir_eventos
    (filter (fun evento => negb (String.eqb (k_name evento) n))
            (eventos_leidos archivo)).

Definition con_content_id {S} (c : string) (evento : Registro S)
  : Registro S :=
  MkRegistro (k_name evento) (k_title evento) (k_port evento)
    (k_service_access_token evento) (k_tracker evento) (k_sources evento)
    (k_host evento) (k_bitrate evento) c (k_docker_active evento).

Definition con_docker_active {S} (a : string) (evento : Registro S)
  : Registro S :=
  MkRegistro (k_name evento) (k_title evento) (k_port evento)
    (k_service_access_token evento) (k_tracker evento) (k_sources evento)
    (k_host evento) (k_bitrate evento) (k_content_id evento) a.

Definition _actualizar_content_id (archivo : Archivo) (n c : string)
  : Resultado Archivo :=
  let eventos := eventos_leidos archivo in
  let '(eventos', _) := modificar_primero n (con_content_id c) eventos in
  Ok (_escribir_eventos eventos').

Definition _actualizar_docker_active (archivo : Archivo) (n : string)
  (active : bool) : Resultado Archivo :=
  let eventos := eventos_leidos archivo in
  let '(eventos', _) :=
    modificar_primero n
      (con_docker_active (if active then "True" else "False")) eventos in
  Ok (_escribir_eventos eventos').

(** ** The field limit of the csv reader *)

(** [csv.field_size_limit()] is 131072: the reader raises [_csv.Error]
    on a field of more characters, the writer writes any field. *)
Definition limite_campo : N := 131072.

(** [s] has at most [n] characters. *)
Fixpoint cabe (s : string) (n : N) : bool :=
  match s with
  | EmptyString => true
  | String _ r => if (n =? 0)%N then false else cabe r (N.pred n)
  end.

Definition campo_en_limite (campo : string) : bool := cabe campo limite_campo.

(** The ten fields of a row, in the order of the header. *)
Definition campos (row : Fila) : list string :=
  [ k_name row; k_title row; k_port row; k_service_access_token row;
    k_tracker row; k_sources row; k_host row; k_bitrate row;
    k_content_id row; k_docker_active row ].

Definition fila_en_limite (row : Fila) : bool :=
  forallb campo_en_limite (campos row).

(** Every field of the file is within the reader's limit. *)
Definition en_limite (archivo : Archivo) : bool :=
  forallb fila_en_limite archivo.

(** Every field of the row [agregar_evento] writes for [config] is. *)
Definition config_en_limite (config : EventoConfig) : bool :=
  fila_en_limite (fila_de_config config).

Definition campo_demasiado_largo : Excepcion :=
  Lanzada CsvError "field larger than field limit (131072)".

(** [for row in csv.DictReader(file)] to the end of the file: the rows,
    or the reader's exception. *)
Definition leer_csv (archivo : Archivo) : Resultado Archivo :=
  if en_limite archivo then Ok archivo else Error campo_demasiado_largo.

(** [listar_eventos] with the reader's limit: the exception of the
    reader is not caught. *)
Definition listar_eventos_csv (archivo : Archivo)
  : Resultado (list Evento) :=
  (filas <- leer_csv archivo ;; Ok (listar_eventos filas))%res.

(** ** The whole of [check_sources] on the file *)

Section ValidadorArchivo.

Variable is_valid_source : string -> bool.

Definition revisar_evento (row : Fila) : Fila :=
  let sources := decodificar_sources (k_sources row) in
  con_sources row (json_dumps (revisar_fuentes is_valid_source sources)).

(** [check_sources] on a file whose rows have the ten fields of the
    header, each within the reader's limit; the file as csv splits it,
    with rows of any number of fields, is in [check_sources_csv] below.
    [None] is a file that does not exist: [check_sources] logs and
    returns without writing. *)
Definition check_sources (csv : option Archivo) : option Archivo :=
  match csv with
  | None => None
  | Some archivo => Some (map revisar_evento archivo)
  end.

End ValidadorArchivo.

(** ** [check_sources] on the file as csv splits it *)

(** A data row of the file as the reader splits it: any number of
    fields. The header row is taken to be [CABECERAS]. *)
Definition FilaCsv : Type := list string.

Definition ArchivoCsv : Type := list FilaCsv.

(** The dict [csv.DictReader] makes of a row: the ten columns of the
    header, and under the key [None] the fields beyond the tenth. A
    column the row is too short for is [None], which [check_sources]
    treats as the empty text ([row.get("sources")] is falsy) and the
    writer writes as the empty text. *)
Definition dict_de_fila (fila : FilaCsv) : Fila * list string :=
  (MkRegistro (nth 0 fila "") (nth 1 fila "") (nth 2 fila "")
     (nth 3 fila "") (nth 4 fila "") (nth 5 fila "") (nth 6 fila "")
     (nth 7 fila "") (nth 8 fila "") (nth 9 fila ""),
   skipn 10 fila).

(** The record of a row. *)
Definition registro (fila : FilaCsv) : Fila := fst (dict_de_fila fila).

(** [csv.DictReader] skips the rows without fields (blank lines). *)
Definition sin_campos (fila : FilaCsv) : bool :=
  match fila with
  | [] => true
  | _ :: _ => false
  end.

(** [DictWriter.writerow] on a dict with a key that is not a field
    name ([extrasaction] is [raise]). *)
Definition campos_sobrantes : Excepcion :=
  Lanzada ValueError "dict contains fields not in fieldnames: None".

(** [for evento in eventos: writer.writerow(evento)] on the file just
    emptied: the rows written, up to the first dict that has the key
    [None], on which [writerow] raises. *)
Fixpoint escribir_dicts (eventos : list (Fila * list string))
  : Resultado unit * ArchivoCsv :=
  match eventos with
  | [] => (Ok tt, [])
  | (evento, sobrantes) :: resto =>
      match sobrantes with
      | [] =>
          let '(r, escritas) := escribir_dicts resto in
          (r, campos evento :: escritas)
      | _ :: _ => (Error campos_sobrantes, [])
      end
  end.

Section ValidadorCsv.

Variable is_valid_source : string -> bool.

(** [check_sources] from the file to the file: what it raises, if
    anything, and the file afterwards ([None]: there is no file). The
    reader's exception comes before the file is opened for writing;
    that of the writer after it was emptied, and leaves the rows
    written before it. *)
Definition check_sources_csv (csv : option ArchivoCsv)
  : Resultado unit * option ArchivoCsv :=
  match csv with
  | None => (Ok tt, None)
  | Some filas =>
      if forallb (forallb campo_en_limite) filas then
        let eventos :=
          map dict_de_fila (filter (fun f => negb (sin_campos f)) filas) in
        let revisados :=
          map (fun d => (revisar_evento is_valid_source (fst d), snd d))
              eventos in
        let '(r, escritas) := escribir_dicts revisados in
        (r, Some escritas)
      else (Error campo_demasiado_largo, Some filas)
  end.

End ValidadorCsv.

(** ** The command builder ([_construir_comando_docker]) *)

(** [for fuente in config.sources: if fuente.get("valid") == True:
    valid_source = fuente.get("source"); break]; [None] is Python's
    [None]. *)
Fixpoint primera_valida (l : list Fuente) : option string :=
  match l with
  | [] => None
  | fuente :: resto =>
      if valid fuente then Some (source fuente) else primera_valida resto
  end.

Definition mapeo_puerto (p : Z) (proto : string) : string :=
  str_int p ++ ":" ++ str_int p ++ "/" ++ proto.

Definition comando_docker (config : EventoConfig) (valid_source : string)
  : list string :=
  [ "docker"; "run"; "-d"; "--restart"; "unless-stopped";
    "--name"; nombre config;
    "-p"; mapeo_puerto (puerto config) "tcp";
    "-p"; mapeo_puerto (puerto config) "udp";
    "-v"; ("acestreamengine_" ++ nombre config ++ ":/data")%string;
    "lob666/acestreamengine";
    "--port"; str_int (puerto config);
    "--tracker"; tracker config;
    "--stream-source";
    "--name"; nombre config;
    "--title"; titulo config;
    "--publish-dir"; "/data";
    "--cache-dir"; "/data";
    "--skip-internal-tracker";
    "--quality"; "HD";
    "--category"; "amateur";
    "--service-access-token"; token config;
    "--service-remote-access";
    "--log-debug"; "1";
    "--max-peers"; "6";
    "--max-upload-slots"; "6";
    "--source-read-timeout"; "15";
    "--source-reconnect-interval"; "1";
    "--host"; host config;
    "--source"; valid_source;
    "--bitrate"; str_int (bitrate config) ].

Definition sin_fuente_valida : Excepcion :=
  Lanzada ValueError "No se encontró una fuente válida para el evento".

(** [if not valid_source: raise ValueError(...)]: [None] and the empty
    string are both falsy. *)
Definition _construir_comando_docker (config : EventoConfig)
  : Resultado (list string) :=
  match primera_valida (sources config) with
  | None => Error sin_fuente_valida
  | Some valid_source =>
      if vacio valid_source then Error sin_fuente_valida
      else Ok (comando_docker config valid_source)
  end.

(** ** The readiness poller ([obtener_monitor]) *)

(** The body of a response with status 200, as [response.json()] sees
    it: text that is not JSON ([ValueError]); a JSON object, of which
    the poller reads the members [content_id] and [download_hash], each
    a string or absent ([null] reads as absent); or the JSON text of a
    value that is not an object, of which [tipo] is the name of the
    Python type [response.json()] gives it ([list], [str], [int],
    [float], [bool], [NoneType]). *)
Inductive Cuerpo : Type :=
| NoJson
| Objeto (content_id download_hash : option string)
| OtroJson (tipo : string).

(** One call of [requests.get]: a [RequestException], or a response. *)
Inductive Respuesta : Type :=
| FalloTransporte (e : string)
| Http (status_code : Z) (cuerpo : Cuerpo).

Record Monitor : Type := MkMonitor {
  m_content_id : string;
  m_download_hash : option string
}.

Inductive Efecto : Type :=
| Dormir (segundos : Z)
| Get (url : string).

(** [monitor_data.get(...)] on a value that is not a [dict]: the
    [AttributeError] that neither [except] clause of the loop catches. *)
Definition sin_get (tipo : string) : Excepcion :=
  Lanzada AttributeError ("'" ++ tipo ++ "' object has no attribute 'get'").

(** What one attempt finds: [Ok (Some _)] is the [return] inside the
    loop, [Ok None] each of the paths that log a warning and go on,
    [Error] the exception that leaves the loop. *)
Definition identidad (r : Respuesta) : Resultado (option Monitor) :=
  match r with
  | FalloTransporte _ => Ok None
  | Http status_code cuerpo =>
      if (status_code =? 200)%Z then
        match cuerpo with
        | NoJson => Ok None
        | Objeto (Some c) download_hash =>
            if negb (vacio c) && negb (String.eqb c "No encontrado")
            then Ok (Some {| m_content_id := c;
                             m_download_hash := download_hash |})
            else Ok None
        | Objeto None _ => Ok None
        | OtroJson tipo => Error (sin_get tipo)
        end
      else Ok None
  end.

Definition sin_monitor : Excepcion :=
  Lanzada RuntimeError
    "No se pudo obtener el monitor después de varios intentos".

Section Sondeo.

(** The endpoint: the response to the call number [n], counted from 0. *)
Variable endpoint : nat -> Respuesta.

(** [for intento in range(intentos)] from attempt [intento] with
    [restantes] attempts left; the effects are listed in order. *)
Fixpoint sondear (url : string) (restantes intento : nat)
  : Resultado Monitor * list Efecto :=
  match restantes with
  | O => (Error sin_monitor, [])
  | S r =>
      match identidad (endpoint intento) with
      | Ok (Some m) => (Ok m, [Get url])
      | Ok None =>
          let '(res, efectos) := sondear url r (S intento) in
          (res, Get url :: Dormir 5 :: efectos)
      | Error e => (Error e, [Get url])
      end
  end.

Definition url_monitor (puerto : Z) : string :=
  "http://localhost:" ++ str_int puerto ++ "/app/" ++ str_int puerto
  ++ "/monitor".

(** [range(intentos)] has [max(0, intentos)] elements. *)
Definition obtener_monitor (contenedor_id : string) (puerto : Z)
  (intentos : Z) : Resultado Monitor * list Efecto :=
  let '(res, efectos) :=
    sondear (url_monitor puerto) (Z.to_nat intentos) 0 in
  (res, Dormir 15 :: efectos).

End Sondeo.

(** Number of HTTP calls among the effects. *)
Fixpoint llamadas (efectos : list Efecto) : nat :=
  match efectos with
  | [] => 0
  | Get _ :: r => S (llamadas r)
  | Dormir _ :: r => llamadas r
  end.

(** ** Volume cleanup ([limpiar_archivos_temporales]) *)

Inductive Plataforma : Type :=
| Windows
| Linux
| OtraPlataforma (sistema : string).

(** One entry of the volume directory: its file name, what [is_file()]
    answers and what [unlink()] does when it is called. *)
Record Entrada : Type := MkEntrada {
  e_nombre : string;
  e_is_file : Resultado bool;
  e_unlink : Resultado unit
}.

(** The host as the cleanup sees it: [platform.system()], and for each
    path what [exists()] and [iterdir()] give. *)
Record SistemaArchivos : Type := MkSistema {
  plataforma : Plataforma;
  existe : string -> Resultado bool;
  iterdir : string -> Resultado (list Entrada)
}.

Fixpoint desde_ultimo_punto (s : string) : option string :=
  match s with
  | EmptyString => None
  | String c r =>
      match desde_ultimo_punto r with
      | Some suf => Some suf
      | None => if Ascii.eqb c "." then Some s else None
      end
  end.

(** [Path.suffix] of a file name: the text from its last dot, when that
    dot is neither the first nor the last character of the name. *)
Definition sufijo (name : string) : string :=
  match name with
  | EmptyString => EmptyString
  | String _ r =>
      match desde_ultimo_punto r with
      | Some suf => if (String.length suf <=? 1)%nat then EmptyString else suf
      | None => EmptyString
      end
  end.

Definition extensiones_permitidas : list string := [".acelive"; ".sauth"].

Definition permitida (ext : string) : bool :=
  existsb (String.eqb ext) extensiones_permitidas.

Definition ruta_base (p : Plataforma) (nombre_volumen : string)
  : option string :=
  match p with
  | Windows =>
      Some ("\\wsl.localhost\docker-desktop\mnt\docker-desktop-disk\data\docker\volumes\"
            ++ nombre_volumen ++ "\_data")%string
  | Linux =>
      Some ("/var/lib/docker/volumes/" ++ nombre_volumen ++ "/_data")%string
  | OtraPlataforma _ => None
  end.

(** [for archivo in ruta_base.iterdir()]: the count of deleted files and
    the names deleted so far, in order. A failed [unlink] is logged and
    the loop goes on; a failing [is_file] leaves the loop. *)
Fixpoint borrar_archivos (entradas : list Entrada) (archivos_eliminados : nat)
  (borrados : list string) : Resultado nat * list string :=
  match entradas with
  | [] => (Ok archivos_eliminados, borrados)
  | archivo :: resto =>
      match e_is_file archivo with
      | Error e => (Error e, borrados)
      | Ok false => borrar_archivos resto archivos_eliminados borrados
      | Ok true =>
          if permitida (sufijo (e_nombre archivo))
          then borrar_archivos resto archivos_eliminados borrados
          else match e_unlink archivo with
               | Ok _ =>
                   borrar_archivos resto (S archivos_eliminados)
                     (borrados ++ [e_nombre archivo])
               | Error _ =>
                   borrar_archivos resto archivos_eliminados borrados
               end
      end
  end.

(** The body of the outer [try]. *)
Definition limpiar_cuerpo (fs : SistemaArchivos) (nombre_volumen : string)
  : Resultado nat * list string :=
  match ruta_base (plataforma fs) nombre_volumen with
  | None => (Ok 0, [])
  | Some ruta =>
      match existe fs ruta with
      | Error e => (Error e, [])
      | Ok false => (Ok 0, [])
      | Ok true =>
          match iterdir fs ruta with
          | Error e => (Error e, [])
          | Ok entradas => borrar_archivos entradas 0 []
          end
      end
  end.

(** [limpiar_archivos_temporales]: the count returned, and the names of
    the files deleted. [except Exception: return 0]. *)
Definition limpiar_archivos_temporales (fs : SistemaArchivos)
  (nombre_volumen : string) : Resultado nat * list string :=
  let '(r, borrados) := limpiar_cuerpo fs nombre_volumen in
  (capturar r (fun _ => Ok 0), borrados).

(** ** The orchestrator ([iniciar_docker_evento]) *)

(** One run of the docker client through [subprocess.run(...,
    check=True, capture_output=True, text=True)]. *)
Inductive Proceso : Type :=
| Exito (stdout : string)
| CodigoNoCero (texto stderr : string)
| NoEjecutado (texto : string).

(** The exception [subprocess.run] raises, if any: [CalledProcessError]
    on a non-zero exit status ([texto] is its [str]), another exception
    when the program cannot be run. *)
Definition run_check (p : Proceso) : Resultado string :=
  match p with
  | Exito stdout => Ok stdout
  | CodigoNoCero texto _ => Error (Lanzada CalledProcessError texto)
  | NoEjecutado texto => Error (Lanzada OSError texto)
  end.

(** A failure of an update of the store on its file: the exception,
    and what the failure leaves in the file. An update reads the file,
    then opens it with mode [w], which empties it, and writes the rows.
    [f_resto] is [None] for a failure before the file was emptied
    (reading it, or opening it for writing), and the rows that reached
    the file for a failure after that. *)
Record FalloStore : Type := MkFalloStore {
  f_excepcion : Excepcion;
  f_resto : option (list (Registro string))
}.

(** Everything outside the program that a start request meets: the
    docker client by argument list, the monitor endpoint by call number,
    the file system, and whether and how the n-th update of the store
    fails on its file. *)
Record Mundo : Type := MkMundo {
  docker : list string -> Proceso;
  monitor : nat -> Respuesta;
  disco : SistemaArchivos;
  fallo_store : nat -> option FalloStore
}.

Section Contenedores.

Variable m : Mundo.

(** [except subprocess.CalledProcessError as e: raise RuntimeError(...)] *)
Definition run_o_runtime (prefijo : string) (argv : list string)
  : Resultado unit :=
  match docker m argv with
  | Exito _ => Ok tt
  | CodigoNoCero _ stderr => Error (Lanzada RuntimeError (prefijo ++ stderr)%string)
  | NoEjecutado texto => Error (Lanzada OSError texto)
  end.

Definition parar_contenedor (contenedor_id : string) : Resultado unit :=
  run_o_runtime "Error al detener contenedor: " ["docker"; "stop"; contenedor_id].

Definition borrar_contenedor (contenedor_id : string) : Resultado unit :=
  run_o_runtime "Error al eliminar contenedor: " ["docker"; "rm"; contenedor_id].

(** Both [except] clauses log and re-raise. *)
Definition verificar_y_limpiar_contenedor (n : string) : Resultado unit :=
  (resultado <- run_check (docker m
      ["docker"; "ps"; "-a"; "--filter"; ("name=^" ++ n ++ "$")%string;
       "--format"; "{{.ID}}"]) ;;
   if vacio (strip resultado) then Ok tt
   else
     let contenedor_id := strip resultado in
     parar_contenedor contenedor_id ;;;
     borrar_contenedor contenedor_id)%res.

End Contenedores.

(** Actions on the store: an action may change the file and may raise. *)
Definition Accion (A : Type) : Type := Archivo -> Resultado A * Archivo.

Definition devolver {A} (a : A) : Accion A := fun s => (Ok a, s).

Definition elevar {A} (r : Resultado A) : Accion A := fun s => (r, s).

Definition luego {A B} (x : Accion A) (k : A -> Accion B) : Accion B :=
  fun s =>
    match x s with
    | (Ok a, s') => k a s'
    | (Error e, s') => (Error e, s')
    end.

(** [try: x  except Exception as e: h e] *)
Definition intentar {A} (x : Accion A) (h : Excepcion -> Accion A) : Accion A :=
  fun s =>
    match x s with
    | (Ok a, s') => (Ok a, s')
    | (Error e, s') => h e s'
    end.

(** The file after the failure [f] of an update of the file [s]. *)
Definition resto_tras (f : FalloStore) (s : Archivo) : Archivo :=
  match f_resto f with
  | Some resto => resto
  | None => s
  end.

(** One update of the store: it fails on the file, which is left as the
    failure leaves it, or does what [op] does; an exception that [op]
    raises by itself comes before anything is written. *)
Definition guardar (fallo : option FalloStore)
  (op : Archivo -> Resultado Archivo) : Accion unit :=
  fun s =>
    match fallo with
    | Some f => (Error (f_excepcion f), resto_tras f s)
    | None =>
        match op s with
        | Ok s' => (Ok tt, s')
        | Error e => (Error e, s)
        end
    end.

Declare Scope accion_scope.
Delimit Scope accion_scope with accion.
Notation "x <- c ;; k" := (luego c (fun x => k))
  (at level 61, c at next level, right associativity) : accion_scope.
Notation "c ;;; k" := (luego c (fun _ => k))
  (at level 61, right associativity) : accion_scope.

(** [repr] of the list of messages of [validar]: none of them holds a
    quote or a backslash, so each is written between single quotes as
    it is. *)
Definition repr_lista (l : list string) : string :=
  ("[" ++ join ", " (map (fun e => "'" ++ e ++ "'") l) ++ "]")%string.

(** The arguments of the [docker ps] that resolves the container id
    after the launch. *)
Definition argv_docker_ps (n : string) : list string :=
  ["docker"; "ps"; "--filter"; ("name=^" ++ n ++ "$")%string;
   "--format"; "{{.ID}}"].

Section Orquestador.

Variable ip_address : string -> bool.
Variable m : Mundo.

(** The body of the [try] of [iniciar_docker_evento]. *)
Definition inicio_cuerpo (config : EventoConfig) : Accion string :=
  let errores := validar ip_address config in
  match errores with
  | _ :: _ =>
      devolver ("Errores de validación: " ++ repr_lista errores)%string
  | [] =>
    (elevar (verificar_y_limpiar_contenedor m (nombre config)) ;;;
     let nombre_volumen := ("acestreamengine_" ++ nombre config)%string in
     archivos_eliminados <-
       elevar (fst (limpiar_archivos_temporales (disco m) nombre_volumen)) ;;
     comando <- elevar (_construir_comando_docker config) ;;
     elevar (run_check (docker m comando)) ;;;
     resultado <- elevar (run_check (docker m
                                      (argv_docker_ps (nombre config)))) ;;
     let contenedor_id := strip resultado in
     info <- elevar (fst (obtener_monitor (monitor m) contenedor_id
                            (puerto config) 10)) ;;
     let content_id := m_content_id info in
     guardar (fallo_store m 0)
       (fun s => _actualizar_content_id s (nombre config) content_id) ;;;
     guardar (fallo_store m 1)
       (fun s => _actualizar_docker_active s (nombre config) true) ;;;
     devolver ("Evento '" ++ nombre config
               ++ "' iniciado correctamente con Content ID: "
               ++ content_id)%string
    )%accion
  end.

Definition mensaje_error (config : EventoConfig) (e : Excepcion) : string :=
  ("Error al iniciar evento " ++ nombre config ++ ": " ++ mensaje e)%string.

(** [iniciar_docker_evento]: [except Exception as e] returns the
    message of the failure. *)
Definition iniciar_docker_evento (config : EventoConfig) : Accion string :=
  intentar (inicio_cuerpo config)
           (fun e => devolver (mensaje_error config e)).

End Orquestador.

(** ** The web handlers that write records ([new_event], [edit_event])
    and the one that reads them back to start ([start_event]) *)

(** The fields of the posted form; [f_sources] is
    [request.form.getlist("sources")]. *)
Record Formulario : Type := MkFormulario {
  f_nombre : string;
  f_titulo : string;
  f_puerto : string;
  f_tracker : string;
  f_token : string;
  f_host : string;
  f_bitrate : string;
  f_sources : list string
}.

Inductive Peticion : Type :=
| MetodoGET
| MetodoPOST (form : Formulario).

(** What a handler answers: a redirect with the messages flashed before
    it, or a rendered template. *)
Inductive RespuestaWeb : Type :=
| Redirige (destino : string) (avisos : list (string * string))
| Plantilla (archivo : string).

(** [s or d] for strings. *)
Definition o_bien (s d : string) : string := if vacio s then d else s.

(** [[{"source": s.strip(), "valid": False} for s in fuentes
      if s.strip() != ""]] *)
Definition fuentes_de_formulario (fuentes : list string) : list Fuente :=
  map (fun s => {| source := strip s; valid := false |})
      (filter (fun s => negb (vacio (strip s))) fuentes).

Section Web.

Variable ip_address : string -> bool.

(** Python's [int(text)]: [None] when it raises [ValueError]. *)
Variable int_de_texto : string -> option Z.

Definition int_ (texto : string) : Resultado Z :=
  match int_de_texto texto with
  | Some n => Ok n
  | None => Error (Lanzada ValueError "invalid literal for int()")
  end.

(** [int(campo.strip() or d)] *)
Definition int_o (campo : string) (d : Z) : Resultado Z :=
  if vacio (strip campo) then Ok d else int_ (strip campo).

Definition config_de_formulario (n : string) (form : Formulario)
  (c a : string) : Resultado EventoConfig :=
  (p <- int_o (f_puerto form) 8642 ;;
   b <- int_o (f_bitrate form) 697587 ;;
   Ok {| nombre := n;
         titulo := strip (f_titulo form);
         puerto := p;
         tracker := o_bien (strip (f_tracker form))
                      "udp://tracker.opentrackr.org:1337/announce";
         sources := fuentes_de_formulario (f_sources form);
         host := strip (f_host form);
         bitrate := b;
         token := o_bien (strip (f_token form)) "12345";
         content_id := c;
         docker_active := a |})%res.

Definition avisos_de (errores : list string) : list (string * string) :=
  map (fun e => (e, "danger")) errores.

(** [new_event]. An exception of [int(...)] is not handled and leaves
    the handler; the store is written only by [agregar_evento]. *)
Definition new_event (peticion : Peticion) : Accion RespuestaWeb :=
  fun archivo =>
  match peticion with
  | MetodoGET => (Ok (Plantilla "new_event.html"), archivo)
  | MetodoPOST form =>
      match config_de_formulario (strip (f_nombre form)) form "" "False" with
      | Error e => (Error e, archivo)
      | Ok config =>
          match validar ip_address config with
          | _ :: _ as errores =>
              (Ok (Redirige "new_event" (avisos_de errores)), archivo)
          | [] =>
              (Ok (Redirige "index"
                     [(("Evento '" ++ nombre config
                        ++ "' creado exitosamente")%string, "success")]),
               agregar_evento archivo config)
          end
      end
  end.

(** [next((e for e in eventos if e["name"] == n), None)] *)
Definition buscar_evento (n : string) (eventos : list Evento)
  : option Evento :=
  find (fun e => String.eqb (k_name e) n) eventos.

(** [edit_event]: the store is written only by [actualizar_evento],
    whose exception is flashed. *)
Definition edit_event (n : string) (peticion : Peticion)
  : Accion RespuestaWeb :=
  fun archivo =>
  match buscar_evento n (listar_eventos archivo) with
  | None => (Ok (Redirige "index" [("Evento no encontrado", "danger")]), archivo)
  | Some evento =>
      match peticion with
      | MetodoGET => (Ok (Plantilla "edit_event.html"), archivo)
      | MetodoPOST form =>
          match config_de_formulario n form (k_content_id evento)
                  (k_docker_active evento) with
          | Error e => (Error e, archivo)
          | Ok config =>
              match validar ip_address config with
              | _ :: _ as errores =>
                  (Ok (Redirige "edit_event" (avisos_de errores)), archivo)
              | [] =>
                  match actualizar_evento archivo config with
                  | Ok archivo' =>
                      (Ok (Redirige "index"
                             [(("Evento '" ++ n
                                ++ "' actualizado exitosamente")%string,
                               "success")]),
                       archivo')
                  | Error e =>
                      (Ok (Redirige "edit_event"
                             [(("Error al actualizar evento: "
                                ++ mensaje e)%string, "danger")]),
                       archivo)
                  end
              end
          end
      end
  end.

(** The [EventoConfig] that [start_event] builds from a row read from
    the store. *)
Definition config_de_evento (evento : Evento) : Resultado EventoConfig :=
  (p <- int_ (k_port evento) ;;
   b <- int_ (k_bitrate evento) ;;
   Ok {| nombre := k_name evento;
         titulo := k_title evento;
         puerto := p;
         tracker := k_tracker evento;
         sources := k_sources evento;
         host := k_host evento;
         bitrate := b;
         token := k_service_access_token evento;
         content_id := k_content_id evento;
         docker_active := k_docker_active evento |})%res.

End Web.

(** ** Vocabulary of the properties *)

(** The digits and the minus sign, of which [str(n)] is made. *)
Definition es_digito_o_menos (c : ascii) : bool :=
  Patron.entre 48 57 c || (codigo c =? 45)%nat.

Definition no_dos_puntos (c : ascii) : bool := negb (codigo c =? 58)%nat.

(** The values of an option in an argument list: the tokens that follow
    a token equal to [opcion]. *)
Fixpoint valores_opcion (opcion : string) (argv : list string) : list string :=
  match argv with
  | [] => []
  | t :: resto =>
      match resto with
      | v :: _ =>
          if String.eqb t opcion then v :: valores_opcion opcion resto
          else valores_opcion opcion resto
      | [] => []
      end
  end.

(** The port-mapping tokens of port [p]. *)
Definition es_mapeo (p : Z) (t : string) : bool :=
  String.eqb t (mapeo_puerto p "tcp") || String.eqb t (mapeo_puerto p "udp").

(** The texts a command takes over from the configuration as they are. *)
Definition textos_libres (config : EventoConfig) (url : string) : list string :=
  [nombre config; titulo config; tracker config; token config; host config;
   url].

(** The texts taken over from the configuration among which none is
    the token [o]. *)
Definition ninguno_es (o : string) (textos : list string) : bool :=
  forallb (fun t => negb (String.eqb t o)) textos.

(** The texts among which none is a port mapping of port [p]. *)
Definition ninguno_mapeo (p : Z) (textos : list string) : bool :=
  forallb (fun t => negb (es_mapeo p t)) textos.

(** [f] is the first entry of [l] with [valid = true]. *)
Definition primera_con_valid (l : list Fuente) (f : Fuente) : Prop :=
  exists antes despues,
    l = antes ++ f :: despues /\
    (forall g, In g antes -> valid g = false) /\
    valid f = true.

(** A response that does not yet give an identity: a transport failure,
    a status other than 200, a body that is not JSON, or an object whose
    [content_id] is absent, empty or the sentinel. *)
Inductive NoListo : Respuesta -> Prop :=
| NoListo_transporte : forall e, NoListo (FalloTransporte e)
| NoListo_estado : forall status_code cuerpo,
    status_code <> 200%Z -> NoListo (Http status_code cuerpo)
| NoListo_no_json : NoListo (Http 200 NoJson)
| NoListo_ausente : forall h, NoListo (Http 200 (Objeto None h))
| NoListo_vacio : forall h, NoListo (Http 200 (Objeto (Some "") h))
| NoListo_centinela : forall h,
    NoListo (Http 200 (Objeto (Some "No encontrado") h)).

(** A response with status 200 whose object gives the identity [c]. *)
Definition da_identidad (r : Respuesta) (c : string) (h : option string)
  : Prop :=
  r = Http 200 (Objeto (Some c) h) /\ c <> "" /\ c <> "No encontrado".

(** A response with status 200 whose body is JSON but not an object. *)
Definition no_objeto (r : Respuesta) (tipo : string) : Prop :=
  r = Http 200 (OtroJson tipo).

(** An entry the cleanup deletes: a file whose extension is not kept and
    whose [unlink] succeeds. *)
Definition borrable (a : Entrada) : bool :=
  match e_is_file a, e_unlink a with
  | Ok true, Ok _ => negb (permitida (sufijo (e_nombre a)))
  | _, _ => false
  end.

(** ** Sample data *)

Definition config_demo : EventoConfig :=
  {| nombre := "demo"; titulo := "Demo"; puerto := 8642;
     tracker := "udp://tracker.opentrackr.org:1337/announce";
     sources := [ {| source := "a"; valid := false |};
                  {| source := "b"; valid := true |} ];
     host := "127.0.0.1"; bitrate := 697587; token := "12345";
     content_id := ""; docker_active := "False" |}.

(** A configuration that passes [validar] and whose name is the token
    [--source]. *)
Definition config_nombre_opcion : EventoConfig :=
  {| nombre := "--source"; titulo := "Demo"; puerto := 8642;
     tracker := "udp://tracker.opentrackr.org:1337/announce";
     sources := [ {| source := "a"; valid := false |};
                  {| source := "b"; valid := true |} ];
     host := "example.org"; bitrate := 697587; token := "12345";
     content_id := ""; docker_active := "False" |}.

(** A configuration that passes [validar] and whose title reads as the
    tcp mapping of its port. *)
Definition config_titulo_mapeo : EventoConfig :=
  {| nombre := "demo"; titulo := "8642:8642/tcp"; puerto := 8642;
     tracker := "udp://tracker.opentrackr.org:1337/announce";
     sources := [ {| source := "a"; valid := false |};
                  {| source := "b"; valid := true |} ];
     host := "example.org"; bitrate := 697587; token := "12345";
     content_id := ""; docker_active := "False" |}.

(** A configuration that passes [validar] and whose first valid entry
    has an empty URL. *)
Definition config_url_en_blanco : EventoConfig :=
  {| nombre := "demo"; titulo := "Demo"; puerto := 8642;
     tracker := "udp://tracker.opentrackr.org:1337/announce";
     sources := [ {| source := ""; valid := true |};
                  {| source := "b"; valid := false |} ];
     host := "example.org"; bitrate := 697587; token := "12345";
     content_id := ""; docker_active := "False" |}.

(** A configuration with a port below the allowed range and nothing
    else wrong. *)
Definition config_puerto_80 : EventoConfig :=
  {| nombre := "demo"; titulo := "Demo"; puerto := 80;
     tracker := "udp://tracker.opentrackr.org:1337/announce";
     sources := [ {| source := "a"; valid := false |} ];
     host := "example.org"; bitrate := 697587; token := "12345";
     content_id := ""; docker_active := "False" |}.

(** The store after [demo] has been created. *)
Definition archivo_demo : Archivo := agregar_evento [] config_demo.

(** [config_demo] under a name that is not in [archivo_demo]. *)
Definition config_ausente : EventoConfig :=
  {| nombre := "ausente"; titulo := "Demo"; puerto := 8642;
     tracker := "udp://tracker.opentrackr.org:1337/announce";
     sources := [ {| source := "b"; valid := true |} ];
     host := "127.0.0.1"; bitrate := 697587; token := "12345";
     content_id := ""; docker_active := "False" |}.

(** Two rows read from the store that differ at most in the [valid]
    flags of their sources: the other nine columns are equal and the
    sources have the same URLs in the same order. *)
Definition solo_valid (e e' : Evento) : Prop :=
  k_name e' = k_name e /\ k_title e' = k_title e /\ k_port e' = k_port e /\
  k_service_access_token e' = k_service_access_token e /\
  k_tracker e' = k_tracker e /\ k_host e' = k_host e /\
  k_bitrate e' = k_bitrate e /\ k_content_id e' = k_content_id e /\
  k_docker_active e' = k_docker_active e /\
  length (k_sources e') = length (k_sources e) /\
  map source (k_sources e') = map source (k_sources e).

(** Sources as the web handlers write them: no entry is valid and no
    URL is empty once stripped. *)
Definition recien_escritas (l : list Fuente) : Prop :=
  forall f, In f l -> valid f = false /\ strip (source f) <> "".

(** The row [viejo] as it reads after [actualizar_evento] has stored
    [config] in it. *)
Definition evento_actualizado (config : EventoConfig) (viejo : Evento)
  : Evento :=
  MkRegistro (k_name viejo) (titulo config) (str_int (puerto config))
    (token config) (tracker config) (sources config)
    (host config) (str_int (bitrate config)) (content_id config)
    (docker_active config).

(** A row as it is read again after [_escribir_eventos] has written
    it. *)
Definition releer (e : Registro ValorSources) : Evento :=
  con_sources e
    (decodificar_sources
       (match k_sources e with
        | Lista l => json_dumps l
        | Texto s => s
        end)).

(** A posted form with two sources, one of them blank. *)
Definition formulario_demo : Formulario :=
  {| f_nombre := " demo "; f_titulo := "Demo"; f_puerto := "";
     f_tracker := ""; f_token := ""; f_host := "example.org";
     f_bitrate := ""; f_sources := [" http://a/x "; "   "] |}.

(** An endpoint that is not ready on its first two calls and then gives
    the identity [X123]. *)
Definition endpoint_demo (n : nat) : Respuesta :=
  match n with
  | 0 => FalloTransporte "connection refused"
  | 1 => Http 200 (Objeto (Some "No encontrado") None)
  | _ => Http 200 (Objeto (Some "X123") (Some "abc"))
  end.

(** A Linux host whose volume directory holds four entries: a stray
    file that can be deleted, one whose deletion fails, a kept state
    file and a subdirectory. *)
Definition disco_demo : SistemaArchivos :=
  {| plataforma := Linux;
     existe := fun _ => Ok true;
     iterdir := fun _ =>
       Ok [ {| e_nombre := "live.tmp"; e_is_file := Ok true;
               e_unlink := Ok tt |};
            {| e_nombre := "busy.log"; e_is_file := Ok true;
               e_unlink := Error (Lanzada OSError "busy") |};
            {| e_nombre := "stream.acelive"; e_is_file := Ok true;
               e_unlink := Ok tt |};
            {| e_nombre := "cache"; e_is_file := Ok false;
               e_unlink := Ok tt |} ] |}.

(** A world in which docker finds no stale container, the launch
    fails with a non-zero exit status and nothing else goes wrong. *)
Definition mundo_lanzamiento_falla : Mundo :=
  {| docker := fun argv =>
       match argv with
       | "docker" :: "run" :: _ =>
           CodigoNoCero "Command returned non-zero exit status 125."
                        "port is already allocated"
       | _ => Exito ""
       end;
     monitor := endpoint_demo;
     disco := disco_demo;
     fallo_store := fun _ => None |}.

(** A world in which nothing goes wrong: docker answers every command
    with the container id [c1], and the monitor is [endpoint_demo]. *)
Definition mundo_sin_fallos : Mundo :=
  {| docker := fun _ => Exito "c1";
     monitor := endpoint_demo;
     disco := disco_demo;
     fallo_store := fun _ => None |}.

(** An endpoint whose every answer has status 200 and the JSON body
    [[]]: JSON, and not an object. *)
Definition endpoint_lista (n : nat) : Respuesta := Http 200 (OtroJson "list").

(** [s] doubled [k] times. *)
Fixpoint doblar (k : nat) (s : string) : string :=
  match k with
  | O => s
  | S k' => doblar k' (s ++ s)
  end.

(** A title of 131073 letters, one more than the reader's limit. *)
Definition titulo_largo : string := String "a" (doblar 17 "a").

(** A configuration that passes [validar] and whose title is over the
    reader's limit. *)
Definition config_titulo_largo : EventoConfig :=
  {| nombre := "largo"; titulo := titulo_largo; puerto := 8642;
     tracker := "udp://tracker.opentrackr.org:1337/announce";
     sources := [ {| source := "b"; valid := false |} ];
     host := "example.org"; bitrate := 697587; token := "12345";
     content_id := ""; docker_active := "False" |}.



(** A world in which nothing goes wrong until the second update of
    the store, which fails once the file has been emptied and before
    any row reaches it. *)
Definition mundo_escritura_falla : Mundo :=
  {| docker := fun _ => Exito "c1";
     monitor := endpoint_demo;
     disco := disco_demo;
     fallo_store := fun n =>
       match n with
       | 1 => Some {| f_excepcion :=
                        Lanzada OSError "[Errno 28] No space left on device";
                      f_resto := Some [] |}
       | _ => None
       end |}.

(** ** The remaining web handlers ([delete_event], [start_event]) *)


Section Arranque.

Variable int_de_texto : string -> option Z.

(** [start_event] up to the start of the background thread: the answer
    to the request, and the configuration handed to the thread that
    runs [iniciar_docker_evento], if any. The exception of the csv
    reader in [listar_eventos] is outside the [try] and leaves the
    handler. *)
Definition start_event (n : string) (archivo : Archivo)
  : Resultado (RespuestaWeb * option EventoConfig) :=
  (eventos <- listar_eventos_csv archivo ;;
   Ok (match buscar_evento n eventos with
       | None =>
           (Redirige "index" [("Evento no encontrado", "danger")], None)
       | Some evento =>
           match config_de_evento int_de_texto evento with
           | Error e =>
               (Redirige "index"
                  [(("Error al parsear evento: " ++ mensaje e)%string,
                    "danger")],
                None)
           | Ok config =>
               (Redirige "index"
                  [(("Proceso de inicio del contenedor para '" ++ n
                     ++ "' iniciado en segundo plano")%string, "info")],
                Some config)
           end
       end))%res.

End Arranque.

(** ** The source validator with the probes it runs *)

Section ValidadorSondas.

Variable is_valid_source : string -> bool.

(** The loop of [check_sources] again, returning beside the marked
    entries the URLs passed to [is_valid_source], in order. *)
Fixpoint marcar_con_sondas (valid_found : bool) (sources : list Fuente)
  : list Fuente * list string :=
  match sources with
  | [] => ([], [])
  | fuente :: resto =>
      if valid_found then
        let '(r, s) := marcar_con_sondas valid_found resto in
        (set_valid false fuente :: r, s)
      else
        let source_url := strip (source fuente) in
        if vacio source_url then
          let '(r, s) := marcar_con_sondas valid_found resto in
          (set_valid false fuente :: r, s)
        else if is_valid_source source_url then
          let '(r, s) := marcar_con_sondas true resto in
          (set_valid true fuente :: r, source_url :: s)
        else
          let '(r, s) := marcar_con_sondas valid_found resto in
          (set_valid false fuente :: r, source_url :: s)
  end.

End ValidadorSondas.

(** ** Further vocabulary *)

(** The stripped URLs of the entries that are not blank. *)
Definition urls_no_vacias (l : list Fuente) : list string :=
  filter (fun u => negb (vacio u)) (map (fun f => strip (source f)) l).

(** [config] with other sources, as [start_event] reads it after the
    validator has rewritten the record. *)
Definition con_fuentes (config : EventoConfig) (l : list Fuente)
  : EventoConfig :=
  {| nombre := nombre config; titulo := titulo config;
     puerto := puerto config; tracker := tracker config; sources := l;
     host := host config; bitrate := bitrate config; token := token config;
     content_id := content_id config;
     docker_active := docker_active config |}.

(** A store in which every [sources] column is the JSON text of a
    list. *)
Definition canonico (archivo : Archivo) : Prop :=
  Forall (fun row : Fila => exists l, k_sources row = json_dumps l) archivo.

(** A store in the format the program writes and reads back: every
    [sources] column is empty, as a row written by hand may have it, or
    decodes to a list of entries. *)
Definition legible (archivo : Archivo) : Prop :=
  Forall (fun row : Fila =>
            k_sources row = "" \/
            exists l, json_loads (k_sources row) = Some l) archivo.

(** Two rows read from the store that differ at most in [content_id]
    and [docker_active]. *)
Definition solo_estado (e e' : Evento) : Prop :=
  k_name e' = k_name e /\ k_title e' = k_title e /\ k_port e' = k_port e /\
  k_service_access_token e' = k_service_access_token e /\
  k_tracker e' = k_tracker e /\ k_sources e' = k_sources e /\
  k_host e' = k_host e /\ k_bitrate e' = k_bitrate e.

(** Seconds slept among the effects. *)
Fixpoint tiempo_dormido (efectos : list Efecto) : Z :=
  match efectos with
  | [] => 0
  | Dormir s :: r => s + tiempo_dormido r
  | Get _ :: r => tiempo_dormido r
  end.

(** A row read from the store as [config] writes it. *)
Definition evento_de (config : EventoConfig) : Evento :=
  con_sources (fila_de_config config) (sources config).

(** The arguments of the [docker ps -a] of the reconciliation. *)
Definition argv_docker_ps_a (n : string) : list string :=
  ["docker"; "ps"; "-a"; "--filter"; ("name=^" ++ n ++ "$")%string;
   "--format"; "{{.ID}}"].

(** A world in which docker works and the monitor never gives an
    identity. *)
Definition mundo_sin_monitor : Mundo :=
  {| docker := fun _ => Exito "c1";
     monitor := fun _ => Http 503 NoJson;
     disco := disco_demo;
     fallo_store := fun _ => None |}.

(** [int] on the two numbers of [config_demo] only. *)
Definition int_demo (texto : string) : option Z :=
  if String.eqb texto "8642" then Some 8642%Z
  else if String.eqb texto "697587" then Some 697587%Z
  else None.

(** A row about to be written whose [sources] text will be the JSON
    text of a list: it holds a list, or such a text. *)
Definition texto_canonico (e : Registro ValorSources) : Prop :=
  match k_sources e with
  | Lista _ => True
  | Texto s => exists l, s = json_dumps l
  end.

(** A Linux host whose volume directory holds a stray file that can be
    deleted, followed by an entry on which [is_file] raises. *)
Definition disco_is_file_falla : SistemaArchivos :=
  {| plataforma := Linux;
     existe := fun _ => Ok true;
     iterdir := fun _ =>
       Ok [ {| e_nombre := "live.tmp"; e_is_file := Ok true;
               e_unlink := Ok tt |};
            {| e_nombre := "roto"; e_is_file := Error (Lanzada OSError "io");
               e_unlink := Ok tt |} ] |}.

(* ===================================================================== *)
(** * Part II: properties                                                 *)
(* ===================================================================== *)

(** ** The source validator: first valid wins *)

Section ValidadorProps.

Variable is_valid_source : string -> bool.

Lemma marcar_fuentes_length : forall l b,
  length (marcar_fuentes is_valid_source b l) = length l.
Proof.
  induction l as [|f l IH]; intros b; simpl; [reflexivity|].
  destruct b; simpl; [now rewrite IH|].
  destruct (vacio (strip (source f))); simpl; [now rewrite IH|].
  destruct (is_valid_source (strip (source f))); simpl; now rewrite IH.
Qed.

Lemma marcar_fuentes_source : forall l b,
  map source (marcar_fuentes is_valid_source b l) = map source l.
Proof.
  induction l as [|f l IH]; intros b; simpl; [reflexivity|].
  destruct b; simpl; [now rewrite IH|].
  destruct (vacio (strip (source f))); simpl; [now rewrite IH|].
  destruct (is_valid_source (strip (source f))); simpl; now rewrite IH.
Qed.

(** Once a valid source has been found every later entry is marked
    invalid. *)
Lemma marcar_fuentes_found : forall l f,
  In f (marcar_fuentes is_valid_source true l) -> valid f = false.
Proof.
  induction l as [|g l IH]; simpl; intros f H; [contradiction|].
  destruct H as [<-|H]; [reflexivity|]. now apply IH.
Qed.

Lemma marcar_fuentes_step : forall f l,
  marcar_fuentes is_valid_source false (f :: l) =
  set_valid (sonda is_valid_source f) f
    :: marcar_fuentes is_valid_source (sonda is_valid_source f) l.
Proof.
  intros f l. unfold sonda. simpl.
  destruct (vacio (strip (source f))); [reflexivity|].
  destruct (is_valid_source (strip (source f))); reflexivity.
Qed.

(** Entry [i] of the result is valid exactly when entry [i] of the input
    is the first whose probe succeeds. *)
Lemma marcar_fuentes_first : forall l i f,
  nth_error (marcar_fuentes is_valid_source false l) i = Some f ->
  (valid f = true <->
   exists g, nth_error l i = Some g /\ sonda is_valid_source g = true /\
     forall j h, j < i -> nth_error l j = Some h ->
                 sonda is_valid_source h = false).
Proof.
  induction l as [|a l IH]; intros i f H.
  - destruct i; discriminate.
  - rewrite marcar_fuentes_step in H.
    destruct i as [|i]; simpl in H.
    + injection H as <-. simpl. split.
      * intros Hv. exists a. repeat split; [assumption|]. intros j h Hj. lia.
      * intros (g & Hg & Hs & _). simpl in Hg. now injection Hg as <-.
    + destruct (sonda is_valid_source a) eqn:Ea.
      * split.
        -- intros Hv. apply nth_error_In in H.
           apply marcar_fuentes_found in H. congruence.
        -- intros (g & _ & _ & Hprev).
           specialize (Hprev 0 a ltac:(lia) eq_refl). congruence.
      * rewrite (IH i f H). split.
        -- intros (g & Hg & Hs & Hprev). exists g. repeat split; try assumption.
           intros [|j] h Hj Hh; simpl in Hh.
           ++ now injection Hh as <-.
           ++ apply (Hprev j h); [lia|assumption].
        -- intros (g & Hg & Hs & Hprev). exists g. repeat split; try assumption.
           intros j h Hj Hh. apply (Hprev (S j) h); [lia|assumption].
Qed.

Lemma revisar_fuentes_eq : forall l,
  revisar_fuentes is_valid_source l = marcar_fuentes is_valid_source false l.
Proof. now destruct l. Qed.

End ValidadorProps.

(** C1. After [check_sources] has gone through the sources of an event,
    the sequence has the same entries in the same order and at most one
    of them is valid; entry [i] is valid exactly when it is the earliest
    entry whose probe succeeds (its stripped URL is not empty and
    [is_valid_source] accepts it); every entry after a valid one is
    invalid whatever its own probe gives, and when no probe succeeds no
    entry is valid. *)
Theorem check_sources_first_valid_wins :
  forall (is_valid_source : string -> bool) (l : list Fuente),
  let res := revisar_fuentes is_valid_source l in
  length res = length l /\
  map source res = map source l /\
  (forall i j fi fj,
     nth_error res i = Some fi -> nth_error res j = Some fj ->
     valid fi = true -> valid fj = true -> i = j) /\
  (forall i fi, nth_error res i = Some fi ->
     (valid fi = true <->
      exists g, nth_error l i = Some g /\ sonda is_valid_source g = true /\
        forall j h, j < i -> nth_error l j = Some h ->
                    sonda is_valid_source h = false)) /\
  (forall i j fi fj,
     nth_error res i = Some fi -> valid fi = true -> i < j ->
     nth_error res j = Some fj -> valid fj = false) /\
  ((forall g, In g l -> sonda is_valid_source g = false) ->
   forall f, In f res -> valid f = false).
Proof.
  intros ivs l res. subst res. rewrite revisar_fuentes_eq.
  assert (Hfirst := marcar_fuentes_first ivs l).
  assert (Huniq : forall i j fi fj,
     nth_error (marcar_fuentes ivs false l) i = Some fi ->
     nth_error (marcar_fuentes ivs false l) j = Some fj ->
     valid fi = true -> valid fj = true -> i = j).
  { intros i j fi fj Hi Hj Vi Vj.
    apply (Hfirst i fi Hi) in Vi. apply (Hfirst j fj Hj) in Vj.
    destruct Vi as (gi & Hgi & Si & Pi). destruct Vj as (gj & Hgj & Sj & Pj).
    destruct (Nat.lt_trichotomy i j) as [Hlt|[Heq|Hgt]]; [|assumption|].
    - specialize (Pj i gi Hlt Hgi). congruence.
    - specialize (Pi j gj Hgt Hgj). congruence. }
  repeat split.
  - apply marcar_fuentes_length.
  - apply marcar_fuentes_source.
  - exact Huniq.
  - apply (Hfirst i fi H).
  - apply (Hfirst i fi H).
  - intros i j fi fj Hi Vi Hlt Hj.
    destruct (valid fj) eqn:Vj; [|reflexivity].
    specialize (Huniq i j fi fj Hi Hj Vi Vj). lia.
  - intros Hnone f Hin.
    destruct (valid f) eqn:Vf; [|reflexivity].
    apply In_nth_error in Hin. destruct Hin as [i Hi].
    apply (Hfirst i f Hi) in Vf. destruct Vf as (g & Hg & Sg & _).
    apply nth_error_In in Hg. rewrite (Hnone g Hg) in Sg. discriminate.
Qed.

(** ** Facts about text *)

Lemma todos_app : forall p a b, todos p (a ++ b) = todos p a && todos p b.
Proof.
  induction a as [|c a IH]; intros b; simpl; [reflexivity|].
  now rewrite IH, andb_assoc.
Qed.

Lemma eqb_false_todos : forall p a b,
  todos p a = true -> todos p b = false -> String.eqb a b = false.
Proof.
  intros p a b Ha Hb. apply String.eqb_neq. intros ->. congruence.
Qed.

Lemma ultimo_app : forall a c b,
  Patron.ultimo (a ++ String c b) = Patron.ultimo (String c b).
Proof.
  induction a as [|x a IH]; intros c b; [reflexivity|].
  change (Patron.ultimo (String x (a ++ String c b))
          = Patron.ultimo (String c b)).
  rewrite <- (IH c b). simpl. now destruct a.
Qed.

Lemma eqb_false_ultimo : forall a b,
  Patron.ultimo a <> Patron.ultimo b -> String.eqb a b = false.
Proof. intros a b H. apply String.eqb_neq. intros ->. now apply H. Qed.

Lemma string_of_uint_digitos : forall u,
  todos es_digito_o_menos (NilEmpty.string_of_uint u) = true.
Proof. induction u; simpl; auto. Qed.

Lemma str_int_digitos : forall z, todos es_digito_o_menos (str_int z) = true.
Proof.
  intros z. unfold str_int, NilZero.string_of_int, NilZero.string_of_uint.
  destruct (Z.to_int z) as [u|u]; destruct u; simpl;
    try reflexivity; apply string_of_uint_digitos.
Qed.

Lemma todos_impl : forall (p q : ascii -> bool) s,
  (forall c, p c = true -> q c = true) -> todos p s = true -> todos q s = true.
Proof.
  intros p q s Hpq. induction s as [|c s IH]; simpl; [reflexivity|].
  intros H. apply andb_true_iff in H. destruct H as [Hc Hs].
  now rewrite (Hpq c Hc), IH.
Qed.

Lemma str_int_sin_dos_puntos : forall z, todos no_dos_puntos (str_int z) = true.
Proof.
  intros z. apply (todos_impl es_digito_o_menos); [|apply str_int_digitos].
  intros c. unfold es_digito_o_menos, no_dos_puntos, Patron.entre.
  destruct (codigo c =? 58)%nat eqn:E; [|reflexivity].
  apply Nat.eqb_eq in E. rewrite E. discriminate.
Qed.

Lemma mapeo_con_dos_puntos : forall p proto,
  todos no_dos_puntos (mapeo_puerto p proto) = false.
Proof.
  intros p proto. unfold mapeo_puerto. rewrite todos_app.
  rewrite str_int_sin_dos_puntos. reflexivity.
Qed.

Lemma mapeo_ultimo : forall p proto c,
  Patron.ultimo proto = Some c ->
  Patron.ultimo (mapeo_puerto p proto) = Some c.
Proof.
  intros p proto c H. unfold mapeo_puerto.
  change (":" ++ str_int p ++ "/" ++ proto)%string
    with (String ":" (str_int p ++ String "/" proto)).
  rewrite ultimo_app.
  change (String ":" (str_int p ++ String "/" proto))
    with (String ":" (str_int p) ++ String "/" proto)%string.
  rewrite ultimo_app. destruct proto; [discriminate|exact H].
Qed.

(** ** The command builder *)

Lemma primera_valida_ninguna : forall l,
  (forall f, In f l -> valid f = false) -> primera_valida l = None.
Proof.
  induction l as [|g l IH]; intros H; simpl; [reflexivity|].
  rewrite (H g (or_introl eq_refl)). apply IH. intros f Hf. apply H. now right.
Qed.

Lemma primera_valida_primera : forall l f,
  primera_con_valid l f -> primera_valida l = Some (source f).
Proof.
  intros l f (antes & despues & -> & Hantes & Hf).
  induction antes as [|g antes IH]; simpl.
  - now rewrite Hf.
  - rewrite (Hantes g (or_introl eq_refl)). apply IH.
    intros h Hh. apply Hantes. now right.
Qed.

Lemma valores_opcion_cons : forall o t v r,
  valores_opcion o (t :: v :: r) =
  (if String.eqb t o then [v] else []) ++ valores_opcion o (v :: r).
Proof. intros o t v r. simpl. now destruct (String.eqb t o). Qed.

Lemma eqb_false_todos_r : forall p a b,
  todos p a = false -> todos p b = true -> String.eqb a b = false.
Proof.
  intros p a b Ha Hb. rewrite String.eqb_sym. now apply (eqb_false_todos p).
Qed.

Lemma es_mapeo_sin_dos_puntos : forall p t,
  todos no_dos_puntos t = true -> es_mapeo p t = false.
Proof.
  intros p t H. unfold es_mapeo.
  now rewrite !(eqb_false_todos no_dos_puntos t) by
    (assumption || apply mapeo_con_dos_puntos).
Qed.

Lemma es_mapeo_tcp : forall p, es_mapeo p (mapeo_puerto p "tcp") = true.
Proof. intros p. unfold es_mapeo. now rewrite String.eqb_refl. Qed.

Lemma es_mapeo_udp : forall p, es_mapeo p (mapeo_puerto p "udp") = true.
Proof.
  intros p. unfold es_mapeo. now rewrite String.eqb_refl, orb_true_r.
Qed.

Lemma es_mapeo_volumen : forall p n,
  es_mapeo p ("acestreamengine_" ++ n ++ ":/data") = false.
Proof.
  intros p n. unfold es_mapeo.
  assert (U : Patron.ultimo ("acestreamengine_" ++ n ++ ":/data")
              = Some "a"%char).
  { change ("acestreamengine_" ++ n ++ ":/data")%string
      with (("acestreamengine_" ++ n) ++ String ":" "/data")%string.
    - now rewrite ultimo_app. }
  rewrite !eqb_false_ultimo; [reflexivity| |];
    rewrite U, (mapeo_ultimo _ _ "p"%char) by reflexivity; discriminate.
Qed.

Lemma comando_docker_source : forall config url,
  valores_opcion "--source" (comando_docker config url) = [url] <->
  ninguno_es "--source" (textos_libres config url) = true.
Proof.
  intros config url.
  assert (Ep : forall z, String.eqb (str_int z) "--source" = false).
  { intros z. apply (eqb_false_todos es_digito_o_menos);
      [apply str_int_digitos|reflexivity]. }
  assert (Em : forall proto,
             String.eqb (mapeo_puerto (puerto config) proto) "--source" = false).
  { intros proto. apply (eqb_false_todos_r no_dos_puntos);
      [apply mapeo_con_dos_puntos|reflexivity]. }
  unfold comando_docker, ninguno_es, textos_libres.
  rewrite !valores_opcion_cons, !Ep, !Em. cbn [forallb].
  destruct (String.eqb (nombre config) "--source"),
           (String.eqb (titulo config) "--source"),
           (String.eqb (tracker config) "--source"),
           (String.eqb (token config) "--source"),
           (String.eqb (host config) "--source"),
           (String.eqb url "--source");
    simpl; split; intros H; first [reflexivity | discriminate H].
Qed.

Lemma filter_cons_app : forall (f : string -> bool) x l,
  filter f (x :: l) = (if f x then [x] else []) ++ filter f l.
Proof. intros f x l. simpl. now destruct (f x). Qed.

Lemma comando_docker_mapeos : forall config url,
  filter (es_mapeo (puerto config)) (comando_docker config url)
  = [mapeo_puerto (puerto config) "tcp"; mapeo_puerto (puerto config) "udp"]
  <-> ninguno_mapeo (puerto config) (textos_libres config url) = true.
Proof.
  intros config url.
  unfold comando_docker, ninguno_mapeo, textos_libres.
  rewrite !filter_cons_app. cbn [forallb].
  rewrite (es_mapeo_tcp (puerto config)), (es_mapeo_udp (puerto config)),
    (es_mapeo_volumen (puerto config) (nombre config)).
  repeat match goal with
  | |- context [es_mapeo ?p ?t] =>
      rewrite (es_mapeo_sin_dos_puntos p t)
        by first [ reflexivity | apply str_int_sin_dos_puntos ]
  end.
  destruct (es_mapeo (puerto config) (nombre config)),
           (es_mapeo (puerto config) (titulo config)),
           (es_mapeo (puerto config) (tracker config)),
           (es_mapeo (puerto config) (token config)),
           (es_mapeo (puerto config) (host config)),
           (es_mapeo (puerto config) url);
    simpl; split; intros H;
    first [ reflexivity | discriminate H
          | apply (f_equal (@length string)) in H; discriminate H ].
Qed.

(** The command ends with the option [--source], the URL, and the
    bitrate. *)
Lemma comando_docker_final : forall config url,
  exists antes,
    comando_docker config url
    = antes ++ ["--source"; url; "--bitrate"; str_int (bitrate config)].
Proof.
  intros config url.
  exists (firstn (length (comando_docker config url) - 4)
            (comando_docker config url)).
  reflexivity.
Qed.

(** C2 (amended). The builder fails when no entry is valid, and also
    when the first valid entry has an empty URL. When the first valid
    entry has a URL that is not empty it emits a command that ends with
    [--source], that URL, [--bitrate] and the bitrate. In that command
    the option [--source] has exactly one value, that URL, exactly when
    none of the texts taken over from the configuration (name, title,
    tracker, token, host and that URL) is itself the token [--source];
    and the port-mapping tokens are exactly [<port>:<port>/tcp] and
    [<port>:<port>/udp] exactly when none of those texts is itself one
    of the two. *)
Theorem construir_comando_docker_primera_valida : forall config,
  ((forall f, In f (sources config) -> valid f = false) ->
   _construir_comando_docker config = Error sin_fuente_valida) /\
  (forall f, primera_con_valid (sources config) f ->
     source f = "" ->
     _construir_comando_docker config = Error sin_fuente_valida) /\
  (forall f, primera_con_valid (sources config) f ->
     source f <> "" ->
     exists cmd,
       _construir_comando_docker config = Ok cmd /\
       (exists antes,
          cmd = antes ++ ["--source"; source f; "--bitrate";
                          str_int (bitrate config)]) /\
       (valores_opcion "--source" cmd = [source f] <->
        ninguno_es "--source" (textos_libres config (source f)) = true) /\
       (filter (es_mapeo (puerto config)) cmd
        = [mapeo_puerto (puerto config) "tcp";
           mapeo_puerto (puerto config) "udp"] <->
        ninguno_mapeo (puerto config) (textos_libres config (source f))
        = true)).
Proof.
  intros config. unfold _construir_comando_docker. repeat split.
  - intros H. now rewrite (primera_valida_ninguna _ H).
  - intros f Hf Hs. rewrite (primera_valida_primera _ _ Hf), Hs. reflexivity.
  - intros f Hf Hs. rewrite (primera_valida_primera _ _ Hf).
    destruct (source f) as [|c s] eqn:E; [contradiction|].
    simpl vacio. cbv iota. eexists. split; [reflexivity|].
    split; [apply comando_docker_final|].
    split; [apply comando_docker_source|apply comando_docker_mapeos].
Qed.

(** ** The readiness poller *)

Lemma identidad_no_listo : forall r, NoListo r -> identidad r = Ok None.
Proof.
  intros r H. destruct H; simpl; try reflexivity.
  apply Z.eqb_neq in H. now rewrite H.
Qed.

Lemma identidad_da : forall r c h,
  da_identidad r c h ->
  identidad r = Ok (Some {| m_content_id := c; m_download_hash := h |}).
Proof.
  intros r c h (-> & Hc & Hs). unfold identidad.
  apply String.eqb_neq in Hs. rewrite Hs.
  destruct c as [|x c]; [contradiction|]. reflexivity.
Qed.

(** Every response is not ready, or gives an identity, or has a JSON
    body that is not an object. *)
Lemma identidad_casos : forall r,
  NoListo r \/ (exists c h, da_identidad r c h)
  \/ (exists tipo, no_objeto r tipo).
Proof.
  intros [e|status_code cuerpo]; [left; apply NoListo_transporte|].
  destruct (Z.eq_dec status_code 200) as [->|Hs];
    [|left; now apply NoListo_estado].
  destruct cuerpo as [|[c|] h|tipo];
    [left; apply NoListo_no_json| |left; apply NoListo_ausente
    |right; right; now exists tipo].
  destruct c as [|x c]; [left; apply NoListo_vacio|].
  destruct (String.eqb (String x c) "No encontrado") eqn:E.
  - apply String.eqb_eq in E. rewrite E. left. apply NoListo_centinela.
  - right. left. exists (String x c), h. repeat split; [discriminate|].
    now apply String.eqb_neq.
Qed.

Lemma identidad_no_objeto : forall r tipo,
  no_objeto r tipo -> identidad r = Error (sin_get tipo).
Proof. intros r tipo ->. reflexivity. Qed.

Section SondeoProps.

Variable endpoint : nat -> Respuesta.

Lemma sondear_listo : forall url k restantes intento mon,
  k < restantes ->
  (forall j, j < k -> identidad (endpoint (intento + j)) = Ok None) ->
  identidad (endpoint (intento + k)) = Ok (Some mon) ->
  exists efectos,
    sondear endpoint url restantes intento = (Ok mon, efectos) /\
    llamadas efectos = k + 1.
Proof.
  intros url. induction k as [|k IH]; intros restantes intento mon Hk Hno Hsi.
  - destruct restantes as [|r]; [lia|]. simpl.
    rewrite Nat.add_0_r in Hsi. rewrite Hsi. now eexists.
  - destruct restantes as [|r]; [lia|]. simpl.
    assert (H0 := Hno 0 ltac:(lia)). rewrite Nat.add_0_r in H0. rewrite H0.
    destruct (IH r (S intento) mon) as (ef & Hef & Hn).
    + lia.
    + intros j Hj. replace (S intento + j) with (intento + S j) by lia.
      apply Hno. lia.
    + now replace (S intento + k) with (intento + S k) by lia.
    + rewrite Hef. eexists. split; [reflexivity|]. simpl. now rewrite Hn.
Qed.

Lemma sondear_agotado : forall url restantes intento,
  (forall j, identidad (endpoint (intento + j)) = Ok None) ->
  exists efectos,
    sondear endpoint url restantes intento = (Error sin_monitor, efectos) /\
    llamadas efectos = restantes.
Proof.
  intros url. induction restantes as [|r IH]; intros intento Hno; simpl.
  - now eexists.
  - assert (H0 := Hno 0). rewrite Nat.add_0_r in H0. rewrite H0.
    destruct (IH (S intento)) as (ef & Hef & Hn).
    + intros j. replace (S intento + j) with (intento + S j) by lia.
      apply Hno.
    + rewrite Hef. eexists. split; [reflexivity|]. simpl. now rewrite Hn.
Qed.

End SondeoProps.

(** X23. When the first [k] responses are not ready (a transport
    failure, a status other than 200, a body that is not JSON, an
    object whose content id is absent, empty or the sentinel), [k]
    below the number of attempts, and response [k+1] gives an identity,
    the poller returns that identity after exactly [k+1] HTTP calls.
    When every response is not ready in that way it raises the
    readiness timeout after exactly as many calls as there are
    attempts. *)
Theorem obtener_monitor_llamadas :
  forall (endpoint : nat -> Respuesta) (contenedor_id : string)
         (puerto intentos : Z),
  (forall (k : nat) c h,
     (Z.of_nat k < intentos)%Z ->
     (forall i, i < k -> NoListo (endpoint i)) ->
     da_identidad (endpoint k) c h ->
     exists efectos,
       obtener_monitor endpoint contenedor_id puerto intentos
       = (Ok {| m_content_id := c; m_download_hash := h |}, efectos) /\
       llamadas efectos = k + 1) /\
  ((forall i, NoListo (endpoint i)) ->
   exists efectos,
     obtener_monitor endpoint contenedor_id puerto intentos
     = (Error sin_monitor, efectos) /\
     Z.of_nat (llamadas efectos) = Z.max 0 intentos).
Proof.
  intros endpoint contenedor_id puerto intentos. unfold obtener_monitor. split.
  - intros k c h Hk Hno Hsi.
    destruct (sondear_listo endpoint (url_monitor puerto) k
                (Z.to_nat intentos) 0
                {| m_content_id := c; m_download_hash := h |})
      as (ef & Hef & Hn).
    + lia.
    + intros j Hj. simpl. now apply identidad_no_listo, Hno.
    + simpl. now apply identidad_da.
    + rewrite Hef. eexists. split; [reflexivity|]. exact Hn.
  - intros Hno.
    destruct (sondear_agotado endpoint (url_monitor puerto)
                (Z.to_nat intentos) 0) as (ef & Hef & Hn).
    + intros j. now apply identidad_no_listo, Hno.
    + rewrite Hef. eexists. split; [reflexivity|]. simpl. lia.
Qed.

(** C3. The claim fails on a response with status 200 whose body is
    JSON but not an object: [endpoint_lista] never gives a content id,
    and the poller, with ten attempts, does not raise the readiness
    timeout after ten calls: it raises the [AttributeError] of
    [monitor_data.get] straight after the first call. *)
Theorem obtener_monitor_cuerpo_no_objeto :
  obtener_monitor endpoint_lista "c1" 8642 10
  = (Error (Lanzada AttributeError "'list' object has no attribute 'get'"),
     [Dormir 15; Get "http://localhost:8642/app/8642/monitor"]) /\
  llamadas (snd (obtener_monitor endpoint_lista "c1" 8642 10)) = 1 /\
  fst (obtener_monitor endpoint_lista "c1" 8642 10) <> Error sin_monitor.
Proof.
  split; [reflexivity|]. split; [reflexivity|]. discriminate.
Qed.

(** ** Volume cleanup *)

(** Whatever happens, a name is deleted only for an entry that is a file
    with an extension outside the kept ones. *)
Lemma borrar_archivos_solo_no_permitidos : forall entradas n acc x,
  In x (snd (borrar_archivos entradas n acc)) ->
  In x acc \/
  exists a, In a entradas /\ e_nombre a = x /\ e_is_file a = Ok true /\
            permitida (sufijo x) = false.
Proof.
  induction entradas as [|a entradas IH]; intros n acc x H; simpl in H.
  - now left.
  - assert (Hrec : forall n' acc',
        In x (snd (borrar_archivos entradas n' acc')) ->
        In x acc' \/
        exists b, In b (a :: entradas) /\ e_nombre b = x /\
                  e_is_file b = Ok true /\ permitida (sufijo x) = false).
    { intros n' acc' H'. destruct (IH n' acc' x H') as [?|(b & Hb & Hr)];
        [now left|right]. exists b. split; [now right|exact Hr]. }
    destruct (e_is_file a) as [[|]|e] eqn:Ef.
    + destruct (permitida (sufijo (e_nombre a))) eqn:Ep; [now apply Hrec in H|].
      destruct (e_unlink a) as [u|e]; [|now apply Hrec in H].
      apply Hrec in H. destruct H as [H|H]; [|now right].
      apply in_app_or in H. destruct H as [H|[<-|[]]]; [now left|right].
      exists a. repeat split; [now left|assumption|assumption].
    + now apply Hrec in H.
    + now left.
Qed.

(** When [is_file] answers for every entry, exactly the deletable
    entries are deleted, in order, whatever [unlink] does on the
    others. *)
Lemma borrar_archivos_todos : forall entradas n acc,
  (forall a, In a entradas -> exists b, e_is_file a = Ok b) ->
  borrar_archivos entradas n acc =
  (Ok (n + length (filter borrable entradas)),
   acc ++ map e_nombre (filter borrable entradas)).
Proof.
  induction entradas as [|a entradas IH]; intros n acc H; simpl.
  - now rewrite Nat.add_0_r, app_nil_r.
  - assert (Hr : forall a', In a' entradas -> exists b, e_is_file a' = Ok b)
      by (intros a' Ha'; apply H; now right).
    destruct (H a (or_introl eq_refl)) as [b Hb].
    assert (Eb : borrable a =
                 match b, e_unlink a with
                 | true, Ok _ => negb (permitida (sufijo (e_nombre a)))
                 | _, _ => false
                 end) by (unfold borrable; now rewrite Hb).
    rewrite Hb, Eb. destruct b; [|now apply IH].
    destruct (permitida (sufijo (e_nombre a)));
      [destruct (e_unlink a); now apply IH|].
    destruct (e_unlink a); simpl; [|now apply IH].
    rewrite IH by assumption. rewrite <- app_assoc. simpl. f_equal. f_equal. lia.
Qed.

(** C7. The cleanup never raises: it returns a count. On a platform
    that is not supported, or when the volume directory is missing, it
    returns zero and deletes nothing. Every file it deletes is a file of
    the directory whose extension is outside [.acelive] and [.sauth].
    A file whose deletion fails does not stop it: when the directory can
    be listed, every file outside the kept extensions whose deletion
    succeeds is deleted and counted. *)
Theorem limpiar_archivos_temporales_nunca_falla :
  forall (fs : SistemaArchivos) (nombre_volumen : string),
  (exists n, fst (limpiar_archivos_temporales fs nombre_volumen) = Ok n) /\
  (ruta_base (plataforma fs) nombre_volumen = None ->
   limpiar_archivos_temporales fs nombre_volumen = (Ok 0, [])) /\
  (forall ruta, ruta_base (plataforma fs) nombre_volumen = Some ruta ->
     existe fs ruta = Ok false ->
     limpiar_archivos_temporales fs nombre_volumen = (Ok 0, [])) /\
  (forall x, In x (snd (limpiar_archivos_temporales fs nombre_volumen)) ->
     permitida (sufijo x) = false /\
     exists ruta entradas a,
       ruta_base (plataforma fs) nombre_volumen = Some ruta /\
       iterdir fs ruta = Ok entradas /\ In a entradas /\
       e_nombre a = x /\ e_is_file a = Ok true) /\
  (forall ruta entradas,
     ruta_base (plataforma fs) nombre_volumen = Some ruta ->
     existe fs ruta = Ok true ->
     iterdir fs ruta = Ok entradas ->
     (forall a, In a entradas -> exists b, e_is_file a = Ok b) ->
     limpiar_archivos_temporales fs nombre_volumen
     = (Ok (length (filter borrable entradas)),
        map e_nombre (filter borrable entradas))).
Proof.
  intros fs v. unfold limpiar_archivos_temporales, limpiar_cuerpo.
  repeat split.
  - destruct (ruta_base (plataforma fs) v) as [ruta|]; [|now exists 0].
    destruct (existe fs ruta) as [[|]|e]; try (now exists 0).
    destruct (iterdir fs ruta) as [entradas|e]; [|now exists 0].
    destruct (borrar_archivos entradas 0 []) as [[n|e] bs]; simpl; eauto.
  - now intros ->.
  - intros ruta -> ->. reflexivity.
  - revert H.
    destruct (ruta_base (plataforma fs) v) as [ruta|]; [|contradiction].
    destruct (existe fs ruta) as [[|]|e]; try contradiction.
    destruct (iterdir fs ruta) as [entradas|e]; [|contradiction].
    destruct (borrar_archivos entradas 0 []) as [r bs] eqn:E. simpl. intros H.
    assert (H' : In x (snd (borrar_archivos entradas 0 []))) by now rewrite E.
    apply borrar_archivos_solo_no_permitidos in H'.
    destruct H' as [[]|(a & _ & _ & _ & Hp)]. exact Hp.
  - revert H.
    destruct (ruta_base (plataforma fs) v) as [ruta|]; [|contradiction].
    destruct (existe fs ruta) as [[|]|e]; try contradiction.
    destruct (iterdir fs ruta) as [entradas|e] eqn:Ei; [|contradiction].
    destruct (borrar_archivos entradas 0 []) as [r bs] eqn:E. simpl. intros H.
    assert (H' : In x (snd (borrar_archivos entradas 0 []))) by now rewrite E.
    apply borrar_archivos_solo_no_permitidos in H'.
    destruct H' as [[]|(a & Ha & Hn & Hf & _)].
    exists ruta, entradas, a. now repeat split.
  - intros ruta entradas -> -> -> Hf.
    rewrite (borrar_archivos_todos entradas 0 [] Hf). reflexivity.
Qed.

(** ** Validation *)

Lemma In_si : forall c m x, In x (si c m) <-> c = true /\ x = m.
Proof.
  intros [|] m x; simpl; split.
  - intros [<-|[]]. now split.
  - intros [_ ->]. now left.
  - intros [].
  - intros [H _]. discriminate.
Qed.

Section ValidacionProps.

Variable ip_address : string -> bool.

Lemma In_validar : forall self x,
  In x (validar ip_address self) <->
  (regla_nombre self = true /\ x = msg_nombre) \/
  (regla_puerto self = true /\ x = msg_puerto) \/
  (regla_host ip_address self = true /\ x = msg_host) \/
  (regla_bitrate self = true /\ x = msg_bitrate) \/
  (regla_titulo self = true /\ x = msg_titulo) \/
  (regla_fuentes self = true /\ x = msg_fuentes).
Proof.
  intros self x. unfold validar. rewrite !in_app_iff, !In_si. tauto.
Qed.

Lemma regla_puerto_fuera : forall self,
  regla_puerto self = true <-> (puerto self < 1024 \/ 65535 < puerto self)%Z.
Proof.
  intros self. unfold regla_puerto.
  rewrite negb_true_iff, andb_false_iff, !Z.leb_gt. tauto.
Qed.

End ValidacionProps.

(** C8. For a configuration whose port is outside [1024, 65535] the
    result of [validar] holds the port message, and each of the other
    five messages is in it exactly when its own rule is violated: no
    rule is skipped or decided by another one. *)
Theorem validar_puerto_fuera_de_rango :
  forall (ip_address : string -> bool) (self : EventoConfig),
  (puerto self < 1024 \/ 65535 < puerto self)%Z ->
  In msg_puerto (validar ip_address self) /\
  (In msg_nombre (validar ip_address self) <-> regla_nombre self = true) /\
  (In msg_host (validar ip_address self)
   <-> regla_host ip_address self = true) /\
  (In msg_bitrate (validar ip_address self) <-> regla_bitrate self = true) /\
  (In msg_titulo (validar ip_address self) <-> regla_titulo self = true) /\
  (In msg_fuentes (validar ip_address self) <-> regla_fuentes self = true).
Proof.
  intros ip self Hp. apply regla_puerto_fuera in Hp.
  rewrite !In_validar.
  repeat split; intros;
    repeat match goal with
    | H : _ /\ _ |- _ => destruct H
    | H : _ \/ _ |- _ => destruct H
    | H : msg_nombre = _ |- _ => discriminate H
    | H : msg_puerto = _ |- _ => discriminate H
    | H : msg_host = _ |- _ => discriminate H
    | H : msg_bitrate = _ |- _ => discriminate H
    | H : msg_titulo = _ |- _ => discriminate H
    | H : msg_fuentes = _ |- _ => discriminate H
    end;
    try assumption; tauto.
Qed.

(** The theorem at a configuration with port 80 and no other fault. *)
Lemma validar_puerto_fuera_de_rango_witness :
  In msg_puerto (validar (fun _ => false) config_puerto_80) /\
  (In msg_nombre (validar (fun _ => false) config_puerto_80)
   <-> regla_nombre config_puerto_80 = true).
Proof.
  destruct (validar_puerto_fuera_de_rango (fun _ => false) config_puerto_80)
    as (H1 & H2 & _).
  - left. reflexivity.
  - split; assumption.
Defined.

(** ** Updates of the store *)

Lemma modificar_primero_ausente : forall S n (f : Registro S -> Registro S)
  (eventos : list (Registro S)),
  (forall evento, In evento eventos -> k_name evento <> n) ->
  modificar_primero n f eventos = (eventos, false).
Proof.
  intros S n f. induction eventos as [|evento resto IH]; intros H; simpl.
  - reflexivity.
  - assert (E : String.eqb (k_name evento) n = false)
      by (apply String.eqb_neq, H; now left).
    rewrite E, IH; [reflexivity|]. intros e He. apply H. now right.
Qed.

Lemma eventos_leidos_name : forall archivo evento,
  In evento (eventos_leidos archivo) ->
  exists row, In row archivo /\ k_name row = k_name evento.
Proof.
  intros archivo evento H. unfold eventos_leidos, listar_eventos in H.
  rewrite map_map in H. apply in_map_iff in H. destruct H as (row & <- & Hr).
  now exists row.
Qed.

(** The full update raises when no row has the name. *)
Lemma actualizar_evento_ausente : forall archivo config,
  (forall row, In row archivo -> k_name row <> nombre config) ->
  actualizar_evento archivo config
  = Error (Lanzada ValueError "Evento no encontrado para actualizar").
Proof.
  intros archivo config H. unfold actualizar_evento.
  rewrite modificar_primero_ausente; [reflexivity|].
  intros evento He. apply eventos_leidos_name in He.
  destruct He as (row & Hr & <-). now apply H.
Qed.

(** The two updates of the orchestrator return normally when no row has
    the name: the rows are written back as they were read. *)
Lemma actualizar_content_id_ausente : forall archivo n c,
  (forall row, In row archivo -> k_name row <> n) ->
  _actualizar_content_id archivo n c
  = Ok (_escribir_eventos (eventos_leidos archivo)).
Proof.
  intros archivo n c H. unfold _actualizar_content_id.
  rewrite modificar_primero_ausente; [reflexivity|].
  intros evento He. apply eventos_leidos_name in He.
  destruct He as (row & Hr & <-). now apply H.
Qed.

Lemma actualizar_docker_active_ausente : forall archivo n active,
  (forall row, In row archivo -> k_name row <> n) ->
  _actualizar_docker_active archivo n active
  = Ok (_escribir_eventos (eventos_leidos archivo)).
Proof.
  intros archivo n active H. unfold _actualizar_docker_active.
  rewrite modificar_primero_ausente; [reflexivity|].
  intros evento He. apply eventos_leidos_name in He.
  destruct He as (row & Hr & <-). now apply H.
Qed.

(** C5 (the code at the failing input). In the store that holds the one
    event [demo], an update of the event [ausente] raises through
    [actualizar_evento], while [_actualizar_content_id] and
    [_actualizar_docker_active] return normally and leave the store as
    it was; a start of [ausente] in a world without failures reports
    success although nothing was recorded. *)
Theorem actualizar_ausente_sin_error :
  existsb (fun row => String.eqb (k_name row) "ausente") archivo_demo = false /\
  actualizar_evento archivo_demo config_ausente
  = Error (Lanzada ValueError "Evento no encontrado para actualizar") /\
  _actualizar_content_id archivo_demo "ausente" "X123" = Ok archivo_demo /\
  _actualizar_docker_active archivo_demo "ausente" true = Ok archivo_demo /\
  iniciar_docker_evento (fun _ => true) mundo_sin_fallos config_ausente
    archivo_demo
  = (Ok "Evento 'ausente' iniciado correctamente con Content ID: X123",
     archivo_demo).
Proof. repeat split; vm_compute; reflexivity. Qed.

(** ** The orchestrator *)

Lemma limpiar_archivos_temporales_ok : forall fs nombre_volumen,
  exists n, fst (limpiar_archivos_temporales fs nombre_volumen) = Ok n.
Proof.
  intros fs v. unfold limpiar_archivos_temporales.
  destruct (limpiar_cuerpo fs v) as [[n|e] bs]; simpl; eauto.
Qed.

(** A [try] whose handler returns cannot raise. *)
Lemma intentar_devolver : forall A (x : Accion A) (h : Excepcion -> A) s,
  exists a s', intentar x (fun e => devolver (h e)) s = (Ok a, s').
Proof.
  intros A x h s. unfold intentar, devolver.
  destruct (x s) as [[a|e] s']; eauto.
Qed.

Section OrquestadorProps.

Variable ip_address : string -> bool.
Variable m : Mundo.
Variable config : EventoConfig.
Variable archivo : Archivo.

Local Notation "'inicio'" :=
  (iniciar_docker_evento ip_address m config archivo).
Local Notation "'falla' e" := (Ok (mensaje_error config e)) (at level 10).
Local Notation "'argv_ps'" := (argv_docker_ps (nombre config)).

Lemma inicio_validacion :
  validar ip_address config <> [] ->
  inicio = (Ok ("Errores de validación: "
                ++ repr_lista (validar ip_address config))%string, archivo).
Proof.
  intros H. unfold iniciar_docker_evento, intentar, inicio_cuerpo.
  destruct (validar ip_address config); [contradiction|reflexivity].
Qed.

Lemma inicio_reconciliacion : forall e,
  validar ip_address config = [] ->
  verificar_y_limpiar_contenedor m (nombre config) = Error e ->
  inicio = (falla e, archivo).
Proof.
  intros e Hv H. unfold iniciar_docker_evento, intentar, inicio_cuerpo.
  rewrite Hv. unfold luego, elevar. now rewrite H.
Qed.

Lemma inicio_construccion : forall e,
  validar ip_address config = [] ->
  verificar_y_limpiar_contenedor m (nombre config) = Ok tt ->
  _construir_comando_docker config = Error e ->
  inicio = (falla e, archivo).
Proof.
  intros e Hv H1 H2. unfold iniciar_docker_evento, intentar, inicio_cuerpo.
  rewrite Hv. unfold luego, elevar. rewrite H1.
  destruct (limpiar_archivos_temporales_ok (disco m)
              ("acestreamengine_" ++ nombre config)) as [n ->].
  now rewrite H2.
Qed.

Lemma inicio_lanzamiento : forall comando e,
  validar ip_address config = [] ->
  verificar_y_limpiar_contenedor m (nombre config) = Ok tt ->
  _construir_comando_docker config = Ok comando ->
  run_check (docker m comando) = Error e ->
  inicio = (falla e, archivo).
Proof.
  intros comando e Hv H1 H2 H3.
  unfold iniciar_docker_evento, intentar, inicio_cuerpo.
  rewrite Hv. unfold luego, elevar. rewrite H1.
  destruct (limpiar_archivos_temporales_ok (disco m)
              ("acestreamengine_" ++ nombre config)) as [n ->].
  now rewrite H2, H3.
Qed.

Lemma inicio_resolucion : forall comando out e,
  validar ip_address config = [] ->
  verificar_y_limpiar_contenedor m (nombre config) = Ok tt ->
  _construir_comando_docker config = Ok comando ->
  run_check (docker m comando) = Ok out ->
  run_check (docker m argv_ps) = Error e ->
  inicio = (falla e, archivo).
Proof.
  intros comando out e Hv H1 H2 H3 H4.
  unfold iniciar_docker_evento, intentar, inicio_cuerpo.
  rewrite Hv. unfold luego, elevar. rewrite H1.
  destruct (limpiar_archivos_temporales_ok (disco m)
              ("acestreamengine_" ++ nombre config)) as [n ->].
  rewrite H2, H3. now rewrite H4.
Qed.

Lemma inicio_sondeo : forall comando out resultado e,
  validar ip_address config = [] ->
  verificar_y_limpiar_contenedor m (nombre config) = Ok tt ->
  _construir_comando_docker config = Ok comando ->
  run_check (docker m comando) = Ok out ->
  run_check (docker m argv_ps) = Ok resultado ->
  fst (obtener_monitor (monitor m) (strip resultado) (puerto config) 10)
  = Error e ->
  inicio = (falla e, archivo).
Proof.
  intros comando out resultado e Hv H1 H2 H3 H4 H5.
  unfold iniciar_docker_evento, intentar, inicio_cuerpo.
  rewrite Hv. unfold luego, elevar. rewrite H1.
  destruct (limpiar_archivos_temporales_ok (disco m)
              ("acestreamengine_" ++ nombre config)) as [n ->].
  rewrite H2, H3. now rewrite H4, H5.
Qed.

Lemma inicio_persistencia : forall comando out resultado info,
  validar ip_address config = [] ->
  verificar_y_limpiar_contenedor m (nombre config) = Ok tt ->
  _construir_comando_docker config = Ok comando ->
  run_check (docker m comando) = Ok out ->
  run_check (docker m argv_ps) = Ok resultado ->
  fst (obtener_monitor (monitor m) (strip resultado) (puerto config) 10)
  = Ok info ->
  inicio =
  match fallo_store m 0 with
  | Some f => (falla (f_excepcion f), resto_tras f archivo)
  | None =>
      match _actualizar_content_id archivo (nombre config)
              (m_content_id info) with
      | Error e => (falla e, archivo)
      | Ok archivo1 =>
          match fallo_store m 1 with
          | Some f => (falla (f_excepcion f), resto_tras f archivo1)
          | None =>
              match _actualizar_docker_active archivo1 (nombre config) true
              with
              | Error e => (falla e, archivo1)
              | Ok archivo2 =>
                  (Ok ("Evento '" ++ nombre config
                       ++ "' iniciado correctamente con Content ID: "
                       ++ m_content_id info)%string, archivo2)
              end
          end
      end
  end.
Proof.
  intros comando out resultado info Hv H1 H2 H3 H4 H5.
  unfold iniciar_docker_evento, intentar, inicio_cuerpo.
  rewrite Hv. unfold luego, elevar. rewrite H1.
  destruct (limpiar_archivos_temporales_ok (disco m)
              ("acestreamengine_" ++ nombre config)) as [n ->].
  rewrite H2, H3. rewrite H4, H5.
  unfold guardar. destruct (fallo_store m 0); [reflexivity|].
  destruct (_actualizar_content_id archivo (nombre config) (m_content_id info));
    [|reflexivity].
  destruct (fallo_store m 1); [reflexivity|].
  destruct (_actualizar_docker_active a (nombre config) true); reflexivity.
Qed.

End OrquestadorProps.

(** C4. [iniciar_docker_evento] never raises: it returns a string.
    Whatever exception the body of its [try] raises, the string returned
    is ["Error al iniciar evento <name>: <text of the exception>"], and
    the store is as the body left it. Step by step: a validation
    failure returns the list of violations; a failure of
    reconciliation, of the command builder, of the launch, of the
    resolution of the container id, of the readiness poll or of either
    store update is returned as that failure string. (The cleanup
    cannot raise.) *)
Theorem iniciar_docker_evento_no_propaga :
  forall (ip_address : string -> bool) (m : Mundo) (config : EventoConfig)
         (archivo : Archivo),
  (exists msg archivo',
     iniciar_docker_evento ip_address m config archivo = (Ok msg, archivo')) /\
  (forall e archivo',
     inicio_cuerpo ip_address m config archivo = (Error e, archivo') ->
     iniciar_docker_evento ip_address m config archivo
     = (Ok (mensaje_error config e), archivo')) /\
  (validar ip_address config <> [] ->
   iniciar_docker_evento ip_address m config archivo
   = (Ok ("Errores de validación: "
          ++ repr_lista (validar ip_address config))%string, archivo)) /\
  (validar ip_address config = [] ->
   (forall e,
      verificar_y_limpiar_contenedor m (nombre config) = Error e ->
      iniciar_docker_evento ip_address m config archivo
      = (Ok (mensaje_error config e), archivo)) /\
   (verificar_y_limpiar_contenedor m (nombre config) = Ok tt ->
    (exists n,
       fst (limpiar_archivos_temporales (disco m)
              ("acestreamengine_" ++ nombre config)) = Ok n) /\
    (forall e,
       _construir_comando_docker config = Error e ->
       iniciar_docker_evento ip_address m config archivo
       = (Ok (mensaje_error config e), archivo)) /\
    (forall comando,
       _construir_comando_docker config = Ok comando ->
       (forall e,
          run_check (docker m comando) = Error e ->
          iniciar_docker_evento ip_address m config archivo
          = (Ok (mensaje_error config e), archivo)) /\
       (forall out,
          run_check (docker m comando) = Ok out ->
          (forall e,
             run_check (docker m (argv_docker_ps (nombre config))) = Error e ->
             iniciar_docker_evento ip_address m config archivo
             = (Ok (mensaje_error config e), archivo)) /\
          (forall resultado,
             run_check (docker m (argv_docker_ps (nombre config)))
             = Ok resultado ->
             (forall e,
                fst (obtener_monitor (monitor m) (strip resultado)
                       (puerto config) 10) = Error e ->
                iniciar_docker_evento ip_address m config archivo
                = (Ok (mensaje_error config e), archivo)) /\
             (forall info,
                fst (obtener_monitor (monitor m) (strip resultado)
                       (puerto config) 10) = Ok info ->
                (forall f,
                   fallo_store m 0 = Some f ->
                   iniciar_docker_evento ip_address m config archivo
                   = (Ok (mensaje_error config (f_excepcion f)),
                      resto_tras f archivo)) /\
                (forall f archivo1,
                   fallo_store m 0 = None ->
                   _actualizar_content_id archivo (nombre config)
                     (m_content_id info) = Ok archivo1 ->
                   fallo_store m 1 = Some f ->
                   iniciar_docker_evento ip_address m config archivo
                   = (Ok (mensaje_error config (f_excepcion f)),
                      resto_tras f archivo1)))))))).
Proof.
  intros ip m config archivo. split; [apply intentar_devolver|]. split.
  { intros e archivo' H. unfold iniciar_docker_evento, intentar.
    now rewrite H. }
  split; [apply inicio_validacion|].
  intros Hv. split; [intros e; now apply inicio_reconciliacion|].
  intros H1. split; [apply limpiar_archivos_temporales_ok|].
  split; [intros e; now apply inicio_construccion|].
  intros comando H2. split; [intros e; now apply inicio_lanzamiento|].
  intros out H3.
  split; [intros e; now apply (inicio_resolucion _ _ _ _ comando out)|].
  intros resultado H4.
  split; [intros e; now apply (inicio_sondeo _ _ _ _ comando out resultado)|].
  intros info H5.
  assert (P := inicio_persistencia ip m config archivo comando out resultado
                 info Hv H1 H2 H3 H4 H5).
  split.
  - intros f Hf. rewrite P, Hf. reflexivity.
  - intros f archivo1 H0 Hc Hf. rewrite P, H0, Hc, Hf. reflexivity.
Qed.

(** ** JSON: decoding what was encoded *)

Lemma append_asociativa : forall a b c : string,
  ((a ++ b) ++ c)%string = (a ++ (b ++ c))%string.
Proof.
  induction a as [|x a IH]; intros b c; simpl; [reflexivity|]. now rewrite IH.
Qed.

Lemma append_vacio_r : forall a : string, (a ++ "")%string = a.
Proof. induction a as [|x a IH]; simpl; [reflexivity|]. now rewrite IH. Qed.

Lemma length_append : forall a b : string,
  String.length (a ++ b) = String.length a + String.length b.
Proof.
  induction a as [|x a IH]; intros b; simpl; [reflexivity|]. now rewrite IH.
Qed.

(** Reading the escape of a character gives the character back. *)
Lemma leer_cadena_escapar_car : forall c s,
  leer_cadena (escapar_car c ++ s) = anteponer c (leer_cadena s).
Proof.
  intros c s.
  destruct c as [[|] [|] [|] [|] [|] [|] [|] [|]]; reflexivity.
Qed.

Lemma leer_cadena_escapar : forall s resto,
  leer_cadena (escapar s ++ String comilla resto) = Some (s, resto).
Proof.
  induction s as [|c s IH]; intros resto.
  - reflexivity.
  - simpl escapar. rewrite append_asociativa, leer_cadena_escapar_car, IH.
    reflexivity.
Qed.

Lemma literal_append : forall s resto,
  (literal s ++ resto)%string
  = String comilla (escapar s ++ String comilla resto).
Proof.
  intros s resto. unfold literal. simpl. now rewrite append_asociativa.
Qed.

Lemma dumps_fuente_append : forall f resto,
  (dumps_fuente f ++ resto)%string =
  String "{" (literal "source" ++ (String ":" (String " " (literal (source f)
    ++ (String "," (String " " (literal "valid" ++ (String ":" (String " "
    ((if valid f then "true" else "false") ++ String "}" resto))))))))))%string.
Proof.
  intros f resto. unfold dumps_fuente.
  rewrite !append_asociativa. reflexivity.
Qed.

Lemma leer_fuente_dumps : forall f resto,
  leer_fuente (dumps_fuente f ++ resto) = Some (f, resto).
Proof.
  intros [url b] resto. rewrite dumps_fuente_append, !literal_append.
  unfold leer_fuente, leer_miembro, leer_literal, esperar. simpl.
  rewrite leer_cadena_escapar. destruct b; reflexivity.
Qed.

Lemma dumps_fuente_inicio : forall f resto,
  exists s, (dumps_fuente f ++ resto)%string = String "{" s.
Proof. intros f resto. rewrite dumps_fuente_append. now eexists. Qed.

Lemma leer_elementos_S : forall n s,
  leer_elementos (S n) s =
  match leer_fuente s with
  | None => None
  | Some (f, r) =>
      match saltar_blancos r with
      | String d r' =>
          if Ascii.eqb d "," then
            match leer_elementos n r' with
            | Some (l, r'') => Some (f :: l, r'')
            | None => None
            end
          else if Ascii.eqb d "]" then Some ([f], r')
          else None
      | EmptyString => None
      end
  end.
Proof. reflexivity. Qed.

Lemma leer_elementos_blanco : forall n s,
  leer_elementos n (String " " s) = leer_elementos n s.
Proof. intros [|n] s; reflexivity. Qed.

Lemma leer_elementos_dumps : forall l f n resto,
  length l < n ->
  leer_elementos n (dumps_fuente f ++ dumps_resto l ++ resto)
  = Some (f :: l, resto).
Proof.
  induction l as [|g l IH]; intros f n resto Hn.
  - destruct n as [|n]; [lia|].
    rewrite leer_elementos_S, leer_fuente_dumps. reflexivity.
  - destruct n as [|n]; [simpl in Hn; lia|].
    rewrite leer_elementos_S, leer_fuente_dumps.
    change (saltar_blancos (dumps_resto (g :: l) ++ resto))
      with (String "," (String " "
              ((dumps_fuente g ++ dumps_resto l) ++ resto)%string)).
    cbv iota beta. change (Ascii.eqb "," ",") with true. cbv iota.
    rewrite leer_elementos_blanco, append_asociativa, IH
      by (simpl in Hn; lia).
    reflexivity.
Qed.

Lemma dumps_resto_length : forall l,
  length l <= String.length (dumps_resto l).
Proof.
  induction l as [|f l IH]; simpl; [lia|].
  rewrite length_append. lia.
Qed.

(** Decoding the encoding of a list gives the list. *)
Lemma json_loads_dumps : forall l, json_loads (json_dumps l) = Some l.
Proof.
  intros [|f l]; [reflexivity|].
  unfold json_loads, json_dumps.
  change (esperar "[" ("[" ++ dumps_fuente f ++ dumps_resto l))
    with (Some (dumps_fuente f ++ dumps_resto l)%string).
  cbv iota beta.
  destruct (dumps_fuente_inicio f (dumps_resto l)) as [s Hs].
  rewrite Hs at 1. simpl saltar_blancos. cbv iota beta.
  change (Ascii.eqb "{" "]") with false. cbv iota.
  rewrite <- (append_vacio_r (dumps_resto l)) at 2.
  rewrite leer_elementos_dumps; [reflexivity|].
  rewrite length_append. pose proof (dumps_resto_length l). lia.
Qed.

Lemma json_dumps_no_vacio : forall l, vacio (json_dumps l) = false.
Proof. now intros [|f l]. Qed.

Lemma decodificar_sources_dumps : forall l,
  decodificar_sources (json_dumps l) = l.
Proof.
  intros l. unfold decodificar_sources.
  now rewrite json_dumps_no_vacio, json_loads_dumps.
Qed.

(** ** Writing a record and reading it back *)

Lemma listar_eventos_app : forall a b,
  listar_eventos (a ++ b) = listar_eventos a ++ listar_eventos b.
Proof. intros a b. unfold listar_eventos. apply map_app. Qed.

Lemma agregar_evento_leido : forall archivo config,
  exists evento,
    listar_eventos (agregar_evento archivo config)
    = listar_eventos archivo ++ [evento] /\
    k_name evento = nombre config /\
    k_sources evento = sources config.
Proof.
  intros archivo config. unfold agregar_evento. rewrite listar_eventos_app.
  eexists. split; [reflexivity|]. simpl.
  rewrite decodificar_sources_dumps. auto.
Qed.

Lemma en_limite_agregar : forall archivo config,
  en_limite (agregar_evento archivo config)
  = en_limite archivo && config_en_limite config.
Proof.
  intros archivo config. unfold en_limite, agregar_evento.
  rewrite forallb_app. simpl. now rewrite andb_true_r.
Qed.

Lemma listar_eventos_csv_en_limite : forall archivo,
  en_limite archivo = true ->
  listar_eventos_csv archivo = Ok (listar_eventos archivo).
Proof.
  intros archivo H. unfold listar_eventos_csv, leer_csv. now rewrite H.
Qed.

Lemma listar_eventos_csv_fuera : forall archivo,
  en_limite archivo = false ->
  listar_eventos_csv archivo = Error campo_demasiado_largo.
Proof.
  intros archivo H. unfold listar_eventos_csv, leer_csv. now rewrite H.
Qed.

(** C6 (amended). When every field of the store and of the row written
    for the configuration is within the limit of the csv reader, after
    [agregar_evento] has written the configuration [listar_eventos]
    returns the records that were there followed by one record with
    the name of the configuration, and the [sources] of that record are
    the written sequence: same length, same order, same [source] and
    [valid] in each entry. *)
Theorem agregar_evento_listar_sources :
  forall (archivo : Archivo) (config : EventoConfig),
  en_limite archivo = true ->
  config_en_limite config = true ->
  exists evento,
    listar_eventos_csv (agregar_evento archivo config)
    = Ok (listar_eventos archivo ++ [evento]) /\
    k_name evento = nombre config /\
    k_sources evento = sources config /\
    length (k_sources evento) = length (sources config) /\
    (forall i, nth_error (k_sources evento) i = nth_error (sources config) i).
Proof.
  intros archivo config Hl Hc.
  destruct (agregar_evento_leido archivo config) as (evento & He & Hn & Hs).
  exists evento. rewrite listar_eventos_csv_en_limite, He, Hs.
  - auto.
  - now rewrite en_limite_agregar, Hl, Hc.
Qed.

(** C6, as stated, fails: [config_titulo_largo] passes [validar], is
    written to the empty store, which [listar_eventos] reads, and after
    that [listar_eventos] raises the exception of the csv reader. *)
Lemma agregar_evento_campo_largo :
  validar (fun _ => false) config_titulo_largo = [] /\
  listar_eventos_csv [] = Ok [] /\
  listar_eventos_csv (agregar_evento [] config_titulo_largo)
  = Error campo_demasiado_largo.
Proof.
  split; [vm_compute; reflexivity|]. split; [reflexivity|].
  vm_compute. reflexivity.
Qed.

(** The amended C6 for [config_demo] written to the empty store. *)
Lemma agregar_evento_listar_sources_witness :
  exists evento,
    listar_eventos_csv (agregar_evento [] config_demo) = Ok [evento] /\
    k_sources evento = sources config_demo.
Proof.
  destruct (agregar_evento_listar_sources [] config_demo eq_refl eq_refl)
    as (evento & Hl & _ & Hs & _).
  exists evento. split; [exact Hl|exact Hs].
Defined.

(** ** The source validator on the store *)

(** ** Stores in the program's format *)

Lemma canonico_legible : forall archivo, canonico archivo -> legible archivo.
Proof.
  intros archivo H. unfold legible. apply Forall_forall. intros row Hr.
  destruct (proj1 (Forall_forall _ _) H row Hr) as [l Hl].
  right. exists l. rewrite Hl. apply json_loads_dumps.
Qed.

Lemma legible_demo : legible archivo_demo.
Proof.
  apply canonico_legible. unfold archivo_demo, agregar_evento. simpl app.
  constructor; [|constructor]. now exists (sources config_demo).
Qed.

Lemma revisar_evento_solo_valid : forall is_valid_source archivo,
  Forall2 solo_valid
    (listar_eventos archivo)
    (listar_eventos (map (revisar_evento is_valid_source) archivo)).
Proof.
  intros ivs archivo.
  induction archivo as [|row archivo IH]; simpl; constructor; [|exact IH].
  rewrite decodificar_sources_dumps. unfold solo_valid. simpl.
  rewrite revisar_fuentes_eq, marcar_fuentes_length, marcar_fuentes_source.
  repeat split; reflexivity.
Qed.

Lemma registro_campos : forall row : Fila, registro (campos row) = row.
Proof. intros []. reflexivity. Qed.

Lemma dict_de_diez : forall fila : FilaCsv,
  length fila = 10 ->
  dict_de_fila fila = (registro fila, []) /\ campos (registro fila) = fila /\
  sin_campos fila = false.
Proof.
  intros fila H.
  do 10 (destruct fila as [|? fila]; [discriminate H|]).
  destruct fila; [|discriminate H]. repeat split.
Qed.

Lemma escribir_dicts_diez : forall (f : Fila -> Fila) (filas : ArchivoCsv),
  Forall (fun fila => length fila = 10) filas ->
  escribir_dicts
    (map (fun d => (f (fst d), snd d))
         (map dict_de_fila (filter (fun fila => negb (sin_campos fila)) filas)))
  = (Ok tt, map (fun fila => campos (f (registro fila))) filas).
Proof.
  intros f filas H. induction H as [|fila filas Hf _ IH]; [reflexivity|].
  destruct (dict_de_diez fila Hf) as (Hd & _ & Hs).
  cbn [filter]. rewrite Hs. cbn [negb map]. rewrite Hd.
  cbn [fst snd escribir_dicts]. now rewrite IH.
Qed.

(** The validator from the file to the file, on rows of ten fields
    within the reader's limit: it raises nothing and writes, row by
    row, what [revisar_evento] makes of the record. *)
Lemma check_sources_csv_diez : forall is_valid_source (filas : ArchivoCsv),
  Forall (fun fila => length fila = 10) filas ->
  forallb (forallb campo_en_limite) filas = true ->
  check_sources_csv is_valid_source (Some filas)
  = (Ok tt,
     Some (map (fun fila =>
                  campos (revisar_evento is_valid_source (registro fila)))
               filas)).
Proof.
  intros ivs filas Hd Hl. unfold check_sources_csv. rewrite Hl.
  now rewrite (escribir_dicts_diez (revisar_evento ivs) filas Hd).
Qed.

(** On the rows of a file of records within the reader's limit, the
    validator from the file to the file writes the rows of what
    [check_sources] gives. *)
Lemma check_sources_csv_archivo : forall is_valid_source (archivo : Archivo),
  en_limite archivo = true ->
  check_sources_csv is_valid_source (Some (map campos archivo))
  = (Ok tt,
     option_map (map campos) (check_sources is_valid_source (Some archivo))).
Proof.
  intros ivs archivo H. rewrite check_sources_csv_diez.
  - simpl. rewrite !map_map. apply f_equal, f_equal, map_ext. intros row.
    now rewrite registro_campos.
  - apply Forall_forall. intros fila Hf. apply in_map_iff in Hf.
    destruct Hf as (row & <- & _). reflexivity.
  - unfold en_limite in H. rewrite forallb_forall in H.
    apply forallb_forall. intros fila Hf. apply in_map_iff in Hf.
    destruct Hf as (row & <- & Hr). exact (H row Hr).
Qed.


(** X24. On a file in the program's format (rows of ten fields, every
    field within the reader's limit, every [sources] column empty or a
    list of entries), a run of [check_sources] raises nothing and
    writes a file with one row of ten fields for each row it read, in
    the same order; read back, each row has the nine columns other than
    [sources] as they were, and its sources have the same number of
    entries with the same URLs in the same order: only [valid] flags
    change. *)
Theorem check_sources_solo_cambia_valid :
  forall (is_valid_source : string -> bool) (filas : ArchivoCsv),
  Forall (fun fila => length fila = 10) filas ->
  forallb (forallb campo_en_limite) filas = true ->
  legible (map registro filas) ->
  exists filas',
    check_sources_csv is_valid_source (Some filas) = (Ok tt, Some filas') /\
    Forall (fun fila => length fila = 10) filas' /\
    length filas' = length filas /\
    map (fun fila => k_name (registro fila)) filas'
    = map (fun fila => k_name (registro fila)) filas /\
    Forall2 solo_valid
      (listar_eventos (map registro filas))
      (listar_eventos (map registro filas')).
Proof.
  intros ivs filas Hd Hl _. eexists.
  split; [now apply check_sources_csv_diez|]. split; [|split; [|split]].
  - apply Forall_forall. intros fila Hf. apply in_map_iff in Hf.
    destruct Hf as (x & <- & _). reflexivity.
  - apply length_map.
  - rewrite map_map. apply map_ext. intros fila.
    now rewrite registro_campos.
  - rewrite map_map.
    erewrite (map_ext (fun x => registro (campos _))
                (fun x => revisar_evento ivs (registro x)))
      by (intros; apply registro_campos).
    rewrite <- (map_map registro (revisar_evento ivs)).
    apply revisar_evento_solo_valid.
Qed.

(** The property for the file that holds the record [demo]. *)
Lemma check_sources_solo_cambia_valid_witness :
  exists filas',
    check_sources_csv (fun _ => true)
      (Some [campos (fila_de_config config_demo)])
    = (Ok tt, Some filas') /\
    Forall2 solo_valid
      (listar_eventos [fila_de_config config_demo])
      (listar_eventos (map registro filas')).
Proof.
  destruct (check_sources_solo_cambia_valid (fun _ => true)
              [campos (fila_de_config config_demo)])
    as (filas' & H1 & _ & _ & _ & H2).
  - constructor; [reflexivity|constructor].
  - reflexivity.
  - exact legible_demo.
  - exists filas'. split; [exact H1|exact H2].
Defined.

(** ** Stripping *)

Lemma rstrip_no_espacio : forall c r,
  es_espacio c = false -> rstrip (String c r) = String c (rstrip r).
Proof. intros c r H. simpl. rewrite H. now destruct (rstrip r). Qed.

Lemma rstrip_idempotente : forall s, rstrip (rstrip s) = rstrip s.
Proof.
  induction s as [|c s IH]; [reflexivity|]. simpl.
  destruct (rstrip s) as [|d r] eqn:E.
  - destruct (es_espacio c) eqn:Ec; [reflexivity|]. simpl. now rewrite Ec.
  - change (rstrip (String c (String d r))) with
      (match rstrip (String d r) with
       | EmptyString => if es_espacio c then EmptyString else String c EmptyString
       | r' => String c r'
       end).
    now rewrite IH.
Qed.

Lemma lstrip_inicio : forall s,
  lstrip s = EmptyString \/
  exists c r, lstrip s = String c r /\ es_espacio c = false.
Proof.
  induction s as [|c s IH]; simpl; [now left|].
  destruct (es_espacio c) eqn:E; [exact IH|]. right. now exists c, s.
Qed.

(** [strip] does nothing more on text that is already stripped. *)
Lemma strip_idempotente : forall s, strip (strip s) = strip s.
Proof.
  intros s. unfold strip.
  destruct (lstrip_inicio s) as [->|(c & r & -> & Hc)]; [reflexivity|].
  rewrite (rstrip_no_espacio c r Hc). simpl lstrip. rewrite Hc.
  rewrite <- (rstrip_no_espacio c r Hc). apply rstrip_idempotente.
Qed.

Lemma vacio_false : forall s, vacio s = false <-> s <> "".
Proof. intros [|c s]; simpl; split; congruence. Qed.

(** ** Records written through the web handlers *)

Lemma fuentes_de_formulario_recien_escritas : forall fuentes,
  recien_escritas (fuentes_de_formulario fuentes).
Proof.
  intros fuentes f H. unfold fuentes_de_formulario in H.
  apply in_map_iff in H. destruct H as (s & <- & Hs).
  apply filter_In in Hs. destruct Hs as [_ Hs]. simpl.
  rewrite strip_idempotente. split; [reflexivity|].
  apply vacio_false. now apply negb_true_iff.
Qed.

Lemma recien_escritas_sin_comando : forall config,
  recien_escritas (sources config) ->
  _construir_comando_docker config = Error sin_fuente_valida.
Proof.
  intros config H. unfold _construir_comando_docker.
  rewrite primera_valida_ninguna; [reflexivity|]. intros f Hf. now apply H.
Qed.

Lemma modificar_primero_descompone : forall S n (f : Registro S -> Registro S)
  (l l' : list (Registro S)),
  modificar_primero n f l = (l', true) ->
  exists antes viejo despues,
    l = antes ++ viejo :: despues /\
    (forall e, In e antes -> k_name e <> n) /\
    k_name viejo = n /\
    l' = antes ++ f viejo :: despues.
Proof.
  intros S n f. induction l as [|e l IH]; intros l' H; simpl in H.
  - discriminate.
  - destruct (String.eqb (k_name e) n) eqn:E.
    + injection H as <-. apply String.eqb_eq in E.
      exists [], e, l. repeat split; [intros ? []|assumption].
    + destruct (modificar_primero n f l) as [r u] eqn:Er.
      injection H as <- ->.
      destruct (IH r eq_refl) as (antes & viejo & despues & -> & Ha & Hv & ->).
      exists (e :: antes), viejo, despues. repeat split; try assumption.
      intros x [<-|Hx]; [now apply String.eqb_neq|now apply Ha].
Qed.

Lemma releer_leido : forall evento : Evento,
  releer (con_sources evento (Lista (k_sources evento))) = evento.
Proof.
  intros [n t p tok tr src h b c a]. unfold releer. simpl.
  now rewrite decodificar_sources_dumps.
Qed.

Lemma listar_escribir : forall eventos,
  listar_eventos (_escribir_eventos eventos) = map releer eventos.
Proof.
  intros eventos. unfold listar_eventos, _escribir_eventos.
  rewrite map_map. reflexivity.
Qed.

Lemma map_releer_leidos : forall l : list Evento,
  map releer (map (fun e => con_sources e (Lista (k_sources e))) l) = l.
Proof.
  induction l as [|e l IH]; simpl; [reflexivity|].
  now rewrite releer_leido, IH.
Qed.

(** What [actualizar_evento] does to the store, seen through
    [listar_eventos]: the first record with the name is replaced, the
    others read as before. *)
Lemma actualizar_evento_listar : forall archivo config archivo',
  actualizar_evento archivo config = Ok archivo' ->
  exists antes viejo despues,
    listar_eventos archivo = antes ++ viejo :: despues /\
    (forall e, In e antes -> k_name e <> nombre config) /\
    k_name viejo = nombre config /\
    listar_eventos archivo'
    = antes ++ evento_actualizado config viejo :: despues.
Proof.
  intros archivo config archivo' H. unfold actualizar_evento in H.
  destruct (modificar_primero (nombre config) (evento_de_config config)
              (eventos_leidos archivo)) as [l' [|]] eqn:E; [|discriminate].
  injection H as <-.
  apply modificar_primero_descompone in E.
  destruct E as (antes & viejo & despues & Hl & Ha & Hv & ->).
  unfold eventos_leidos in Hl.
  apply map_eq_app in Hl. destruct Hl as (a & r & Hlist & <- & Hr).
  apply map_eq_cons in Hr. destruct Hr as (v & d & -> & <- & <-).
  exists a, v, d. rewrite listar_escribir, map_app. simpl.
  rewrite !map_releer_leidos. repeat split.
  - exact Hlist.
  - intros e He. apply (Ha (con_sources e (Lista (k_sources e)))).
    apply (in_map (fun x : Evento => con_sources x (Lista (k_sources x)))).
    exact He.
  - exact Hv.
  - f_equal. f_equal. unfold releer, evento_de_config, evento_actualizado.
    simpl. now rewrite decodificar_sources_dumps.
Qed.

Section WebProps.

Variable ip_address : string -> bool.
Variable int_de_texto : string -> option Z.

Lemma config_de_formulario_sources : forall n form c a config,
  config_de_formulario int_de_texto n form c a = Ok config ->
  nombre config = n /\
  sources config = fuentes_de_formulario (f_sources form).
Proof.
  intros n form c a config H. unfold config_de_formulario, ligar in H.
  destruct (int_o int_de_texto (f_puerto form) 8642); [|discriminate].
  destruct (int_o int_de_texto (f_bitrate form) 697587); [|discriminate].
  injection H as <-. now split.
Qed.

Lemma config_de_evento_sources : forall evento config,
  config_de_evento int_de_texto evento = Ok config ->
  sources config = k_sources evento.
Proof.
  intros evento config H. unfold config_de_evento, ligar in H.
  destruct (int_ int_de_texto (k_port evento)); [|discriminate].
  destruct (int_ int_de_texto (k_bitrate evento)); [|discriminate].
  now injection H as <-.
Qed.

Lemma sin_comando_para : forall l,
  recien_escritas l ->
  (forall config, sources config = l ->
     _construir_comando_docker config = Error sin_fuente_valida) /\
  (forall evento config,
     k_sources evento = l ->
     config_de_evento int_de_texto evento = Ok config ->
     _construir_comando_docker config = Error sin_fuente_valida).
Proof.
  intros l Hl. split.
  - intros config <-. now apply recien_escritas_sin_comando.
  - intros evento config <- H. apply recien_escritas_sin_comando.
    now rewrite (config_de_evento_sources _ _ H).
Qed.

Lemma new_event_escribe : forall peticion archivo r archivo',
  new_event ip_address int_de_texto peticion archivo = (r, archivo') ->
  archivo' = archivo \/
  exists config,
    archivo' = agregar_evento archivo config /\
    sources config = fuentes_de_formulario
                       (match peticion with
                        | MetodoPOST form => f_sources form
                        | MetodoGET => []
                        end).
Proof.
  intros peticion archivo r archivo' H. unfold new_event in H.
  destruct peticion as [|form]; [injection H as _ <-; now left|].
  destruct (config_de_formulario int_de_texto (strip (f_nombre form)) form
              "" "False") as [config|e] eqn:Ec;
    [|injection H as _ <-; now left].
  destruct (validar ip_address config); injection H as _ <-; [|now left].
  right. exists config. split; [reflexivity|].
  now apply config_de_formulario_sources in Ec.
Qed.

Lemma edit_event_escribe : forall n peticion archivo r archivo',
  edit_event ip_address int_de_texto n peticion archivo = (r, archivo') ->
  archivo' = archivo \/
  exists config,
    actualizar_evento archivo config = Ok archivo' /\
    nombre config = n /\
    sources config = fuentes_de_formulario
                       (match peticion with
                        | MetodoPOST form => f_sources form
                        | MetodoGET => []
                        end).
Proof.
  intros n peticion archivo r archivo' H. unfold edit_event in H.
  destruct (buscar_evento n (listar_eventos archivo)) as [evento|];
    [|injection H as _ <-; now left].
  destruct peticion as [|form]; [injection H as _ <-; now left|].
  destruct (config_de_formulario int_de_texto n form (k_content_id evento)
              (k_docker_active evento)) as [config|e] eqn:Ec;
    [|injection H as _ <-; now left].
  destruct (validar ip_address config);
    [|injection H as _ <-; now left].
  destruct (actualizar_evento archivo config) as [a|e] eqn:Ea;
    injection H as _ <-; [|now left].
  right. exists config. split; [exact Ea|].
  now apply config_de_formulario_sources in Ec.
Qed.

End WebProps.

(** C9. Whenever [new_event] or [edit_event] changes the store, the
    record it wrote ([new_event]: the one appended; [edit_event]: the
    first one with the name, replaced) has sources of which none is
    valid and none has a URL that is empty once stripped; for every
    configuration with those sources, and for the one [start_event]
    builds from the record, the command builder fails for want of a
    valid source. *)
Theorem eventos_web_sin_fuente_valida :
  forall (ip_address : string -> bool) (int_de_texto : string -> option Z),
  (forall peticion archivo r archivo',
     new_event ip_address int_de_texto peticion archivo = (r, archivo') ->
     archivo' = archivo \/
     exists evento,
       listar_eventos archivo' = listar_eventos archivo ++ [evento] /\
       recien_escritas (k_sources evento) /\
       (forall config, sources config = k_sources evento ->
          _construir_comando_docker config = Error sin_fuente_valida) /\
       (forall config, config_de_evento int_de_texto evento = Ok config ->
          _construir_comando_docker config = Error sin_fuente_valida)) /\
  (forall n peticion archivo r archivo',
     edit_event ip_address int_de_texto n peticion archivo = (r, archivo') ->
     archivo' = archivo \/
     exists antes viejo nuevo despues,
       listar_eventos archivo = antes ++ viejo :: despues /\
       listar_eventos archivo' = antes ++ nuevo :: despues /\
       (forall e, In e antes -> k_name e <> n) /\
       k_name viejo = n /\ k_name nuevo = n /\
       recien_escritas (k_sources nuevo) /\
       (forall config, sources config = k_sources nuevo ->
          _construir_comando_docker config = Error sin_fuente_valida) /\
       (forall config, config_de_evento int_de_texto nuevo = Ok config ->
          _construir_comando_docker config = Error sin_fuente_valida)).
Proof.
  intros ip int_de_texto. split.
  - intros peticion archivo r archivo' H.
    apply new_event_escribe in H. destruct H as [H|(config & -> & Hs)];
      [now left|right].
    destruct (agregar_evento_leido archivo config) as (evento & Hl & _ & He).
    exists evento. split; [exact Hl|].
    assert (Hr : recien_escritas (k_sources evento))
      by (rewrite He, Hs; apply fuentes_de_formulario_recien_escritas).
    destruct (sin_comando_para int_de_texto _ Hr) as [H1 H2].
    split; [exact Hr|]. split; [exact H1|].
    intros config' Hc. now apply (H2 evento).
  - intros n peticion archivo r archivo' H.
    apply edit_event_escribe in H.
    destruct H as [H|(config & Ha & Hn & Hs)]; [now left|right].
    apply actualizar_evento_listar in Ha.
    destruct Ha as (antes & viejo & despues & Hl & Hantes & Hv & Hl').
    exists antes, viejo, (evento_actualizado config viejo), despues.
    assert (Hr : recien_escritas
                   (k_sources (evento_actualizado config viejo)))
      by (simpl; rewrite Hs; apply fuentes_de_formulario_recien_escritas).
    destruct (sin_comando_para int_de_texto _ Hr) as [H1 H2].
    rewrite Hn in *.
    split; [exact Hl|]. split; [exact Hl'|]. split; [exact Hantes|].
    split; [exact Hv|]. split; [exact Hv|]. split; [exact Hr|].
    split; [exact H1|].
    intros config' Hc. now apply (H2 (evento_actualizado config viejo)).
Qed.

(** ** The properties at sample inputs *)

(** C2, as stated, fails in three ways, each on a configuration that
    passes [validar] and has a valid entry. For the name [--source] the
    command has three values of [--source], not one. For a title that
    reads as a port mapping it has three port-mapping tokens, not two.
    When the first valid entry has an empty URL the builder raises
    instead of emitting a command. *)
Lemma construir_comando_docker_cuentas :
  (validar (fun _ => false) config_nombre_opcion = [] /\
   existsb valid (sources config_nombre_opcion) = true /\
   exists cmd,
     _construir_comando_docker config_nombre_opcion = Ok cmd /\
     valores_opcion "--source" cmd = ["-p"; "--title"; "b"]) /\
  (validar (fun _ => false) config_titulo_mapeo = [] /\
   existsb valid (sources config_titulo_mapeo) = true /\
   exists cmd,
     _construir_comando_docker config_titulo_mapeo = Ok cmd /\
     filter (es_mapeo 8642) cmd
     = ["8642:8642/tcp"; "8642:8642/udp"; "8642:8642/tcp"]) /\
  (validar (fun _ => false) config_url_en_blanco = [] /\
   existsb valid (sources config_url_en_blanco) = true /\
   _construir_comando_docker config_url_en_blanco = Error sin_fuente_valida).
Proof.
  split; [|split].
  - split; [reflexivity|]. split; [reflexivity|].
    eexists. split; reflexivity.
  - split; [reflexivity|]. split; [reflexivity|].
    eexists. split; reflexivity.
  - split; [reflexivity|]. split; reflexivity.
Qed.

(** The amended C2 at [config_demo]: the command has the one [--source]
    value [b] and the two port mappings of port 8642. *)
Lemma construir_comando_docker_primera_valida_witness :
  exists cmd,
    _construir_comando_docker config_demo = Ok cmd /\
    valores_opcion "--source" cmd = ["b"] /\
    filter (es_mapeo 8642) cmd = ["8642:8642/tcp"; "8642:8642/udp"].
Proof.
  destruct (construir_comando_docker_primera_valida config_demo)
    as (_ & _ & H).
  destruct (H {| source := "b"; valid := true |})
    as (cmd & Hc & _ & Hs & Hm).
  - exists [ {| source := "a"; valid := false |} ], [].
    split; [reflexivity|]. split; [|reflexivity].
    intros g [<-|[]]. reflexivity.
  - discriminate.
  - exists cmd. split; [exact Hc|].
    split; [apply Hs|apply Hm]; reflexivity.
Defined.

(** The property at [endpoint_demo] with the default ten attempts: two
    calls are not ready, the third gives [X123]. *)
Lemma obtener_monitor_llamadas_witness :
  exists efectos,
    obtener_monitor endpoint_demo "c1" 8642 10
    = (Ok {| m_content_id := "X123"; m_download_hash := Some "abc" |},
       efectos) /\
    llamadas efectos = 3.
Proof.
  destruct (obtener_monitor_llamadas endpoint_demo "c1" 8642 10) as [H _].
  apply (H 2 "X123" (Some "abc")).
  - reflexivity.
  - intros [|[|i]] Hi; [apply NoListo_transporte|apply NoListo_centinela|lia].
  - repeat split; discriminate.
Defined.

(** C7 at [disco_demo]: the deletion of [busy.log] fails, [live.tmp] is
    deleted all the same and is the only file deleted. *)
Lemma limpiar_archivos_temporales_nunca_falla_witness :
  limpiar_archivos_temporales disco_demo "acestreamengine_demo"
  = (Ok 1, ["live.tmp"]).
Proof.
  destruct (limpiar_archivos_temporales_nunca_falla disco_demo
              "acestreamengine_demo") as (_ & _ & _ & _ & H).
  apply (H "/var/lib/docker/volumes/acestreamengine_demo/_data"
           (match iterdir disco_demo "" with Ok l => l | Error _ => [] end));
    try reflexivity.
  intros a [<-|[<-|[<-|[<-|[]]]]]; eexists; reflexivity.
Defined.

(** C4 in [mundo_lanzamiento_falla]: the failure of [docker run] comes
    back as the failure string, and the store is untouched. *)
Lemma iniciar_docker_evento_no_propaga_witness :
  iniciar_docker_evento (fun _ => true) mundo_lanzamiento_falla config_demo
    archivo_demo
  = (Ok "Error al iniciar evento demo: Command returned non-zero exit status 125.",
     archivo_demo).
Proof.
  destruct (iniciar_docker_evento_no_propaga (fun _ => true)
              mundo_lanzamiento_falla config_demo archivo_demo)
    as (_ & _ & _ & H).
  destruct (H eq_refl) as (_ & H1).
  destruct (H1 eq_refl) as (_ & _ & H2).
  destruct (H2 (comando_docker config_demo "b") eq_refl) as (H3 & _).
  exact (H3 _ eq_refl).
Defined.

(** C9 at [formulario_demo]: the record created has the one source
    [http://a/x], not valid, and no command can be built for it. *)
Lemma eventos_web_sin_fuente_valida_witness :
  exists evento,
    listar_eventos
      (snd (new_event (fun _ => false) (fun _ => None)
              (MetodoPOST formulario_demo) []))
    = [evento] /\
    k_sources evento = [ {| source := "http://a/x"; valid := false |} ] /\
    recien_escritas (k_sources evento).
Proof.
  destruct (eventos_web_sin_fuente_valida (fun _ => false) (fun _ => None))
    as [H _].
  destruct (H (MetodoPOST formulario_demo) [] _ _ eq_refl)
    as [H0|(evento & Hl & Hr & _)].
  - discriminate H0.
  - exists evento. split; [exact Hl|]. split; [|exact Hr].
    injection Hl as <-. reflexivity.
Defined.

(** The scenario of the specification: of the sources [a] and [b] of
    [demo] the probe accepts only [b]; after the validator [b] alone is
    valid and the builder passes [--source b]. *)
Example escenario_demo :
  let ivs := fun url => String.eqb url "b" in
  let fuentes := [ {| source := "a"; valid := false |};
                   {| source := "b"; valid := false |} ] in
  revisar_fuentes ivs fuentes
  = [ {| source := "a"; valid := false |}; {| source := "b"; valid := true |} ]
  /\ valores_opcion "--source"
       (match _construir_comando_docker config_demo with
        | Ok cmd => cmd
        | Error _ => []
        end) = ["b"].
Proof. split; reflexivity. Qed.

(** The start of [demo] in a world without failures: the identity
    [X123] arrives on the third call, the record gets it and is marked
    active, and the message carries it. *)
Example escenario_inicio :
  iniciar_docker_evento (fun _ => true) mundo_sin_fallos config_demo
    archivo_demo
  = (Ok "Evento 'demo' iniciado correctamente con Content ID: X123",
     [ con_docker_active "True"
         (con_content_id "X123" (fila_de_config config_demo)) ]).
Proof. vm_compute. reflexivity. Qed.

(** The start of [demo] when the second update of the store fails
    after emptying the file: the failure comes back as the failure
    string, and the store has lost its record. *)
Example escenario_escritura_falla :
  iniciar_docker_evento (fun _ => true) mundo_escritura_falla config_demo
    archivo_demo
  = (Ok "Error al iniciar evento demo: [Errno 28] No space left on device",
     []).
Proof. vm_compute. reflexivity. Qed.

(** The JSON text of a list whose URL holds a quote, a backslash, a
    newline and a character above 126 decodes to the list. *)
Example json_escapes :
  let l := [ {| source := String comilla (String barra
                            (String (ascii_of_nat 10)
                               (String (ascii_of_nat 233) "x")));
                valid := true |} ] in
  json_dumps l
  = ("[{" ++ literal "source" ++ ": "
     ++ String comilla (String barra (String comilla (String barra
          (String barra (String barra ("n" ++ String barra "u00e9x"
             ++ String comilla ""))))))
     ++ ", " ++ literal "valid" ++ ": true}]")%string
  /\ json_loads (json_dumps l) = Some l.
Proof. split; vm_compute; reflexivity. Qed.

(* ===================================================================== *)
(** * Part III: further properties of the code                            *)
(* ===================================================================== *)

(** ** The source validator, beyond first-valid-wins *)

Section ValidadorMas.

Variable is_valid_source : string -> bool.

Lemma marcar_fuentes_solo_urls : forall l l' b,
  map source l = map source l' ->
  marcar_fuentes is_valid_source b l = marcar_fuentes is_valid_source b l'.
Proof.
  induction l as [|f l IH]; intros [|f' l'] b H; try discriminate.
  - reflexivity.
  - simpl in H. injection H as Hs Hl. simpl. rewrite <- Hs.
    unfold set_valid. rewrite <- Hs.
    destruct b; [now rewrite (IH l' true Hl)|].
    destruct (vacio (strip (source f))); [now rewrite (IH l' false Hl)|].
    destruct (is_valid_source (strip (source f)));
      [now rewrite (IH l' true Hl)|now rewrite (IH l' false Hl)].
Qed.

Lemma revisar_fuentes_solo_urls : forall l l',
  map source l = map source l' ->
  revisar_fuentes is_valid_source l = revisar_fuentes is_valid_source l'.
Proof.
  intros l l' H. rewrite !revisar_fuentes_eq.
  now apply marcar_fuentes_solo_urls.
Qed.

Lemma revisar_fuentes_source : forall l,
  map source (revisar_fuentes is_valid_source l) = map source l.
Proof.
  intros l. rewrite revisar_fuentes_eq. apply marcar_fuentes_source.
Qed.

Lemma revisar_fuentes_idempotente : forall l,
  revisar_fuentes is_valid_source (revisar_fuentes is_valid_source l)
  = revisar_fuentes is_valid_source l.
Proof.
  intros l. apply revisar_fuentes_solo_urls, revisar_fuentes_source.
Qed.

Lemma revisar_evento_idempotente : forall row,
  revisar_evento is_valid_source (revisar_evento is_valid_source row)
  = revisar_evento is_valid_source row.
Proof.
  intros row. unfold revisar_evento. simpl.
  now rewrite decodificar_sources_dumps, revisar_fuentes_idempotente.
Qed.

Lemma marcar_fuentes_found_ninguna : forall l,
  primera_valida (marcar_fuentes is_valid_source true l) = None.
Proof.
  intros l. apply primera_valida_ninguna. apply marcar_fuentes_found.
Qed.

(** The first valid entry after the loop is the first entry whose probe
    succeeds. *)
Lemma primera_valida_marcar : forall l,
  primera_valida (marcar_fuentes is_valid_source false l)
  = option_map source (find (sonda is_valid_source) l).
Proof.
  induction l as [|f l IH]; [reflexivity|].
  rewrite marcar_fuentes_step. simpl.
  destruct (sonda is_valid_source f); [reflexivity|exact IH].
Qed.

Lemma find_primera : forall (A : Type) (p : A -> bool) antes x despues,
  (forall y, In y antes -> p y = false) -> p x = true ->
  find p (antes ++ x :: despues) = Some x.
Proof.
  intros A p antes x despues Ha Hx. induction antes as [|y antes IH]; simpl.
  - now rewrite Hx.
  - rewrite (Ha y (or_introl eq_refl)). apply IH.
    intros z Hz. apply Ha. now right.
Qed.

Lemma find_ninguna : forall (A : Type) (p : A -> bool) l,
  (forall y, In y l -> p y = false) -> find p l = None.
Proof.
  intros A p l H. induction l as [|y l IH]; simpl; [reflexivity|].
  rewrite (H y (or_introl eq_refl)). apply IH. intros z Hz. apply H. now right.
Qed.

Lemma sonda_url_no_vacia : forall f,
  sonda is_valid_source f = true -> vacio (source f) = false.
Proof.
  intros f H. unfold sonda in H. destruct (source f) as [|c s]; [|reflexivity].
  discriminate H.
Qed.

Lemma marcar_con_sondas_fst : forall l b,
  fst (marcar_con_sondas is_valid_source b l)
  = marcar_fuentes is_valid_source b l.
Proof.
  induction l as [|f l IH]; intros b; simpl; [reflexivity|].
  destruct b.
  - rewrite <- (IH true).
    now destruct (marcar_con_sondas is_valid_source true l).
  - destruct (vacio (strip (source f))).
    + rewrite <- (IH false).
      now destruct (marcar_con_sondas is_valid_source false l).
    + destruct (is_valid_source (strip (source f))).
      * rewrite <- (IH true).
        now destruct (marcar_con_sondas is_valid_source true l).
      * rewrite <- (IH false).
        now destruct (marcar_con_sondas is_valid_source false l).
Qed.

Lemma marcar_con_sondas_found : forall l,
  snd (marcar_con_sondas is_valid_source true l) = [].
Proof.
  induction l as [|f l IH]; simpl; [reflexivity|].
  now destruct (marcar_con_sondas is_valid_source true l).
Qed.

Lemma urls_no_vacias_cons : forall f l,
  urls_no_vacias (f :: l)
  = (if vacio (strip (source f)) then [] else [strip (source f)])
    ++ urls_no_vacias l.
Proof.
  intros f l. unfold urls_no_vacias. simpl.
  now destruct (vacio (strip (source f))).
Qed.

Lemma marcar_con_sondas_ninguna : forall l,
  (forall g, In g l -> sonda is_valid_source g = false) ->
  snd (marcar_con_sondas is_valid_source false l) = urls_no_vacias l.
Proof.
  induction l as [|f l IH]; intros H; [reflexivity|].
  rewrite urls_no_vacias_cons. simpl.
  assert (Hf := H f (or_introl eq_refl)). unfold sonda in Hf.
  assert (Hl := IH (fun g Hg => H g (or_intror Hg))).
  destruct (vacio (strip (source f))).
  - destruct (marcar_con_sondas is_valid_source false l). exact Hl.
  - rewrite Hf.
    destruct (marcar_con_sondas is_valid_source false l). simpl in *.
    now rewrite Hl.
Qed.

Lemma marcar_con_sondas_primera : forall antes f despues,
  (forall g, In g antes -> sonda is_valid_source g = false) ->
  sonda is_valid_source f = true ->
  snd (marcar_con_sondas is_valid_source false (antes ++ f :: despues))
  = urls_no_vacias antes ++ [strip (source f)].
Proof.
  induction antes as [|a antes IH]; intros f despues Ha Hf.
  - simpl. unfold sonda in Hf.
    destruct (vacio (strip (source f))); [discriminate|]. rewrite Hf.
    pose proof (marcar_con_sondas_found despues) as Hd.
    destruct (marcar_con_sondas is_valid_source true despues). simpl in *.
    now rewrite Hd.
  - rewrite urls_no_vacias_cons.
    change ((a :: antes) ++ f :: despues) with (a :: (antes ++ f :: despues)).
    simpl marcar_con_sondas.
    assert (Hs := Ha a (or_introl eq_refl)). unfold sonda in Hs.
    assert (Hl := IH f despues (fun g Hg => Ha g (or_intror Hg)) Hf).
    destruct (vacio (strip (source a))).
    + destruct (marcar_con_sondas is_valid_source false
                  (antes ++ f :: despues)). exact Hl.
    + rewrite Hs.
      destruct (marcar_con_sondas is_valid_source false
                  (antes ++ f :: despues)). simpl in *. now rewrite Hl.
Qed.

End ValidadorMas.

(** X1. On a store in the program's format and under a probe that
    answers the same for the same URL, a second run of [check_sources]
    writes the file the first run wrote. *)
Theorem check_sources_idempotente :
  forall (is_valid_source : string -> bool) (archivo : Archivo),
  legible archivo ->
  check_sources is_valid_source
    (check_sources is_valid_source (Some archivo))
  = check_sources is_valid_source (Some archivo).
Proof.
  intros ivs archivo _. simpl. f_equal.
  rewrite map_map. apply map_ext. apply revisar_evento_idempotente.
Qed.

(** The property for [archivo_demo] and a probe that always succeeds. *)
Lemma check_sources_idempotente_witness :
  check_sources (fun _ => true)
    (check_sources (fun _ => true) (Some archivo_demo))
  = check_sources (fun _ => true) (Some archivo_demo).
Proof.
  apply (check_sources_idempotente (fun _ => true) archivo_demo).
  apply legible_demo.
Defined.

(** X2. The flags that [check_sources] leaves depend only on the URLs:
    whatever [valid] flags the entries carried before are ignored. *)
Theorem revisar_fuentes_ignora_valid :
  forall (is_valid_source : string -> bool) (g : Fuente -> bool)
         (l : list Fuente),
  revisar_fuentes is_valid_source (map (fun f => set_valid (g f) f) l)
  = revisar_fuentes is_valid_source l.
Proof.
  intros ivs g l. apply revisar_fuentes_solo_urls.
  rewrite map_map. apply map_ext. reflexivity.
Qed.

(** X3. The validator and the builder together: for sources that
    [check_sources] has gone through, the builder raises when no probe
    succeeded, and otherwise emits the command for the URL of the
    earliest entry whose probe succeeded; it never meets a valid entry
    with an empty URL. *)
Theorem check_sources_luego_comando :
  forall (is_valid_source : string -> bool) (config : EventoConfig)
         (l : list Fuente),
  ((forall g, In g l -> sonda is_valid_source g = false) ->
   _construir_comando_docker
     (con_fuentes config (revisar_fuentes is_valid_source l))
   = Error sin_fuente_valida) /\
  (forall antes f despues,
     l = antes ++ f :: despues ->
     (forall g, In g antes -> sonda is_valid_source g = false) ->
     sonda is_valid_source f = true ->
     _construir_comando_docker
       (con_fuentes config (revisar_fuentes is_valid_source l))
     = Ok (comando_docker
             (con_fuentes config (revisar_fuentes is_valid_source l))
             (source f))).
Proof.
  intros ivs config l. unfold _construir_comando_docker. simpl sources.
  rewrite revisar_fuentes_eq, primera_valida_marcar. split.
  - intros H. now rewrite (find_ninguna _ _ _ H).
  - intros antes f despues -> Ha Hf.
    rewrite (find_primera _ _ antes f despues Ha Hf). simpl.
    now rewrite (sonda_url_no_vacia ivs f Hf).
Qed.

(** The property at the two sources of [demo], of which the probe
    accepts [b]. *)
Lemma check_sources_luego_comando_witness :
  _construir_comando_docker
    (con_fuentes config_demo
       (revisar_fuentes (fun url => String.eqb url "b")
          [ {| source := "a"; valid := true |};
            {| source := " b "; valid := false |} ]))
  = Ok (comando_docker
          (con_fuentes config_demo
             (revisar_fuentes (fun url => String.eqb url "b")
                [ {| source := "a"; valid := true |};
                  {| source := " b "; valid := false |} ]))
          " b ").
Proof.
  destruct (check_sources_luego_comando (fun url => String.eqb url "b")
              config_demo
              [ {| source := "a"; valid := true |};
                {| source := " b "; valid := false |} ]) as [_ H].
  apply (H [ {| source := "a"; valid := true |} ]
           {| source := " b "; valid := false |} []).
  - reflexivity.
  - intros g [<-|[]]. reflexivity.
  - reflexivity.
Defined.

(** X4. The probes [check_sources] runs on the sources of an event: the
    loop with its probes marks the entries as the loop does; blank
    entries are never probed; when no probe succeeds every other entry
    is probed once, in order; when the probe of an entry succeeds, the
    entries before it that are not blank and that entry are probed, and
    no entry after it. *)
Theorem check_sources_sondas :
  forall (is_valid_source : string -> bool) (l : list Fuente),
  fst (marcar_con_sondas is_valid_source false l)
  = marcar_fuentes is_valid_source false l /\
  ((forall g, In g l -> sonda is_valid_source g = false) ->
   snd (marcar_con_sondas is_valid_source false l) = urls_no_vacias l) /\
  (forall antes f despues,
     l = antes ++ f :: despues ->
     (forall g, In g antes -> sonda is_valid_source g = false) ->
     sonda is_valid_source f = true ->
     snd (marcar_con_sondas is_valid_source false l)
     = urls_no_vacias antes ++ [strip (source f)]).
Proof.
  intros ivs l. split; [apply marcar_con_sondas_fst|]. split.
  - apply marcar_con_sondas_ninguna.
  - intros antes f despues -> Ha Hf. now apply marcar_con_sondas_primera.
Qed.

(** The property at four sources: a blank one, one that fails, one
    that succeeds and one more. *)
Lemma check_sources_sondas_witness :
  snd (marcar_con_sondas (fun url => String.eqb url "b") false
         [ {| source := "  "; valid := false |};
           {| source := "a"; valid := false |};
           {| source := "b"; valid := false |};
           {| source := "c"; valid := false |} ])
  = ["a"; "b"].
Proof.
  destruct (check_sources_sondas (fun url => String.eqb url "b")
              [ {| source := "  "; valid := false |};
                {| source := "a"; valid := false |};
                {| source := "b"; valid := false |};
                {| source := "c"; valid := false |} ]) as (_ & _ & H).
  apply (H [ {| source := "  "; valid := false |};
             {| source := "a"; valid := false |} ]
           {| source := "b"; valid := false |}
           [ {| source := "c"; valid := false |} ]).
  - reflexivity.
  - intros g [<-|[<-|[]]]; reflexivity.
  - reflexivity.
Defined.

(** ** The store: what its operations keep *)

Lemma k_name_con_sources : forall S T (r : Registro S) (v : T),
  k_name (con_sources r v) = k_name r.
Proof. reflexivity. Qed.



Lemma escribir_canonico : forall eventos,
  Forall texto_canonico eventos -> canonico (_escribir_eventos eventos).
Proof.
  intros eventos H. unfold canonico, _escribir_eventos.
  induction H as [|e eventos He _ IH]; simpl; constructor; [|exact IH].
  unfold texto_canonico in He. simpl.
  destruct (k_sources e) as [l|s]; [now exists l|exact He].
Qed.

Lemma eventos_leidos_canonicos : forall archivo,
  Forall texto_canonico (eventos_leidos archivo).
Proof.
  intros archivo. unfold eventos_leidos. apply Forall_forall.
  intros e He. apply in_map_iff in He. destruct He as (x & <- & _).
  exact I.
Qed.

Lemma modificar_primero_Forall : forall S (P : Registro S -> Prop) n f l,
  (forall e, P e -> P (f e)) -> Forall P l ->
  Forall P (fst (modificar_primero n f l)).
Proof.
  intros S P n f l Hf H. induction H as [|e l He Hl IH]; simpl.
  - constructor.
  - destruct (String.eqb (k_name e) n); simpl.
    + constructor; [now apply Hf|exact Hl].
    + destruct (modificar_primero n f l). simpl in *. now constructor.
Qed.








Lemma listar_names : forall archivo,
  map k_name (listar_eventos archivo) = map k_name archivo.
Proof.
  intros archivo. unfold listar_eventos. rewrite map_map. reflexivity.
Qed.

(** A change of the first row with a name, seen through
    [listar_eventos]. *)
Lemma listar_modificar : forall archivo n f (f' : Evento -> Evento),
  (forall e : Evento,
     releer (f (con_sources e (Lista (k_sources e)))) = f' e) ->
  listar_eventos
    (_escribir_eventos (fst (modificar_primero n f (eventos_leidos archivo))))
  = fst (modificar_primero n f' (listar_eventos archivo)).
Proof.
  intros archivo n f f' Hf. rewrite listar_escribir. unfold eventos_leidos.
  induction (listar_eventos archivo) as [|e l IH]; [reflexivity|].
  cbn [map modificar_primero]. rewrite k_name_con_sources.
  destruct (String.eqb (k_name e) n).
  - cbn [fst map]. now rewrite Hf, map_releer_leidos.
  - match goal with
    | |- context [modificar_primero n f ?x] =>
        destruct (modificar_primero n f x) as [r u]
    end.
    destruct (modificar_primero n f' l) as [r' u'].
    cbn [fst map] in *. now rewrite releer_leido, IH.
Qed.

Lemma modificar_primero_primero : forall S n (f : Registro S -> Registro S)
  antes viejo despues,
  (forall e, In e antes -> k_name e <> n) -> k_name viejo = n ->
  fst (modificar_primero n f (antes ++ viejo :: despues))
  = antes ++ f viejo :: despues.
Proof.
  intros S n f antes viejo despues Ha Hv.
  induction antes as [|e antes IH]; simpl.
  - apply String.eqb_eq in Hv. now rewrite Hv.
  - assert (E : String.eqb (k_name e) n = false)
      by (apply String.eqb_neq, Ha; now left).
    rewrite E.
    assert (H := IH (fun x Hx => Ha x (or_intror Hx))).
    destruct (modificar_primero n f (antes ++ viejo :: despues)).
    simpl in *. now rewrite H.
Qed.

Lemma buscar_primero : forall n antes viejo despues,
  (forall e : Evento, In e antes -> k_name e <> n) -> k_name viejo = n ->
  buscar_evento n (antes ++ viejo :: despues) = Some viejo.
Proof.
  intros n antes viejo despues Ha Hv. unfold buscar_evento.
  apply find_primera.
  - intros e He. now apply String.eqb_neq, Ha.
  - now apply String.eqb_eq.
Qed.

Lemma buscar_ausente : forall n (l : list Evento),
  (forall e, In e l -> k_name e <> n) -> buscar_evento n l = None.
Proof.
  intros n l H. unfold buscar_evento. apply find_ninguna.
  intros e He. now apply String.eqb_neq, H.
Qed.

Lemma buscar_app : forall n (a b : list Evento),
  buscar_evento n (a ++ b)
  = match buscar_evento n a with
    | Some e => Some e
    | None => buscar_evento n b
    end.
Proof.
  intros n a b. unfold buscar_evento.
  induction a as [|e a IH]; simpl; [reflexivity|].
  now destruct (String.eqb (k_name e) n).
Qed.

Lemma listar_agregar : forall archivo config,
  listar_eventos (agregar_evento archivo config)
  = listar_eventos archivo ++ [evento_de config].
Proof.
  intros archivo config. unfold agregar_evento. rewrite listar_eventos_app.
  f_equal. simpl. unfold evento_de.
  now rewrite decodificar_sources_dumps.
Qed.




Lemma content_id_leido : forall c (e : Evento),
  releer (con_content_id c (con_sources e (Lista (k_sources e))))
  = con_content_id c e.
Proof.
  intros c [n t p tok tr src h b ci a]. unfold releer. simpl.
  now rewrite decodificar_sources_dumps.
Qed.

Lemma docker_active_leido : forall v (e : Evento),
  releer (con_docker_active v (con_sources e (Lista (k_sources e))))
  = con_docker_active v e.
Proof.
  intros v [n t p tok tr src h b ci a]. unfold releer. simpl.
  now rewrite decodificar_sources_dumps.
Qed.

Lemma actualizar_content_id_listar : forall archivo n c,
  exists archivo',
    _actualizar_content_id archivo n c = Ok archivo' /\
    listar_eventos archivo'
    = fst (modificar_primero n (con_content_id c) (listar_eventos archivo)).
Proof.
  intros archivo n c. unfold _actualizar_content_id.
  pose proof (listar_modificar archivo n (con_content_id c)
                (con_content_id c) (content_id_leido c)) as H.
  destruct (modificar_primero n (con_content_id c) (eventos_leidos archivo))
    as [r u]. eexists. split; [reflexivity|exact H].
Qed.

Lemma actualizar_docker_active_listar : forall archivo n active,
  exists archivo',
    _actualizar_docker_active archivo n active = Ok archivo' /\
    listar_eventos archivo'
    = fst (modificar_primero n
             (con_docker_active (if active then "True" else "False"))
             (listar_eventos archivo)).
Proof.
  intros archivo n active. unfold _actualizar_docker_active.
  pose proof (listar_modificar archivo n
                (con_docker_active (if active then "True" else "False"))
                (con_docker_active (if active then "True" else "False"))
                (docker_active_leido _)) as H.
  destruct (modificar_primero n
              (con_docker_active (if active then "True" else "False"))
              (eventos_leidos archivo)) as [r u].
  eexists. split; [reflexivity|exact H].
Qed.

(** X5. On a store in the program's format, every operation that
    rewrites the store leaves in each [sources] column the text
    [json.dumps] gives for a list of entries (an empty column becomes
    [[]]); [agregar_evento] keeps a store of that kind so, and in such
    a store every [sources] column decodes. *)
Theorem store_canonico :
  forall archivo : Archivo,
  legible archivo ->
  (forall is_valid_source archivo',
     check_sources is_valid_source (Some archivo) = Some archivo' ->
     canonico archivo') /\
  (forall config archivo',
     actualizar_evento archivo config = Ok archivo' -> canonico archivo') /\
  (forall n, canonico (eliminar_evento archivo n)) /\
  (forall n c archivo',
     _actualizar_content_id archivo n c = Ok archivo' -> canonico archivo') /\
  (forall n active archivo',
     _actualizar_docker_active archivo n active = Ok archivo' ->
     canonico archivo') /\
  (forall config,
     canonico archivo -> canonico (agregar_evento archivo config)) /\
  (forall row,
     canonico archivo -> In row archivo ->
     exists l, json_loads (k_sources row) = Some l).
Proof.
  intros archivo _.
  split; [|split; [|split; [|split; [|split; [|split]]]]].
  - intros ivs archivo' H. injection H as <-.
    unfold canonico. apply Forall_forall. intros row Hr.
    apply in_map_iff in Hr. destruct Hr as (x & <- & _).
    unfold revisar_evento. simpl. now eexists.
  - intros config archivo' H. unfold actualizar_evento in H.
    pose proof (modificar_primero_Forall _ texto_canonico (nombre config)
                  (evento_de_config config) (eventos_leidos archivo)) as HF.
    destruct (modificar_primero (nombre config) (evento_de_config config)
                (eventos_leidos archivo)) as [r [|]]; [|discriminate].
    injection H as <-. apply escribir_canonico, HF.
    + intros e _. unfold texto_canonico. simpl. now eexists.
    + apply eventos_leidos_canonicos.
  - intros n. unfold eliminar_evento. apply escribir_canonico.
    apply Forall_forall. intros e He. apply filter_In in He.
    destruct He as [He _].
    now apply (proj1 (Forall_forall _ _) (eventos_leidos_canonicos archivo)).
  - intros n c archivo' H. unfold _actualizar_content_id in H.
    pose proof (modificar_primero_Forall _ texto_canonico n
                  (con_content_id c) (eventos_leidos archivo)) as HF.
    destruct (modificar_primero n (con_content_id c)
                (eventos_leidos archivo)) as [r u].
    injection H as <-. apply escribir_canonico, HF.
    + intros e He. exact He.
    + apply eventos_leidos_canonicos.
  - intros n active archivo' H. unfold _actualizar_docker_active in H.
    pose proof (modificar_primero_Forall _ texto_canonico n
                  (con_docker_active (if active then "True" else "False"))
                  (eventos_leidos archivo)) as HF.
    destruct (modificar_primero n
                (con_docker_active (if active then "True" else "False"))
                (eventos_leidos archivo)) as [r u].
    injection H as <-. apply escribir_canonico, HF.
    + intros e He. exact He.
    + apply eventos_leidos_canonicos.
  - intros config H. unfold canonico, agregar_evento.
    apply Forall_app. split; [exact H|]. constructor; [|constructor].
    simpl. now eexists.
  - intros row H Hr.
    destruct (proj1 (Forall_forall _ _) H row Hr) as [l Hl].
    exists l. rewrite Hl. apply json_loads_dumps.
Qed.

(** The property for [archivo_demo]: deleting a name that is not in it
    leaves a store in the written format. *)
Lemma store_canonico_witness : canonico (eliminar_evento archivo_demo "otro").
Proof.
  exact (proj1 (proj2 (proj2 (store_canonico archivo_demo legible_demo)))
           "otro").
Defined.






(** *** The reader's limit *)

Lemma listar_eventos_csv_agregar : forall archivo config,
  en_limite archivo = true -> config_en_limite config = true ->
  listar_eventos_csv (agregar_evento archivo config)
  = Ok (listar_eventos archivo ++ [evento_de config]).
Proof.
  intros archivo config Hl Hc. rewrite listar_eventos_csv_en_limite.
  - now rewrite listar_agregar.
  - now rewrite en_limite_agregar, Hl, Hc.
Qed.

(** X9. [agregar_evento] refuses no name and no text. When the store
    and the texts of the configuration are within the reader's limit,
    [listar_eventos] reads afterwards the records it read before
    followed by the new one, and a lookup by name finds what it found
    before; only when it found nothing does it find the new record, so
    a record added under a name already in the store is hidden behind
    the older one. When a text of the configuration is over the limit,
    the row is written all the same and [listar_eventos] raises the
    reader's exception from then on. *)
Theorem agregar_evento_y_busqueda :
  forall (archivo : Archivo) (config : EventoConfig) (n : string),
  (en_limite archivo = true -> config_en_limite config = true ->
   exists eventos,
     listar_eventos_csv (agregar_evento archivo config) = Ok eventos /\
     eventos = listar_eventos archivo ++ [evento_de config] /\
     buscar_evento n eventos
     = match buscar_evento n (listar_eventos archivo) with
       | Some e => Some e
       | None =>
           if String.eqb (nombre config) n then Some (evento_de config)
           else None
       end) /\
  (config_en_limite config = false ->
   listar_eventos_csv (agregar_evento archivo config)
   = Error campo_demasiado_largo).
Proof.
  intros archivo config n. split.
  - intros Hl Hc. eexists. split; [now apply listar_eventos_csv_agregar|].
    split; [reflexivity|]. rewrite buscar_app. reflexivity.
  - intros Hc. apply listar_eventos_csv_fuera.
    now rewrite en_limite_agregar, Hc, andb_false_r.
Qed.



(** ** The readiness poller, for any endpoint *)

Lemma identidad_valida : forall r mon,
  identidad r = Ok (Some mon) ->
  da_identidad r (m_content_id mon) (m_download_hash mon).
Proof.
  intros [e|status_code cuerpo] mon H; [discriminate|]. simpl in H.
  destruct (Z.eqb_spec status_code 200) as [->|]; [|discriminate].
  destruct cuerpo as [|[c|] h|tipo]; try discriminate.
  destruct (vacio c) eqn:Ev; [discriminate|].
  destruct (String.eqb c "No encontrado") eqn:Es; [discriminate|].
  injection H as <-. simpl. repeat split.
  - now apply vacio_false.
  - now apply String.eqb_neq.
Qed.

Lemma identidad_sigue : forall r, identidad r = Ok None -> NoListo r.
Proof.
  intros r H. destruct (identidad_casos r) as [Hn|[(c & h & Hd)|(t & Ht)]].
  - exact Hn.
  - apply identidad_da in Hd. congruence.
  - apply identidad_no_objeto in Ht. congruence.
Qed.

Lemma identidad_lanza : forall r e,
  identidad r = Error e -> exists tipo, no_objeto r tipo /\ e = sin_get tipo.
Proof.
  intros r e H. destruct (identidad_casos r) as [Hn|[(c & h & Hd)|(t & Ht)]].
  - apply identidad_no_listo in Hn. congruence.
  - apply identidad_da in Hd. congruence.
  - exists t. split; [exact Ht|]. apply identidad_no_objeto in Ht. congruence.
Qed.

Section SondeoMas.

Variable endpoint : nat -> Respuesta.

Lemma sondear_caracteriza : forall url restantes intento,
  match sondear endpoint url restantes intento with
  | (Ok mon, efectos) =>
      exists k, k < restantes /\
        identidad (endpoint (intento + k)) = Ok (Some mon) /\
        (forall j, j < k -> identidad (endpoint (intento + j)) = Ok None) /\
        llamadas efectos = k + 1 /\
        tiempo_dormido efectos = (5 * Z.of_nat k)%Z
  | (Error e, efectos) =>
      (e = sin_monitor /\
       (forall j, j < restantes ->
                  identidad (endpoint (intento + j)) = Ok None) /\
       llamadas efectos = restantes /\
       tiempo_dormido efectos = (5 * Z.of_nat restantes)%Z)
      \/
      (exists k, k < restantes /\
         identidad (endpoint (intento + k)) = Error e /\
         (forall j, j < k -> identidad (endpoint (intento + j)) = Ok None) /\
         llamadas efectos = k + 1 /\
         tiempo_dormido efectos = (5 * Z.of_nat k)%Z)
  end.
Proof.
  intros url. induction restantes as [|r IH]; intros intento.
  - simpl. left. repeat split. intros j Hj. lia.
  - cbn [sondear].
    destruct (identidad (endpoint intento)) as [[mon|]|e] eqn:E.
    + exists 0. rewrite Nat.add_0_r. repeat split; [lia|exact E|].
      intros j Hj. lia.
    + specialize (IH (S intento)).
      destruct (sondear endpoint url r (S intento)) as [[mon|e] ef].
      * destruct IH as (k & Hk & Hs & Hno & Hc & Ht).
        exists (S k). repeat split.
        -- lia.
        -- now replace (intento + S k) with (S intento + k) by lia.
        -- intros [|j] Hj; [now rewrite Nat.add_0_r|].
           replace (intento + S j) with (S intento + j) by lia.
           apply Hno. lia.
        -- simpl. now rewrite Hc.
        -- cbn [tiempo_dormido]. rewrite Ht. lia.
      * destruct IH as [(-> & Hno & Hc & Ht)|(k & Hk & Hs & Hno & Hc & Ht)].
        -- left. repeat split.
           ++ intros [|j] Hj; [now rewrite Nat.add_0_r|].
              replace (intento + S j) with (S intento + j) by lia.
              apply Hno. lia.
           ++ simpl. now rewrite Hc.
           ++ cbn [tiempo_dormido]. rewrite Ht. lia.
        -- right. exists (S k). repeat split.
           ++ lia.
           ++ now replace (intento + S k) with (S intento + k) by lia.
           ++ intros [|j] Hj; [now rewrite Nat.add_0_r|].
              replace (intento + S j) with (S intento + j) by lia.
              apply Hno. lia.
           ++ simpl. now rewrite Hc.
           ++ cbn [tiempo_dormido]. rewrite Ht. lia.
    + right. exists 0. rewrite Nat.add_0_r. repeat split; [lia|exact E|].
      intros j Hj. lia.
Qed.

End SondeoMas.

(** X11. Whatever the endpoint answers (a transport failure, any
    status, a body that is not JSON, a JSON object, JSON that is not an
    object), the poller makes at most as many HTTP calls as it has
    attempts, and ends in one of three ways. If it returns, what it
    returns is the identity of the first response that gives one, after
    one call per response up to that one, no earlier response being
    JSON that is not an object, and the content id returned is never
    empty and never ["No encontrado"]. If it raises the readiness
    timeout, none of the responses gave an identity and it made all its
    calls. Otherwise it raises the [AttributeError] of the first
    response whose JSON is not an object, straight after the call that
    got it, every response before being not ready. *)
Theorem obtener_monitor_primera_identidad :
  forall (endpoint : nat -> Respuesta) (contenedor_id : string)
         (puerto intentos : Z),
  match obtener_monitor endpoint contenedor_id puerto intentos with
  | (Ok mon, efectos) =>
      exists k,
        (Z.of_nat k < intentos)%Z /\
        da_identidad (endpoint k) (m_content_id mon) (m_download_hash mon) /\
        (forall j, j < k -> NoListo (endpoint j)) /\
        llamadas efectos = k + 1
  | (Error e, efectos) =>
      (e = sin_monitor /\
       (forall j, (Z.of_nat j < intentos)%Z -> NoListo (endpoint j)) /\
       Z.of_nat (llamadas efectos) = Z.max 0 intentos)
      \/
      (exists k tipo,
         (Z.of_nat k < intentos)%Z /\
         no_objeto (endpoint k) tipo /\
         e = sin_get tipo /\
         (forall j, j < k -> NoListo (endpoint j)) /\
         llamadas efectos = k + 1)
  end /\
  (Z.of_nat (llamadas (snd (obtener_monitor endpoint contenedor_id puerto
                              intentos))) <= Z.max 0 intentos)%Z.
Proof.
  intros endpoint contenedor_id puerto intentos. unfold obtener_monitor.
  pose proof (sondear_caracteriza endpoint (url_monitor puerto)
                (Z.to_nat intentos) 0) as H.
  destruct (sondear endpoint (url_monitor puerto) (Z.to_nat intentos) 0)
    as [[mon|e] ef].
  - destruct H as (k & Hk & Hs & Hno & Hc & _). simpl in Hs. split.
    + exists k. split; [lia|]. split; [now apply identidad_valida|].
      split; [|exact Hc]. intros j Hj. apply identidad_sigue, Hno, Hj.
    + simpl. lia.
  - destruct H as [(-> & Hno & Hc & _)|(k & Hk & Hs & Hno & Hc & _)].
    + split.
      * left. split; [reflexivity|]. split; [|simpl; lia].
        intros j Hj. apply identidad_sigue. apply (Hno j). lia.
      * simpl. lia.
    + simpl in Hs. apply identidad_lanza in Hs. destruct Hs as (tipo & Ht & ->).
      split.
      * right. exists k, tipo. split; [lia|]. split; [exact Ht|].
        split; [reflexivity|]. split; [|exact Hc].
        intros j Hj. apply identidad_sigue, Hno, Hj.
      * simpl. lia.
Qed.

(** X12. The time the poller sleeps: fifteen seconds before the first
    call and five after every call that is not ready, also after the
    last one before the readiness timeout. With [c] calls that is
    [15 + 5(c-1)] seconds when it returns, [15 + 5c] when it raises the
    readiness timeout, and [15 + 5(c-1)] when it raises another
    exception, which it does straight after a call. *)
Theorem obtener_monitor_tiempo_dormido :
  forall (endpoint : nat -> Respuesta) (contenedor_id : string)
         (puerto intentos : Z),
  match obtener_monitor endpoint contenedor_id puerto intentos with
  | (Ok _, efectos) =>
      tiempo_dormido efectos
      = (15 + 5 * (Z.of_nat (llamadas efectos) - 1))%Z
  | (Error e, efectos) =>
      (e = sin_monitor ->
       tiempo_dormido efectos = (15 + 5 * Z.of_nat (llamadas efectos))%Z) /\
      (e <> sin_monitor ->
       tiempo_dormido efectos
       = (15 + 5 * (Z.of_nat (llamadas efectos) - 1))%Z)
  end /\
  exists efectos,
    snd (obtener_monitor endpoint contenedor_id puerto intentos)
    = Dormir 15 :: efectos.
Proof.
  intros endpoint contenedor_id puerto intentos. unfold obtener_monitor.
  pose proof (sondear_caracteriza endpoint (url_monitor puerto)
                (Z.to_nat intentos) 0) as H.
  destruct (sondear endpoint (url_monitor puerto) (Z.to_nat intentos) 0)
    as [[mon|e] ef].
  - destruct H as (k & _ & _ & _ & Hc & Ht). split; [|now eexists].
    cbn [tiempo_dormido llamadas]. rewrite Ht, Hc. lia.
  - split; [|now eexists].
    destruct H as [(-> & _ & Hc & Ht)|(k & _ & Hs & _ & Hc & Ht)].
    + split; [|intros Hne; now contradiction Hne].
      intros _. cbn [tiempo_dormido llamadas]. rewrite Ht, Hc. lia.
    + apply identidad_lanza in Hs. destruct Hs as (tipo & _ & ->). split.
      * intros Habs. discriminate Habs.
      * intros _. cbn [tiempo_dormido llamadas]. rewrite Ht, Hc. lia.
Qed.

(** ** The orchestrator and the store *)

Lemma obtener_monitor_sin_identidad : forall endpoint contenedor_id puerto n,
  (forall i, NoListo (endpoint i)) ->
  fst (obtener_monitor endpoint contenedor_id puerto n) = Error sin_monitor.
Proof.
  intros endpoint contenedor_id puerto n H. unfold obtener_monitor.
  destruct (sondear_agotado endpoint (url_monitor puerto) (Z.to_nat n) 0)
    as (ef & Hef & _).
  - intros j. apply identidad_no_listo, H.
  - now rewrite Hef.
Qed.

(** Where a start leaves the store: as it was, or, once the poller has
    given an identity, as a failing update left it, or after the update
    of the content id, or after both updates. *)
Lemma iniciar_docker_evento_store : forall ip_address m config archivo,
  snd (iniciar_docker_evento ip_address m config archivo) = archivo \/
  exists resultado info,
    fst (obtener_monitor (monitor m) (strip resultado) (puerto config) 10)
    = Ok info /\
    ((exists i f,
        fallo_store m i = Some f /\
        f_resto f
        = Some (snd (iniciar_docker_evento ip_address m config archivo))) \/
     exists archivo1,
       _actualizar_content_id archivo (nombre config) (m_content_id info)
       = Ok archivo1 /\
       (snd (iniciar_docker_evento ip_address m config archivo) = archivo1 \/
        exists archivo2,
          _actualizar_docker_active archivo1 (nombre config) true
          = Ok archivo2 /\
          snd (iniciar_docker_evento ip_address m config archivo)
          = archivo2)).
Proof.
  intros ip m config archivo.
  unfold iniciar_docker_evento, intentar, inicio_cuerpo.
  destruct (validar ip config); [|now left].
  unfold luego, elevar, guardar, devolver.
  destruct (verificar_y_limpiar_contenedor m (nombre config)); [|now left].
  destruct (fst (limpiar_archivos_temporales (disco m)
                   ("acestreamengine_" ++ nombre config))); [|now left].
  destruct (_construir_comando_docker config) as [comando|]; [|now left].
  destruct (run_check (docker m comando)); [|now left].
  destruct (run_check (docker m (argv_docker_ps (nombre config))))
    as [resultado|]; [|now left].
  destruct (fst (obtener_monitor (monitor m) (strip resultado)
                   (puerto config) 10)) as [info|] eqn:Ei; [|now left].
  destruct (fallo_store m 0) as [f|] eqn:F0.
  { unfold resto_tras. destruct (f_resto f) as [r|] eqn:Er; [|now left].
    right. exists resultado, info. split; [exact Ei|]. left.
    exists 0, f. split; [exact F0|]. exact Er. }
  destruct (_actualizar_content_id archivo (nombre config)
              (m_content_id info)) as [archivo1|] eqn:E1; [|now left].
  right. exists resultado, info. split; [exact Ei|].
  destruct (fallo_store m 1) as [f|] eqn:F1.
  { unfold resto_tras. destruct (f_resto f) as [r|] eqn:Er.
    - left. exists 1, f. split; [exact F1|]. exact Er.
    - right. exists archivo1. split; [exact E1|]. now left. }
  right. exists archivo1. split; [exact E1|].
  destruct (_actualizar_docker_active archivo1 (nombre config) true)
    as [archivo2|] eqn:E2; [|now left].
  right. exists archivo2. split; reflexivity.
Qed.

Lemma solo_estado_refl : forall e, solo_estado e e.
Proof. intros e. unfold solo_estado. repeat split; reflexivity. Qed.

Lemma solo_estado_trans : forall a b c,
  solo_estado a b -> solo_estado b c -> solo_estado a c.
Proof.
  unfold solo_estado. intros a b c H1 H2.
  destruct H1 as (A1 & A2 & A3 & A4 & A5 & A6 & A7 & A8).
  destruct H2 as (B1 & B2 & B3 & B4 & B5 & B6 & B7 & B8).
  repeat split; congruence.
Qed.

Lemma Forall2_solo_estado_refl : forall l, Forall2 solo_estado l l.
Proof.
  induction l; constructor; [apply solo_estado_refl|assumption].
Qed.

Lemma Forall2_solo_estado_trans : forall l1 l2 l3,
  Forall2 solo_estado l1 l2 -> Forall2 solo_estado l2 l3 ->
  Forall2 solo_estado l1 l3.
Proof.
  intros l1 l2 l3 H. revert l3.
  induction H as [|a b l1 l2 Hab _ IH]; intros l3 H3; inversion H3; subst.
  - constructor.
  - constructor; [now apply (solo_estado_trans a b)|now apply IH].
Qed.

Lemma solo_estado_modificar : forall n (f : Evento -> Evento) l,
  (forall e, solo_estado e (f e)) ->
  Forall2 solo_estado l (fst (modificar_primero n f l)).
Proof.
  intros n f l Hf. induction l as [|e l IH]; simpl; [constructor|].
  destruct (String.eqb (k_name e) n); simpl.
  - constructor; [apply Hf|apply Forall2_solo_estado_refl].
  - destruct (modificar_primero n f l). simpl in *.
    constructor; [apply solo_estado_refl|exact IH].
Qed.

Lemma solo_estado_content_id : forall archivo n c archivo',
  _actualizar_content_id archivo n c = Ok archivo' ->
  Forall2 solo_estado (listar_eventos archivo) (listar_eventos archivo').
Proof.
  intros archivo n c archivo' H.
  destruct (actualizar_content_id_listar archivo n c) as (a' & Ha & Hl).
  rewrite Ha in H. injection H as <-. rewrite Hl.
  apply solo_estado_modificar. intros e. unfold solo_estado.
  repeat split; reflexivity.
Qed.

Lemma solo_estado_docker_active : forall archivo n active archivo',
  _actualizar_docker_active archivo n active = Ok archivo' ->
  Forall2 solo_estado (listar_eventos archivo) (listar_eventos archivo').
Proof.
  intros archivo n active archivo' H.
  destruct (actualizar_docker_active_listar archivo n active)
    as (a' & Ha & Hl).
  rewrite Ha in H. injection H as <-. rewrite Hl.
  apply solo_estado_modificar. intros e. unfold solo_estado.
  repeat split; reflexivity.
Qed.

(** X13. On a store in the program's format, whatever docker, the
    monitor and the disk do, and as long as no update of the store
    fails after it has emptied the file, a start never adds, removes or
    reorders records, and it changes no column of a record other than
    [content_id] and [docker_active]: the names, titles, ports, tokens,
    trackers, sources, hosts and bitrates read after it are those read
    before. Otherwise the store holds what the failed update left in
    the file. *)
Theorem iniciar_docker_evento_solo_estado :
  forall (ip_address : string -> bool) (m : Mundo) (config : EventoConfig)
         (archivo : Archivo),
  legible archivo ->
  Forall2 solo_estado
    (listar_eventos archivo)
    (listar_eventos
       (snd (iniciar_docker_evento ip_address m config archivo)))
  \/
  exists i f,
    fallo_store m i = Some f /\
    f_resto f
    = Some (snd (iniciar_docker_evento ip_address m config archivo)).
Proof.
  intros ip m config archivo _.
  destruct (iniciar_docker_evento_store ip m config archivo)
    as [->|(resultado & info & _ &
            [H|(a1 & H1 & [->|(a2 & H2 & ->)])])].
  - left. apply Forall2_solo_estado_refl.
  - right. exact H.
  - left. now apply solo_estado_content_id in H1.
  - left. apply solo_estado_content_id in H1.
    apply solo_estado_docker_active in H2.
    now apply (Forall2_solo_estado_trans _ (listar_eventos a1)).
Qed.

(** The property for a start of [demo] in [mundo_sin_fallos], where no
    update fails: only the two state columns change. *)
Lemma iniciar_docker_evento_solo_estado_witness :
  Forall2 solo_estado
    (listar_eventos archivo_demo)
    (listar_eventos
       (snd (iniciar_docker_evento (fun _ => true) mundo_sin_fallos
               config_demo archivo_demo))).
Proof.
  destruct (iniciar_docker_evento_solo_estado (fun _ => true)
              mundo_sin_fallos config_demo archivo_demo legible_demo)
    as [H|(i & f & Hf & _)].
  - exact H.
  - discriminate Hf.
Defined.

(** X14. When the monitor never gives an identity, a start leaves the
    store exactly as it was, whatever docker and the disk do: no
    content id is recorded and no record is marked active without a
    readiness report. *)
Theorem iniciar_docker_evento_sin_monitor :
  forall (ip_address : string -> bool) (m : Mundo) (config : EventoConfig)
         (archivo : Archivo),
  (forall i, NoListo (monitor m i)) ->
  snd (iniciar_docker_evento ip_address m config archivo) = archivo.
Proof.
  intros ip m config archivo H.
  destruct (iniciar_docker_evento_store ip m config archivo)
    as [E|(resultado & info & Hi & _)]; [exact E|].
  rewrite (obtener_monitor_sin_identidad _ _ _ _ H) in Hi. discriminate.
Qed.

(** The property in [mundo_sin_monitor], where every answer of the
    monitor is a status 503. *)
Lemma iniciar_docker_evento_sin_monitor_witness :
  snd (iniciar_docker_evento (fun _ => true) mundo_sin_monitor config_demo
         archivo_demo)
  = archivo_demo.
Proof.
  apply (iniciar_docker_evento_sin_monitor (fun _ => true) mundo_sin_monitor
           config_demo archivo_demo).
  intros i. apply NoListo_estado. discriminate.
Defined.

(** X15. On a store in the program's format, a start in which every
    step succeeds returns the success message with the content id the
    monitor gave, and afterwards the first record with the name of the
    event has that content id and the active flag [True]; every other
    record, and every other column of that record, is as before. *)
Theorem iniciar_docker_evento_exito :
  forall (ip_address : string -> bool) (m : Mundo) (config : EventoConfig)
         (archivo : Archivo) (comando : list string) (out resultado : string)
         (info : Monitor) (antes : list Evento) (viejo : Evento)
         (despues : list Evento),
  legible archivo ->
  validar ip_address config = [] ->
  verificar_y_limpiar_contenedor m (nombre config) = Ok tt ->
  _construir_comando_docker config = Ok comando ->
  run_check (docker m comando) = Ok out ->
  run_check (docker m (argv_docker_ps (nombre config))) = Ok resultado ->
  fst (obtener_monitor (monitor m) (strip resultado) (puerto config) 10)
  = Ok info ->
  fallo_store m 0 = None ->
  fallo_store m 1 = None ->
  listar_eventos archivo = antes ++ viejo :: despues ->
  (forall e, In e antes -> k_name e <> nombre config) ->
  k_name viejo = nombre config ->
  exists archivo',
    iniciar_docker_evento ip_address m config archivo
    = (Ok ("Evento '" ++ nombre config
           ++ "' iniciado correctamente con Content ID: "
           ++ m_content_id info)%string, archivo') /\
    listar_eventos archivo'
    = antes
      ++ con_docker_active "True" (con_content_id (m_content_id info) viejo)
      :: despues.
Proof.
  intros ip m config archivo comando out resultado info antes viejo despues
    _ Hv H1 H2 H3 H4 H5 F0 F1 Hl Ha Hn.
  rewrite (inicio_persistencia ip m config archivo comando out resultado
             info Hv H1 H2 H3 H4 H5), F0.
  destruct (actualizar_content_id_listar archivo (nombre config)
              (m_content_id info)) as (a1 & E1 & L1).
  rewrite E1, F1.
  destruct (actualizar_docker_active_listar a1 (nombre config) true)
    as (a2 & E2 & L2).
  rewrite E2. exists a2. split; [reflexivity|].
  rewrite L2, L1, Hl.
  exact (eq_trans
           (f_equal (fun l => fst (modificar_primero (nombre config)
                                     (con_docker_active "True") l))
              (modificar_primero_primero _ (nombre config)
                 (con_content_id (m_content_id info))
                 antes viejo despues Ha Hn))
           (modificar_primero_primero _ (nombre config)
              (con_docker_active "True") antes
              (con_content_id (m_content_id info) viejo) despues Ha Hn)).
Qed.

(** The property for [demo] in [mundo_sin_fallos]. *)
Lemma iniciar_docker_evento_exito_witness :
  exists archivo',
    iniciar_docker_evento (fun _ => true) mundo_sin_fallos config_demo
      archivo_demo
    = (Ok "Evento 'demo' iniciado correctamente con Content ID: X123",
       archivo') /\
    listar_eventos archivo'
    = [ con_docker_active "True"
          (con_content_id "X123" (evento_de config_demo)) ].
Proof.
  apply (iniciar_docker_evento_exito (fun _ => true) mundo_sin_fallos
           config_demo archivo_demo (comando_docker config_demo "b")
           "c1" "c1"
           {| m_content_id := "X123"; m_download_hash := Some "abc" |}
           [] (evento_de config_demo) []);
    try reflexivity.
  - apply legible_demo.
  - intros e [].
Defined.

(** ** Reconciliation of a stale container *)

(** X16. [verificar_y_limpiar_contenedor] returns normally only if
    [docker ps -a] exited with status zero and either listed nothing
    (blank output, in which case what [docker stop] and [docker rm]
    would do does not matter) or the container it listed was stopped
    and removed, both with status zero. A [docker stop] that exits with
    another status is raised as a [RuntimeError] with the captured
    error output, and so is a failing [docker rm] after a successful
    stop. *)
Theorem verificar_y_limpiar_contenedor_garantia :
  forall (m : Mundo) (n : string),
  (verificar_y_limpiar_contenedor m n = Ok tt ->
   exists stdout,
     docker m (argv_docker_ps_a n) = Exito stdout /\
     (strip stdout = "" \/
      exists o1 o2,
        docker m ["docker"; "stop"; strip stdout] = Exito o1 /\
        docker m ["docker"; "rm"; strip stdout] = Exito o2)) /\
  (forall stdout,
     docker m (argv_docker_ps_a n) = Exito stdout -> strip stdout = "" ->
     verificar_y_limpiar_contenedor m n = Ok tt) /\
  (forall stdout texto stderr,
     docker m (argv_docker_ps_a n) = Exito stdout -> strip stdout <> "" ->
     docker m ["docker"; "stop"; strip stdout] = CodigoNoCero texto stderr ->
     verificar_y_limpiar_contenedor m n
     = Error (Lanzada RuntimeError
                ("Error al detener contenedor: " ++ stderr)%string)) /\
  (forall stdout o1 texto stderr,
     docker m (argv_docker_ps_a n) = Exito stdout -> strip stdout <> "" ->
     docker m ["docker"; "stop"; strip stdout] = Exito o1 ->
     docker m ["docker"; "rm"; strip stdout] = CodigoNoCero texto stderr ->
     verificar_y_limpiar_contenedor m n
     = Error (Lanzada RuntimeError
                ("Error al eliminar contenedor: " ++ stderr)%string)).
Proof.
  intros m n.
  unfold verificar_y_limpiar_contenedor, parar_contenedor, borrar_contenedor,
    run_o_runtime, ligar.
  change ["docker"; "ps"; "-a"; "--filter"; ("name=^" ++ n ++ "$")%string;
          "--format"; "{{.ID}}"] with (argv_docker_ps_a n).
  split; [|split; [|split]].
  - destruct (docker m (argv_docker_ps_a n)) as [stdout|t e|t];
      try discriminate.
    simpl run_check. cbv iota. intros H. exists stdout.
    split; [reflexivity|].
    destruct (strip stdout) as [|c s] eqn:Es; [now left|right].
    simpl vacio in H. cbv iota in H.
    destruct (docker m ["docker"; "stop"; String c s]) as [o1|t e|t];
      try discriminate.
    destruct (docker m ["docker"; "rm"; String c s]) as [o2|t e|t];
      try discriminate.
    now exists o1, o2.
  - intros stdout -> Hs. simpl. now rewrite Hs.
  - intros stdout texto stderr -> Hs Hstop. simpl.
    apply vacio_false in Hs. now rewrite Hs, Hstop.
  - intros stdout o1 texto stderr -> Hs Hstop Hrm. simpl.
    apply vacio_false in Hs. now rewrite Hs, Hstop, Hrm.
Qed.

(** The property in [mundo_sin_fallos], where [docker ps -a] lists the
    container [c1] and stopping and removing it succeed. *)
Lemma verificar_y_limpiar_contenedor_garantia_witness :
  exists stdout,
    docker mundo_sin_fallos (argv_docker_ps_a "demo") = Exito stdout /\
    (strip stdout = "" \/
     exists o1 o2,
       docker mundo_sin_fallos ["docker"; "stop"; strip stdout] = Exito o1 /\
       docker mundo_sin_fallos ["docker"; "rm"; strip stdout] = Exito o2).
Proof.
  destruct (verificar_y_limpiar_contenedor_garantia mundo_sin_fallos "demo")
    as [H _].
  exact (H eq_refl).
Defined.

(** ** Volume cleanup: the count and the kept files *)

Lemma borrar_archivos_cuenta : forall entradas n acc,
  n = length acc ->
  match borrar_archivos entradas n acc with
  | (Ok k, borrados) => k = length borrados
  | (Error _, borrados) => True
  end.
Proof.
  induction entradas as [|a entradas IH]; intros n acc Hn; simpl.
  - exact Hn.
  - destruct (e_is_file a) as [[|]|e]; [|now apply IH|exact I].
    destruct (permitida (sufijo (e_nombre a))); [now apply IH|].
    destruct (e_unlink a); [|now apply IH].
    apply IH. rewrite length_app. simpl. lia.
Qed.

Lemma limpiar_solo_no_permitidos : forall fs nombre_volumen x,
  In x (snd (limpiar_archivos_temporales fs nombre_volumen)) ->
  permitida (sufijo x) = false.
Proof.
  intros fs v x. unfold limpiar_archivos_temporales, limpiar_cuerpo.
  destruct (ruta_base (plataforma fs) v) as [ruta|]; [|contradiction].
  destruct (existe fs ruta) as [[|]|e]; try contradiction.
  destruct (iterdir fs ruta) as [entradas|e]; [|contradiction].
  destruct (borrar_archivos entradas 0 []) as [r bs] eqn:E. simpl. intros H.
  assert (H' : In x (snd (borrar_archivos entradas 0 []))) by now rewrite E.
  apply borrar_archivos_solo_no_permitidos in H'.
  destruct H' as [[]|(a & _ & _ & _ & Hp)]. exact Hp.
Qed.

(** X17. The count the cleanup returns is the number of files it
    deleted, unless an exception made it return zero: then it has
    returned 0 although files may have been deleted before the
    exception, as on [disco_is_file_falla]. *)
Theorem limpiar_archivos_temporales_cuenta :
  (forall (fs : SistemaArchivos) (nombre_volumen : string),
     exists n,
       fst (limpiar_archivos_temporales fs nombre_volumen) = Ok n /\
       n <= length (snd (limpiar_archivos_temporales fs nombre_volumen)) /\
       (n = length (snd (limpiar_archivos_temporales fs nombre_volumen))
        \/ n = 0)) /\
  limpiar_archivos_temporales disco_is_file_falla "acestreamengine_demo"
  = (Ok 0, ["live.tmp"]).
Proof.
  split; [|reflexivity].
  intros fs v. unfold limpiar_archivos_temporales, limpiar_cuerpo.
  destruct (ruta_base (plataforma fs) v) as [ruta|];
    [|now exists 0; simpl; auto].
  destruct (existe fs ruta) as [[|]|e];
    [|now exists 0; simpl; auto|now exists 0; simpl; auto].
  destruct (iterdir fs ruta) as [entradas|e]; [|now exists 0; simpl; auto].
  pose proof (borrar_archivos_cuenta entradas 0 [] eq_refl) as H.
  destruct (borrar_archivos entradas 0 []) as [[k|e] bs]; simpl.
  - exists k. subst k. auto.
  - exists 0. split; [reflexivity|]. split; [lia|now right].
Qed.

Lemma desde_ultimo_punto_app : forall s e,
  desde_ultimo_punto e = None ->
  desde_ultimo_punto (s ++ String "." e) = Some (String "." e).
Proof.
  intros s e He. induction s as [|c s IH].
  - simpl. now rewrite He.
  - change (desde_ultimo_punto (String c s ++ String "." e))
      with (match desde_ultimo_punto (s ++ String "." e) with
            | Some suf => Some suf
            | None => if Ascii.eqb c "." then Some (String c (s ++ String "." e))
                      else None
            end).
    now rewrite IH.
Qed.

(** [Path.suffix] of a name made of a stem that is not empty, a dot
    and an extension without a dot is the dot with the extension. *)
Lemma sufijo_extension : forall stem e,
  stem <> "" -> e <> "" -> desde_ultimo_punto e = None ->
  sufijo (stem ++ String "." e) = String "." e.
Proof.
  intros [|c s] e Hs He Hd; [contradiction|].
  change (sufijo (String c s ++ String "." e))
    with (match desde_ultimo_punto (s ++ String "." e) with
          | Some suf => if (String.length suf <=? 1)%nat then EmptyString
                        else suf
          | None => EmptyString
          end).
  rewrite desde_ultimo_punto_app by assumption.
  destruct e; [contradiction|reflexivity].
Qed.

(** X18. A file whose name is a stem that is not empty followed by
    [.acelive] or [.sauth] is never deleted by the cleanup, on any host
    and whatever the other entries of the directory are. (The stem
    matters: for the names [.acelive] and [.sauth] themselves
    [Path.suffix] is empty.) *)
Theorem limpiar_archivos_temporales_conserva :
  forall (fs : SistemaArchivos) (nombre_volumen stem ext : string),
  stem <> "" -> In ext extensiones_permitidas ->
  existsb (String.eqb (stem ++ ext))
    (snd (limpiar_archivos_temporales fs nombre_volumen)) = false /\
  sufijo (stem ++ ext) = ext /\ sufijo ext = "".
Proof.
  intros fs v stem ext Hs He.
  assert (Hsuf : sufijo (stem ++ ext) = ext /\ sufijo ext = "").
  { destruct He as [<-|[<-|[]]]; split; try reflexivity;
      now apply sufijo_extension. }
  split; [|exact Hsuf].
  destruct (existsb (String.eqb (stem ++ ext))
              (snd (limpiar_archivos_temporales fs v))) eqn:E; [|reflexivity].
  apply existsb_exists in E. destruct E as (x & Hx & Heq).
  apply String.eqb_eq in Heq. subst x.
  apply limpiar_solo_no_permitidos in Hx.
  rewrite (proj1 Hsuf) in Hx.
  destruct He as [<-|[<-|[]]]; discriminate Hx.
Qed.

(** The property at [disco_demo], which holds [stream.acelive]. *)
Lemma limpiar_archivos_temporales_conserva_witness :
  existsb (String.eqb "stream.acelive")
    (snd (limpiar_archivos_temporales disco_demo "acestreamengine_demo"))
  = false.
Proof.
  apply (limpiar_archivos_temporales_conserva disco_demo
           "acestreamengine_demo" "stream" ".acelive").
  - discriminate.
  - left. reflexivity.
Defined.

(** ** Validation *)

Lemma si_nil : forall c m, si c m = [] <-> c = false.
Proof. intros [|] m; simpl; split; congruence. Qed.

Lemma validar_nil : forall ip_address self,
  validar ip_address self = [] <->
  regla_nombre self = false /\ regla_puerto self = false /\
  regla_host ip_address self = false /\ regla_bitrate self = false /\
  regla_titulo self = false /\ regla_fuentes self = false.
Proof.
  intros ip self. unfold validar.
  destruct (regla_nombre self), (regla_puerto self), (regla_host ip self),
    (regla_bitrate self), (regla_titulo self), (regla_fuentes self);
    simpl; intuition congruence.
Qed.

Lemma regla_nombre_false : forall self,
  regla_nombre self = false <-> Patron.coincide_nombre (nombre self) = true.
Proof.
  intros self. unfold regla_nombre. rewrite orb_false_iff, negb_false_iff.
  split; [tauto|]. intros H. split; [|exact H].
  destruct (nombre self); [discriminate H|reflexivity].
Qed.

Lemma regla_fuentes_false : forall self,
  regla_fuentes self = false <->
  exists f, In f (sources self) /\ strip (source f) <> "".
Proof.
  intros self. unfold regla_fuentes. split.
  - intros H. destruct (sources self) as [|g l] eqn:E; [discriminate|].
    assert (Hn : ~ forallb (fun s => vacio (strip (source s))) (g :: l) = true)
      by congruence.
    rewrite forallb_forall in Hn.
    destruct (existsb (fun s => negb (vacio (strip (source s)))) (g :: l))
      eqn:Ex.
    + apply existsb_exists in Ex. destruct Ex as (f & Hf & Hv).
      exists f. split; [exact Hf|]. apply vacio_false.
      now apply negb_true_iff.
    + exfalso. apply Hn. intros x Hx.
      destruct (vacio (strip (source x))) eqn:Ev; [reflexivity|].
      assert (existsb (fun s => negb (vacio (strip (source s)))) (g :: l)
              = true); [|congruence].
      apply existsb_exists. exists x. split; [exact Hx|]. now rewrite Ev.
  - intros (f & Hf & Hs). destruct (sources self) as [|g l]; [destruct Hf|].
    destruct (forallb (fun s => vacio (strip (source s))) (g :: l)) eqn:E;
      [|reflexivity].
    rewrite forallb_forall in E. apply vacio_false in Hs.
    rewrite (E f Hf) in Hs. discriminate.
Qed.

(** X19. [validar] returns no message exactly when: the name matches
    the name pattern, the port is in [1024, 65535], the host is accepted
    by [ipaddress] or matches the domain pattern, the bitrate is in
    [0, 10000000], the title is not blank, and some source has a URL
    that is not blank. *)
Theorem validar_sin_errores :
  forall (ip_address : string -> bool) (self : EventoConfig),
  validar ip_address self = [] <->
  Patron.coincide_nombre (nombre self) = true /\
  (1024 <= puerto self <= 65535)%Z /\
  (ip_address (host self) = true
   \/ Patron.coincide_dominio (host self) = true) /\
  (0 <= bitrate self <= 10000000)%Z /\
  strip (titulo self) <> "" /\
  exists f, In f (sources self) /\ strip (source f) <> "".
Proof.
  intros ip self.
  rewrite validar_nil, regla_nombre_false, regla_fuentes_false.
  unfold regla_puerto, regla_host, regla_bitrate, regla_titulo,
    _es_ip_valida, _es_dominio_valido.
  rewrite !negb_false_iff, !andb_true_iff, !Z.leb_le, andb_false_iff,
    !negb_false_iff, vacio_false.
  tauto.
Qed.

(** ** The web handlers and the store *)

Lemma ultimo_rstrip : forall s c,
  Patron.ultimo (rstrip s) = Some c -> es_espacio c = false.
Proof.
  induction s as [|a r IH]; intros c H; [discriminate|].
  simpl rstrip in H. destruct (rstrip r) as [|d r'] eqn:E.
  - destruct (es_espacio a) eqn:Ea; [discriminate|].
    simpl in H. now injection H as <-.
  - apply IH. exact H.
Qed.

Lemma sin_salto_final_id : forall s,
  (forall c, Patron.ultimo s = Some c -> codigo c <> 10) ->
  Patron.sin_salto_final s = s.
Proof.
  induction s as [|c s IH]; intros H; [reflexivity|].
  destruct s as [|d r].
  - simpl. specialize (H c eq_refl). apply Nat.eqb_neq in H. now rewrite H.
  - change (Patron.sin_salto_final (String c (String d r)))
      with (String c (Patron.sin_salto_final (String d r))).
    now rewrite IH.
Qed.

Lemma espacio_salto : forall c, es_espacio c = false -> codigo c <> 10.
Proof.
  intros c H E. unfold es_espacio in H. rewrite E in H. discriminate.
Qed.

(** A stripped text that matches the name pattern is made of the
    characters of the pattern only: [strip] has removed the final
    newline that [$] would let through. *)
Lemma nombre_limpio : forall s,
  Patron.coincide_nombre (strip s) = true ->
  strip s <> "" /\ todos Patron.es_car_nombre (strip s) = true.
Proof.
  intros s H. unfold Patron.coincide_nombre in H.
  rewrite sin_salto_final_id in H.
  - apply andb_true_iff in H. destruct H as [Hv Ht].
    split; [|exact Ht]. apply vacio_false. now apply negb_true_iff.
  - intros c Hc. apply espacio_salto. unfold strip in Hc.
    now apply ultimo_rstrip in Hc.
Qed.

Lemma strip_vacio : strip "" = "".
Proof. reflexivity. Qed.

Section WebMas.

Variable ip_address : string -> bool.
Variable int_de_texto : string -> option Z.

Lemma config_de_formulario_campos : forall n form c a config,
  config_de_formulario int_de_texto n form c a = Ok config ->
  nombre config = n /\ titulo config = strip (f_titulo form) /\
  host config = strip (f_host form) /\
  sources config = fuentes_de_formulario (f_sources form) /\
  content_id config = c /\ docker_active config = a.
Proof.
  intros n form c a config H. unfold config_de_formulario, ligar in H.
  destruct (int_o int_de_texto (f_puerto form) 8642); [|discriminate].
  destruct (int_o int_de_texto (f_bitrate form) 697587); [|discriminate].
  injection H as <-. repeat split.
Qed.

Lemma new_event_escribe_validado : forall form archivo,
  snd (new_event ip_address int_de_texto (MetodoPOST form) archivo) = archivo
  \/ exists config,
       config_de_formulario int_de_texto (strip (f_nombre form)) form
         "" "False" = Ok config /\
       validar ip_address config = [] /\
       snd (new_event ip_address int_de_texto (MetodoPOST form) archivo)
       = agregar_evento archivo config.
Proof.
  intros form archivo. unfold new_event.
  destruct (config_de_formulario int_de_texto (strip (f_nombre form)) form
              "" "False") as [config|e]; [|now left].
  destruct (validar ip_address config) eqn:Ev; [|now left].
  right. now exists config.
Qed.

Lemma edit_event_escribe_validado : forall n form archivo,
  snd (edit_event ip_address int_de_texto n (MetodoPOST form) archivo)
  = archivo
  \/ exists evento config,
       buscar_evento n (listar_eventos archivo) = Some evento /\
       config_de_formulario int_de_texto n form (k_content_id evento)
         (k_docker_active evento) = Ok config /\
       validar ip_address config = [] /\
       actualizar_evento archivo config
       = Ok (snd (edit_event ip_address int_de_texto n (MetodoPOST form)
                    archivo)).
Proof.
  intros n form archivo. unfold edit_event.
  destruct (buscar_evento n (listar_eventos archivo)) as [evento|];
    [|now left].
  destruct (config_de_formulario int_de_texto n form (k_content_id evento)
              (k_docker_active evento)) as [config|e] eqn:Ec; [|now left].
  destruct (validar ip_address config) eqn:Ev; [|now left].
  destruct (actualizar_evento archivo config) as [a|e] eqn:Ea; [|now left].
  right. exists evento, config. simpl. repeat split; auto.
Qed.

End WebMas.

(** X20. [new_event] writes nothing, or appends exactly one record,
    and then for a configuration that passed [validar]: its name is the
    stripped name of the form, not empty and made only of letters,
    digits, [_] and [-]; its port is in [1024, 65535] and its bitrate
    in [0, 10000000]; its title is not empty; it has at least one
    source; its content id is empty and its active flag [False]. *)
Theorem new_event_registro_valido :
  forall (ip_address : string -> bool) (int_de_texto : string -> option Z)
         (form : Formulario) (archivo : Archivo),
  let archivo' :=
    snd (new_event ip_address int_de_texto (MetodoPOST form) archivo) in
  archivo' = archivo \/
  exists config,
    archivo' = agregar_evento archivo config /\
    validar ip_address config = [] /\
    nombre config = strip (f_nombre form) /\
    nombre config <> "" /\
    todos Patron.es_car_nombre (nombre config) = true /\
    (1024 <= puerto config <= 65535)%Z /\
    (0 <= bitrate config <= 10000000)%Z /\
    titulo config <> "" /\
    sources config <> [] /\
    content_id config = "" /\ docker_active config = "False".
Proof.
  intros ip int_de_texto form archivo archivo'. subst archivo'.
  destruct (new_event_escribe_validado ip int_de_texto form archivo)
    as [H|(config & Hc & Hv & Ha)]; [now left|right].
  exists config. split; [exact Ha|]. split; [exact Hv|].
  apply config_de_formulario_campos in Hc.
  destruct Hc as (Hn & Ht & _ & _ & Hci & Hda).
  apply validar_nil in Hv.
  destruct Hv as (Rn & Rp & _ & Rb & Rt & Rf).
  apply regla_nombre_false in Rn. rewrite Hn in Rn.
  apply nombre_limpio in Rn. destruct Rn as [N1 N2].
  rewrite Hn. split; [reflexivity|]. split; [exact N1|]. split; [exact N2|].
  unfold regla_puerto in Rp. unfold regla_bitrate in Rb.
  apply negb_false_iff, andb_true_iff in Rp.
  apply negb_false_iff, andb_true_iff in Rb.
  rewrite !Z.leb_le in Rp, Rb.
  split; [exact Rp|]. split; [exact Rb|]. split.
  - unfold regla_titulo in Rt. intros E. rewrite E in Rt. discriminate.
  - split; [|now split]. unfold regla_fuentes in Rf. intros E.
    rewrite E in Rf. discriminate.
Qed.

(** X21. On a store in the program's format, [edit_event] writes
    nothing, or replaces the first record with the name by one with the
    same name, the same content id and the same active flag, and with
    the stripped title and host and the sources of the form; the
    records before and after it are read as before. *)
Theorem edit_event_conserva_estado :
  forall (ip_address : string -> bool) (int_de_texto : string -> option Z)
         (n : string) (form : Formulario) (archivo : Archivo),
  legible archivo ->
  let archivo' :=
    snd (edit_event ip_address int_de_texto n (MetodoPOST form) archivo) in
  archivo' = archivo \/
  exists antes viejo nuevo despues,
    listar_eventos archivo = antes ++ viejo :: despues /\
    (forall e, In e antes -> k_name e <> n) /\
    k_name viejo = n /\
    listar_eventos archivo' = antes ++ nuevo :: despues /\
    k_name nuevo = n /\
    k_content_id nuevo = k_content_id viejo /\
    k_docker_active nuevo = k_docker_active viejo /\
    k_title nuevo = strip (f_titulo form) /\
    k_host nuevo = strip (f_host form) /\
    k_sources nuevo = fuentes_de_formulario (f_sources form).
Proof.
  intros ip int_de_texto n form archivo _ archivo'. subst archivo'.
  destruct (edit_event_escribe_validado ip int_de_texto n form archivo)
    as [H|(evento & config & Hb & Hc & _ & Ha)]; [now left|right].
  apply config_de_formulario_campos in Hc.
  destruct Hc as (Hn & Ht & Hh & Hs & Hci & Hda).
  apply actualizar_evento_listar in Ha.
  destruct Ha as (antes & viejo & despues & Hl & Hantes & Hv & Hl').
  rewrite Hn in Hantes, Hv.
  assert (He : evento = viejo).
  { assert (Hs' : Some evento = Some viejo).
    { apply (eq_trans (eq_sym Hb)).
      apply (eq_trans (f_equal (buscar_evento n) Hl)).
      now apply buscar_primero. }
    now injection Hs'. }
  subst evento.
  exists antes, viejo, (evento_actualizado config viejo), despues.
  split; [exact Hl|]. split; [exact Hantes|]. split; [exact Hv|].
  split; [exact Hl'|]. simpl. repeat split; assumption.
Qed.

(** The property for [formulario_demo] posted for the record [demo] of
    [archivo_demo]. *)
Lemma edit_event_conserva_estado_witness :
  snd (edit_event (fun _ => true) int_demo "demo"
         (MetodoPOST formulario_demo) archivo_demo)
  = archivo_demo \/
  exists antes viejo nuevo despues,
    listar_eventos archivo_demo = antes ++ viejo :: despues /\
    (forall e, In e antes -> k_name e <> "demo") /\
    k_name viejo = "demo" /\
    listar_eventos
      (snd (edit_event (fun _ => true) int_demo "demo"
              (MetodoPOST formulario_demo) archivo_demo))
    = antes ++ nuevo :: despues /\
    k_name nuevo = "demo" /\
    k_content_id nuevo = k_content_id viejo /\
    k_docker_active nuevo = k_docker_active viejo /\
    k_title nuevo = strip (f_titulo formulario_demo) /\
    k_host nuevo = strip (f_host formulario_demo) /\
    k_sources nuevo = fuentes_de_formulario (f_sources formulario_demo).
Proof.
  apply (edit_event_conserva_estado (fun _ => true) int_demo "demo"
           formulario_demo archivo_demo).
  apply legible_demo.
Defined.

(** X22. A configuration within the reader's field limit, written by
    [agregar_evento] to a store within it under a name that was not in
    the store, comes back unchanged when [start_event] reads the record
    to start the event, as long as [int] gives back the port and the
    bitrate from their decimal text. *)
Theorem start_event_config_escrita :
  forall (int_de_texto : string -> option Z) (archivo : Archivo)
         (config : EventoConfig),
  en_limite archivo = true ->
  config_en_limite config = true ->
  (forall e, In e (listar_eventos archivo) -> k_name e <> nombre config) ->
  int_de_texto (str_int (puerto config)) = Some (puerto config) ->
  int_de_texto (str_int (bitrate config)) = Some (bitrate config) ->
  exists respuesta,
    start_event int_de_texto (nombre config) (agregar_evento archivo config)
    = Ok (respuesta, Some config).
Proof.
  intros int_de_texto archivo config Hl Hc Ha Hp Hb. unfold start_event.
  rewrite (listar_eventos_csv_agregar archivo config Hl Hc).
  unfold ligar.
  rewrite buscar_app, (buscar_ausente _ _ Ha).
  unfold buscar_evento. simpl find. rewrite String.eqb_refl.
  unfold config_de_evento, int_, ligar. simpl.
  rewrite Hp, Hb. simpl. eexists. now destruct config.
Qed.

(** The property for [config_demo] written to an empty store. *)
Lemma start_event_config_escrita_witness :
  exists respuesta,
    start_event int_demo "demo" (agregar_evento [] config_demo)
    = Ok (respuesta, Some config_demo).
Proof.
  apply (start_event_config_escrita int_demo [] config_demo).
  - reflexivity.
  - reflexivity.
  - intros e [].
  - reflexivity.
  - reflexivity.
Defined.
